(** * Theme settings manager (src/context/ThemeContext.tsx)

    A shallow embedding of the theme context of the application: the
    contrast rule [isLightColor], the preference state held by
    [ThemeProvider], its setters, the initial load and the two
    persistence tiers (the browser's localStorage and the remote
    profile row).

    Conventions.
    - A JavaScript string is a [string]; each [ascii] stands for one
      UTF-16 code unit below 256.
    - A JavaScript Number is an IEEE 754 binary64 value, that is a
      primitive [float]; arithmetic and comparisons are the primitive
      ones, so rounding and NaN behave as in the engine.
    - [x || d] on an optional string is [or_default]: an absent value
      and the empty string both select the default.
    - A status-colour object is a finite map from key to colour, typed as
      the source types it: keys and values are strings.
    - The provider is a state machine over a [World]: the state cells,
      the localStorage and the events observed so far. Each setter call
      runs on the committed state (a render separates two calls), and
      [localStorage.setItem] does not fail.
    - Awaited promises are inputs: each is settled, resolved or
      rejected. *)

From Stdlib Require Import Floats Uint63 ZArith QArith Ascii String List Bool Lia.
From stdpp Require Import gmap strings list fin_maps.

Set Warnings "-inexact-float,-register-all".
Local Open Scope string_scope.

(** ** JavaScript string and number primitives used by the source *)

Module JS.

(** [s.replace(c, '')] for a one-character pattern: the first occurrence
    is removed, later ones stay. *)
Fixpoint replace_first (c : ascii) (s : string) : string :=
  match s with
  | EmptyString => EmptyString
  | String a rest => if Ascii.eqb a c then rest else String a (replace_first c rest)
  end.

(** [s.substring(from, to)] for [from <= to]; indices beyond the end are
    clamped to the length. *)
Definition substring (s : string) (from to : nat) : string :=
  String.substring from (to - from) s.

(** The white space [parseInt] skips (WhiteSpace and LineTerminator code
    units below 256): TAB, LF, VT, FF, CR, SP and NBSP. *)
Definition is_ws (c : ascii) : bool :=
  let n := N_of_ascii c in
  (N.leb 9 n && N.leb n 13) || N.eqb n 32 || N.eqb n 160.

Fixpoint trim_start (s : string) : string :=
  match s with
  | EmptyString => EmptyString
  | String a rest => if is_ws a then trim_start rest else s
  end.

(** Value of a radix-16 digit. *)
Definition hex_digit (c : ascii) : option N :=
  let n := N_of_ascii c in
  if N.leb 48 n && N.leb n 57 then Some (n - 48)%N        (* 0-9 *)
  else if N.leb 97 n && N.leb n 102 then Some (n - 87)%N  (* a-f *)
  else if N.leb 65 n && N.leb n 70 then Some (n - 55)%N   (* A-F *)
  else None.

(** The longest prefix of radix-16 digits, read as an integer; [None]
    when that prefix is empty. *)
Fixpoint digits16 (acc : option N) (s : string) : option N :=
  match s with
  | EmptyString => acc
  | String a rest =>
      match hex_digit a with
      | Some d => digits16 (Some (16 * default 0%N acc + d)%N) rest
      | None => acc
      end
  end.

(** Result of [parseInt]: NaN, or a sign and a magnitude (the sign is
    kept apart so that [parseInt('-0', 16)] is the negative zero). *)
Inductive Integral : Type :=
  | NaN
  | Int (neg : bool) (magnitude : N).

Definition strip_sign (s : string) : bool * string :=
  match s with
  | String a rest =>
      if Ascii.eqb a "-" then (true, rest)
      else if Ascii.eqb a "+" then (false, rest)
      else (false, s)
  | EmptyString => (false, s)
  end.

Definition strip_0x (s : string) : string :=
  match s with
  | String a (String b rest) =>
      if Ascii.eqb a "0" && (Ascii.eqb b "x" || Ascii.eqb b "X") then rest else s
  | _ => s
  end.

(** [parseInt(s, 16)]: skip leading white space, read an optional sign,
    drop an optional [0x]/[0X], then read hexadecimal digits up to the
    first character that is not one. *)
Definition parseInt16 (s : string) : Integral :=
  let (neg, s1) := strip_sign (trim_start s) in
  match digits16 None (strip_0x s1) with
  | None => NaN
  | Some n => Int neg n
  end.

(** The Number a [parseInt] result denotes. The conversion is exact for
    magnitudes below 2^53; the source only parses slices of at most two
    characters. *)
Definition to_Number (i : Integral) : float :=
  match i with
  | NaN => PrimFloat.nan
  | Int neg n =>
      let f := PrimFloat.of_uint63 (Uint63.of_Z (Z.of_N n)) in
      if neg then PrimFloat.opp f else f
  end.

(** [x || d] where [x] is [string | null]. *)
Definition or_default (x : option string) (d : string) : string :=
  match x with
  | Some (String a rest) => String a rest
  | _ => d
  end.

End JS.

(** ** The contrast rule *)

(** [(0.299 * r + 0.587 * g + 0.114 * b) / 255] in binary64. *)
Definition luminance (r g b : float) : float :=
  ((0.299 * r + 0.587 * g + 0.114 * b) / 255)%float.

(** Source lines 83-97. *)
Definition isLightColor (hexColor : string) : bool :=
  let hex := JS.replace_first "#" hexColor in
  let r := JS.to_Number (JS.parseInt16 (JS.substring hex 0 2)) in
  let g := JS.to_Number (JS.parseInt16 (JS.substring hex 2 4)) in
  let b := JS.to_Number (JS.parseInt16 (JS.substring hex 4 6)) in
  PrimFloat.ltb 0.5%float (luminance r g b).


(** ** JSON text: [JSON.parse] and [JSON.stringify] *)

Module Json.

(** The double quote and the backslash. *)
Definition dquote : ascii := "034"%char.
Definition backslash : ascii := "092"%char.

(** A parsed JSON value. A string is kept as its code units, since an
    escape [\uXXXX] may denote a unit above 255. The numeric value of a
    number is not kept: no operation of the source reads one. *)
Inductive value : Type :=
  | Null
  | Boolean (b : bool)
  | Num
  | Str (units : list N)
  | Arr (elements : list value)
  | Obj (members : list (list N * value)).

(** JSON white space: space, TAB, LF, CR. *)
Definition is_ws (c : ascii) : bool :=
  let n := N_of_ascii c in
  N.eqb n 32 || N.eqb n 9 || N.eqb n 10 || N.eqb n 13.

Fixpoint skip_ws (s : string) : string :=
  match s with
  | String c rest => if is_ws c then skip_ws rest else s
  | EmptyString => s
  end.

Definition is_digit (c : ascii) : bool :=
  let n := N_of_ascii c in N.leb 48 n && N.leb n 57.

Fixpoint skip_digits (s : string) : string :=
  match s with
  | String c rest => if is_digit c then skip_digits rest else s
  | EmptyString => s
  end.

(** One or more digits. *)
Definition digits1 (s : string) : option string :=
  match s with
  | String c rest => if is_digit c then Some (skip_digits rest) else None
  | EmptyString => None
  end.

(** A number token: an optional minus sign, then 0 or a non-zero digit
    followed by digits, then an optional fraction (a dot and one or more
    digits), then an optional exponent (e or E, an optional sign, one or
    more digits). Each part returns the text after it. *)
Definition minus_sign (s : string) : string :=
  match s with
  | String c r => if Ascii.eqb c "-" then r else s
  | EmptyString => s
  end.

Definition int_part (s : string) : option string :=
  match s with
  | String c r =>
      if Ascii.eqb c "0" then Some r
      else if is_digit c then Some (skip_digits r)
      else None
  | EmptyString => None
  end.

Definition fraction (s : string) : option string :=
  match s with
  | String c r => if Ascii.eqb c "." then digits1 r else Some s
  | EmptyString => Some s
  end.

Definition exponent (s : string) : option string :=
  match s with
  | String c r =>
      if Ascii.eqb c "e" || Ascii.eqb c "E" then
        match r with
        | String d r' =>
            if Ascii.eqb d "+" || Ascii.eqb d "-" then digits1 r' else digits1 r
        | EmptyString => None
        end
      else Some s
  | EmptyString => Some s
  end.

Definition number (s : string) : option string :=
  match int_part (minus_sign s) with
  | Some s2 =>
      match fraction s2 with
      | Some s3 => exponent s3
      | None => None
      end
  | None => None
  end.

(** The code unit of a one-character escape. *)
Definition simple_escape (c : ascii) : option N :=
  if Ascii.eqb c dquote then Some 34%N
  else if Ascii.eqb c backslash then Some 92%N
  else if Ascii.eqb c "/" then Some 47%N
  else if Ascii.eqb c "b" then Some 8%N
  else if Ascii.eqb c "f" then Some 12%N
  else if Ascii.eqb c "n" then Some 10%N
  else if Ascii.eqb c "r" then Some 13%N
  else if Ascii.eqb c "t" then Some 9%N
  else None.

Definition hex4 (a b c d : ascii) : option N :=
  match JS.hex_digit a, JS.hex_digit b, JS.hex_digit c, JS.hex_digit d with
  | Some x, Some y, Some z, Some w => Some (((x * 16 + y) * 16 + z) * 16 + w)%N
  | _, _, _, _ => None
  end.

(** The characters of a string literal after its opening quote, up to
    and including the closing quote. *)
Fixpoint string_body (s : string) : option (list N * string) :=
  match s with
  | EmptyString => None
  | String c r =>
      if Ascii.eqb c dquote then Some ([], r)
      else if Ascii.eqb c backslash then
        match r with
        | String e r1 =>
            if Ascii.eqb e "u" then
              match r1 with
              | String h1 (String h2 (String h3 (String h4 r2))) =>
                  match hex4 h1 h2 h3 h4, string_body r2 with
                  | Some n, Some (us, rest) => Some (n :: us, rest)
                  | _, _ => None
                  end
              | _ => None
              end
            else
              match simple_escape e, string_body r1 with
              | Some n, Some (us, rest) => Some (n :: us, rest)
              | _, _ => None
              end
        | EmptyString => None
        end
      else if N.ltb (N_of_ascii c) 32 then None
      else
        match string_body r with
        | Some (us, rest) => Some (N_of_ascii c :: us, rest)
        | None => None
        end
  end.

Definition string_literal (s : string) : option (list N * string) :=
  match s with
  | String c r => if Ascii.eqb c dquote then string_body r else None
  | EmptyString => None
  end.

(** [expect lit s]: [s] without its prefix [lit]. *)
Fixpoint expect (lit s : string) : option string :=
  match lit, s with
  | EmptyString, _ => Some s
  | String a lit', String c s' => if Ascii.eqb a c then expect lit' s' else None
  | String _ _, EmptyString => None
  end.

(** Recursive descent over the JSON grammar. [fuel] bounds the number of
    nested and sequenced values; [parse_text] below supplies more than
    the text can use (lemma [parse_text_fuel_enough]). Each function
    returns the value read and the rest of the text, or [None] for a
    syntax error. *)
Fixpoint parse_value (fuel : nat) (s : string) : option (value * string) :=
  match fuel with
  | O => None
  | S fuel' =>
      match skip_ws s with
      | EmptyString => None
      | String c r =>
          if Ascii.eqb c "{" then
            match skip_ws r with
            | String d r' =>
                if Ascii.eqb d "}" then Some (Obj [], r')
                else
                  match parse_members fuel' r with
                  | Some (ms, rest) => Some (Obj ms, rest)
                  | None => None
                  end
            | EmptyString => None
            end
          else if Ascii.eqb c "[" then
            match skip_ws r with
            | String d r' =>
                if Ascii.eqb d "]" then Some (Arr [], r')
                else
                  match parse_elements fuel' r with
                  | Some (vs, rest) => Some (Arr vs, rest)
                  | None => None
                  end
            | EmptyString => None
            end
          else if Ascii.eqb c dquote then
            match string_body r with
            | Some (us, rest) => Some (Str us, rest)
            | None => None
            end
          else if Ascii.eqb c "t" then
            match expect "rue" r with Some rest => Some (Boolean true, rest) | None => None end
          else if Ascii.eqb c "f" then
            match expect "alse" r with Some rest => Some (Boolean false, rest) | None => None end
          else if Ascii.eqb c "n" then
            match expect "ull" r with Some rest => Some (Null, rest) | None => None end
          else
            match number (String c r) with
            | Some rest => Some (Num, rest)
            | None => None
            end
      end
  end

with parse_members (fuel : nat) (s : string) : option (list (list N * value) * string) :=
  match fuel with
  | O => None
  | S fuel' =>
      match string_literal (skip_ws s) with
      | None => None
      | Some (k, s1) =>
          match skip_ws s1 with
          | String c s2 =>
              if Ascii.eqb c ":" then
                match parse_value fuel' s2 with
                | None => None
                | Some (v, s3) =>
                    match skip_ws s3 with
                    | String d s4 =>
                        if Ascii.eqb d "," then
                          match parse_members fuel' s4 with
                          | Some (ms, rest) => Some ((k, v) :: ms, rest)
                          | None => None
                          end
                        else if Ascii.eqb d "}" then Some ([(k, v)], s4)
                        else None
                    | EmptyString => None
                    end
                end
              else None
          | EmptyString => None
          end
      end
  end

with parse_elements (fuel : nat) (s : string) : option (list value * string) :=
  match fuel with
  | O => None
  | S fuel' =>
      match parse_value fuel' s with
      | None => None
      | Some (v, s1) =>
          match skip_ws s1 with
          | String d s2 =>
              if Ascii.eqb d "," then
                match parse_elements fuel' s2 with
                | Some (vs, rest) => Some (v :: vs, rest)
                | None => None
                end
              else if Ascii.eqb d "]" then Some ([v], s2)
              else None
          | EmptyString => None
          end
      end
  end.

(** The whole text is one value between optional white space; [None] is
    the SyntaxError [JSON.parse] throws. A value nested in another or
    following another costs at most two units of fuel and at least one
    character, so twice the length is fuel enough. *)
Definition parse_text (text : string) : option value :=
  match parse_value (2 * String.length text + 2) text with
  | Some (v, rest) =>
      match skip_ws rest with
      | EmptyString => Some v
      | String _ _ => None
      end
  | None => None
  end.

(** A string of the model from code units; none when a unit is above 255. *)
Fixpoint of_units (us : list N) : option string :=
  match us with
  | [] => Some EmptyString
  | u :: us' =>
      if N.ltb u 256 then
        match of_units us' with
        | Some s => Some (String (ascii_of_N u) s)
        | None => None
        end
      else None
  end.

(** The members of an object whose values are all strings, as a map.
    A later duplicate of a key replaces the earlier one. *)
Fixpoint string_members (ms : list (list N * value)) (acc : gmap string string)
  : option (gmap string string) :=
  match ms with
  | [] => Some acc
  | (k, Str v) :: ms' =>
      match of_units k, of_units v with
      | Some k', Some v' => string_members ms' (<[k' := v']> acc)
      | _, _ => None
      end
  | _ :: _ => None
  end.

(** What [JSON.parse(text)] gives where the source expects a
    [StatusColorsType]: the SyntaxError it throws, an object of strings,
    or another JSON value. TypeScript does not check the last case, and
    the state of this model, typed as the source types it, cannot hold
    it. *)
Inductive parsed : Type :=
  | SyntaxError
  | Colors (m : gmap string string)
  | OtherValue (v : value).

Definition parse (text : string) : parsed :=
  match parse_text text with
  | None => SyntaxError
  | Some (Obj ms) =>
      match string_members ms ∅ with
      | Some m => Colors m
      | None => OtherValue (Obj ms)
      end
  | Some v => OtherValue v
  end.

(** [JSON.stringify] on an object of strings. *)
Definition hex_char (n : N) : ascii :=
  if N.ltb n 10 then ascii_of_N (48 + n) else ascii_of_N (87 + n).

Definition escape_char (c : ascii) : string :=
  let n := N_of_ascii c in
  if N.eqb n 34 then String backslash (String dquote "")
  else if N.eqb n 92 then String backslash (String backslash "")
  else if N.eqb n 8 then String backslash "b"
  else if N.eqb n 12 then String backslash "f"
  else if N.eqb n 10 then String backslash "n"
  else if N.eqb n 13 then String backslash "r"
  else if N.eqb n 9 then String backslash "t"
  else if N.ltb n 32 then
    String backslash (String "u" (String "0" (String "0"
      (String (hex_char (n / 16)) (String (hex_char (n mod 16)) "")))))
  else String c "".

Fixpoint escape (s : string) : string :=
  match s with
  | EmptyString => EmptyString
  | String c rest => escape_char c ++ escape rest
  end.

Definition quote (s : string) : string :=
  String dquote (escape s ++ String dquote "").

Definition member (kv : string * string) : string :=
  quote (fst kv) ++ ":" ++ quote (snd kv).

Fixpoint members (kvs : list (string * string)) : string :=
  match kvs with
  | [] => ""
  | [kv] => member kv
  | kv :: rest => member kv ++ "," ++ members rest
  end.

(** The members are written in the order [map_to_list] lists them. The
    engine writes them in insertion order; the only reader of the text is
    [parse], which does not depend on the order. *)
Definition stringify (m : gmap string string) : string :=
  "{" ++ members (map_to_list m) ++ "}".

End Json.

(** ** The preference state (source lines 8-33 and 56-70) *)

(** [StatusColorsType] and [StatusTextColorsType] are JavaScript objects
    from status key to colour: finite maps with string keys. *)
Abbreviation StatusColorsType := (gmap string string).

Definition STATUS_KEYS : gset string :=
  {[ "completed"; "in-progress"; "delayed"; "analysis" ]}.

Definition DEFAULT_STATUS_COLORS : StatusColorsType :=
  <["completed" := "#F2FCE2"]> (<["in-progress" := "#D3E4FD"]>
  (<["delayed" := "#FFCCCB"]> (<["analysis" := "#FEF7CD"]> ∅))).

Definition DEFAULT_TEXT_COLORS : StatusColorsType :=
  <["completed" := "#1e3a1e"]> (<["in-progress" := "#1e3a5a"]>
  (<["delayed" := "#8B0000"]> (<["analysis" := "#3a351e"]> ∅))).

(** [type ThemeSettings]: the JSON value of the [theme_settings] column,
    every field optional. *)
Module ThemeSettings.
Record t : Type := Build {
  headerColor : option string;
  avatarColor : option string;
  textColor : option string;
  mainColor : option string;
  buttonColor : option string;
  caseStatusColors : option StatusColorsType;
  taskStatusColors : option StatusColorsType;
  caseStatusTextColors : option StatusColorsType;
}.
End ThemeSettings.

(** [currentStatusView: 'cases' | 'tasks'], as the setter's parameter is
    typed. *)
Inductive StatusView : Type := cases | tasks.

Definition view_name (v : StatusView) : string :=
  match v with cases => "cases" | tasks => "tasks" end.

(** The [useState] cells of [ThemeProvider] (source lines 124-133). The
    view is held as a string: the load casts whatever the cache holds. *)
Record ThemeState : Type := {
  headerColor : string;
  avatarColor : string;
  textColor : string;
  mainColor : string;
  buttonColor : string;
  caseStatusColors : StatusColorsType;
  taskStatusColors : StatusColorsType;
  caseStatusTextColors : StatusColorsType;
  currentStatusView : string;
  initialized : bool;
}.

Definition initial_state : ThemeState := {|
  headerColor := "#8B9474";
  avatarColor := "#F5A65B";
  textColor := "text-white";
  mainColor := "#F3F4F6";
  buttonColor := "#8B9474";
  caseStatusColors := DEFAULT_STATUS_COLORS;
  taskStatusColors := DEFAULT_STATUS_COLORS;
  caseStatusTextColors := DEFAULT_TEXT_COLORS;
  currentStatusView := "cases";
  initialized := false;
|}.

(** What the provider does that an observer outside it can see, oldest
    first. *)
Inductive event : Type :=
  | ConsoleError
  | LoadFromLocalStorage                                   (* a call of loadFromLocalStorage *)
  | AdoptRemote                                            (* the remote payload is adopted *)
  | SetInitialized (b : bool)                              (* a call of setInitialized *)
  | SaveThemeToDatabase (newSettings : ThemeSettings.t).   (* a remote write is dispatched *)

(** The provider's state, the browser's localStorage and the events so
    far. A setter runs in the render that follows the previous update, so
    the values it closes over are those of [state]. *)
Record World : Type := {
  state : ThemeState;
  localStorage : gmap string string;
  events : list event;
}.

Definition initial_world (cache : gmap string string) : World :=
  {| state := initial_state; localStorage := cache; events := [] |}.

Definition with_state (f : ThemeState → ThemeState) (w : World) : World :=
  {| state := f (state w); localStorage := localStorage w; events := events w |}.

Definition emit (e : event) (w : World) : World :=
  {| state := state w; localStorage := localStorage w; events := events w ++ [e] |}.

(** [localStorage.setItem(key, value)]. *)
Definition setItem (key value : string) (w : World) : World :=
  {| state := state w; localStorage := <[key := value]> (localStorage w); events := events w |}.

(** The state setters returned by [useState]. *)
Definition setHeaderColorState (v : string) : World → World :=
  with_state (λ st, {|
    headerColor := v; avatarColor := avatarColor st; textColor := textColor st;
    mainColor := mainColor st; buttonColor := buttonColor st;
    caseStatusColors := caseStatusColors st; taskStatusColors := taskStatusColors st;
    caseStatusTextColors := caseStatusTextColors st;
    currentStatusView := currentStatusView st; initialized := initialized st |}).

Definition setAvatarColorState (v : string) : World → World :=
  with_state (λ st, {|
    headerColor := headerColor st; avatarColor := v; textColor := textColor st;
    mainColor := mainColor st; buttonColor := buttonColor st;
    caseStatusColors := caseStatusColors st; taskStatusColors := taskStatusColors st;
    caseStatusTextColors := caseStatusTextColors st;
    currentStatusView := currentStatusView st; initialized := initialized st |}).

Definition setTextColorState (v : string) : World → World :=
  with_state (λ st, {|
    headerColor := headerColor st; avatarColor := avatarColor st; textColor := v;
    mainColor := mainColor st; buttonColor := buttonColor st;
    caseStatusColors := caseStatusColors st; taskStatusColors := taskStatusColors st;
    caseStatusTextColors := caseStatusTextColors st;
    currentStatusView := currentStatusView st; initialized := initialized st |}).

Definition setMainColorState (v : string) : World → World :=
  with_state (λ st, {|
    headerColor := headerColor st; avatarColor := avatarColor st; textColor := textColor st;
    mainColor := v; buttonColor := buttonColor st;
    caseStatusColors := caseStatusColors st; taskStatusColors := taskStatusColors st;
    caseStatusTextColors := caseStatusTextColors st;
    currentStatusView := currentStatusView st; initialized := initialized st |}).

Definition setButtonColorState (v : string) : World → World :=
  with_state (λ st, {|
    headerColor := headerColor st; avatarColor := avatarColor st; textColor := textColor st;
    mainColor := mainColor st; buttonColor := v;
    caseStatusColors := caseStatusColors st; taskStatusColors := taskStatusColors st;
    caseStatusTextColors := caseStatusTextColors st;
    currentStatusView := currentStatusView st; initialized := initialized st |}).

Definition setCaseStatusColorsState (v : StatusColorsType) : World → World :=
  with_state (λ st, {|
    headerColor := headerColor st; avatarColor := avatarColor st; textColor := textColor st;
    mainColor := mainColor st; buttonColor := buttonColor st;
    caseStatusColors := v; taskStatusColors := taskStatusColors st;
    caseStatusTextColors := caseStatusTextColors st;
    currentStatusView := currentStatusView st; initialized := initialized st |}).

Definition setTaskStatusColorsState (v : StatusColorsType) : World → World :=
  with_state (λ st, {|
    headerColor := headerColor st; avatarColor := avatarColor st; textColor := textColor st;
    mainColor := mainColor st; buttonColor := buttonColor st;
    caseStatusColors := caseStatusColors st; taskStatusColors := v;
    caseStatusTextColors := caseStatusTextColors st;
    currentStatusView := currentStatusView st; initialized := initialized st |}).

Definition setCaseStatusTextColorsState (v : StatusColorsType) : World → World :=
  with_state (λ st, {|
    headerColor := headerColor st; avatarColor := avatarColor st; textColor := textColor st;
    mainColor := mainColor st; buttonColor := buttonColor st;
    caseStatusColors := caseStatusColors st; taskStatusColors := taskStatusColors st;
    caseStatusTextColors := v;
    currentStatusView := currentStatusView st; initialized := initialized st |}).

Definition setCurrentStatusViewState (v : string) : World → World :=
  with_state (λ st, {|
    headerColor := headerColor st; avatarColor := avatarColor st; textColor := textColor st;
    mainColor := mainColor st; buttonColor := buttonColor st;
    caseStatusColors := caseStatusColors st; taskStatusColors := taskStatusColors st;
    caseStatusTextColors := caseStatusTextColors st;
    currentStatusView := v; initialized := initialized st |}).

Definition setInitialized (b : bool) (w : World) : World :=
  emit (SetInitialized b) (with_state (λ st, {|
    headerColor := headerColor st; avatarColor := avatarColor st; textColor := textColor st;
    mainColor := mainColor st; buttonColor := buttonColor st;
    caseStatusColors := caseStatusColors st; taskStatusColors := taskStatusColors st;
    caseStatusTextColors := caseStatusTextColors st;
    currentStatusView := currentStatusView st; initialized := b |}) w).

(** The text colour that contrasts with a header colour. *)
Definition contrast (headerColor : string) : string :=
  if isLightColor headerColor then "text-gray-800" else "text-white".

(** ** Remote writes (source lines 203-224) *)

(** A settled promise of the backend client. *)
Inductive Promise (A : Type) : Type :=
  | Resolved (a : A)
  | Rejected.
Arguments Resolved {A} a.
Arguments Rejected {A}.

Record PostgrestError : Type := { code : string }.

(** What the body of [saveThemeToDatabase] asks of the backend and of
    the page once the event loop runs it. *)
Inductive request : Type :=
  | Update (user_id : string) (theme_settings : ThemeSettings.t)
  | Toast
  | LogError.

(** The body of [saveThemeToDatabase]: [getUser] is the session lookup
    (the id of the user, if any) and [update] the answer of the backend
    to the row update. *)
Definition saveThemeToDatabase_body
    (getUser : Promise (option string))
    (update : string → ThemeSettings.t → Promise (option PostgrestError))
    (newSettings : ThemeSettings.t) : list request :=
  match getUser with
  | Rejected => [LogError]
  | Resolved None => []
  | Resolved (Some user_id) =>
      Update user_id newSettings ::
      match update user_id newSettings with
      | Rejected => [LogError]
      | Resolved (Some _) => [LogError; Toast]
      | Resolved None => []
      end
  end.

(** The call [saveThemeToDatabase(newSettings)]: the promise is not
    awaited, the call only dispatches the write. *)
Definition saveThemeToDatabase (newSettings : ThemeSettings.t) : World → World :=
  emit (SaveThemeToDatabase newSettings).

(** ** The setters (source lines 226-386) *)

Definition setHeaderColor (color : string) (w : World) : World :=
  let st := state w in
  let w := setHeaderColorState color w in
  let w := setItem "praxis-header-color" color w in
  let newTextColor := if isLightColor color then "text-gray-800" else "text-white" in
  let w := setTextColorState newTextColor w in
  if initialized st then
    saveThemeToDatabase {|
      ThemeSettings.headerColor := Some color;
      ThemeSettings.avatarColor := Some (avatarColor st);
      ThemeSettings.textColor := Some newTextColor;
      ThemeSettings.mainColor := Some (mainColor st);
      ThemeSettings.buttonColor := Some (buttonColor st);
      ThemeSettings.caseStatusColors := Some (caseStatusColors st);
      ThemeSettings.taskStatusColors := Some (taskStatusColors st);
      ThemeSettings.caseStatusTextColors := Some (caseStatusTextColors st) |} w
  else w.

Definition setAvatarColor (color : string) (w : World) : World :=
  let st := state w in
  let w := setAvatarColorState color w in
  let w := setItem "praxis-avatar-color" color w in
  if initialized st then
    saveThemeToDatabase {|
      ThemeSettings.headerColor := Some (headerColor st);
      ThemeSettings.avatarColor := Some color;
      ThemeSettings.textColor := Some (textColor st);
      ThemeSettings.mainColor := Some (mainColor st);
      ThemeSettings.buttonColor := Some (buttonColor st);
      ThemeSettings.caseStatusColors := Some (caseStatusColors st);
      ThemeSettings.taskStatusColors := Some (taskStatusColors st);
      ThemeSettings.caseStatusTextColors := Some (caseStatusTextColors st) |} w
  else w.

Definition setTextColor (color : string) (w : World) : World :=
  let st := state w in
  let w := setTextColorState color w in
  let w := setItem "praxis-text-color" color w in
  if initialized st then
    saveThemeToDatabase {|
      ThemeSettings.headerColor := Some (headerColor st);
      ThemeSettings.avatarColor := Some (avatarColor st);
      ThemeSettings.textColor := Some color;
      ThemeSettings.mainColor := Some (mainColor st);
      ThemeSettings.buttonColor := Some (buttonColor st);
      ThemeSettings.caseStatusColors := Some (caseStatusColors st);
      ThemeSettings.taskStatusColors := Some (taskStatusColors st);
      ThemeSettings.caseStatusTextColors := Some (caseStatusTextColors st) |} w
  else w.

Definition setMainColor (color : string) (w : World) : World :=
  let st := state w in
  let w := setMainColorState color w in
  let w := setItem "praxis-main-color" color w in
  if initialized st then
    saveThemeToDatabase {|
      ThemeSettings.headerColor := Some (headerColor st);
      ThemeSettings.avatarColor := Some (avatarColor st);
      ThemeSettings.textColor := Some (textColor st);
      ThemeSettings.mainColor := Some color;
      ThemeSettings.buttonColor := Some (buttonColor st);
      ThemeSettings.caseStatusColors := Some (caseStatusColors st);
      ThemeSettings.taskStatusColors := Some (taskStatusColors st);
      ThemeSettings.caseStatusTextColors := Some (caseStatusTextColors st) |} w
  else w.

Definition setButtonColor (color : string) (w : World) : World :=
  let st := state w in
  let w := setButtonColorState color w in
  let w := setItem "praxis-button-color" color w in
  if initialized st then
    saveThemeToDatabase {|
      ThemeSettings.headerColor := Some (headerColor st);
      ThemeSettings.avatarColor := Some (avatarColor st);
      ThemeSettings.textColor := Some (textColor st);
      ThemeSettings.mainColor := Some (mainColor st);
      ThemeSettings.buttonColor := Some color;
      ThemeSettings.caseStatusColors := Some (caseStatusColors st);
      ThemeSettings.taskStatusColors := Some (taskStatusColors st);
      ThemeSettings.caseStatusTextColors := Some (caseStatusTextColors st) |} w
  else w.

Definition setCaseStatusColor (status color : string) (w : World) : World :=
  let st := state w in
  let newColors := <[status := color]> (caseStatusColors st) in
  let w := setCaseStatusColorsState newColors w in
  let w := setItem "praxis-case-status-colors" (Json.stringify newColors) w in
  if initialized st then
    saveThemeToDatabase {|
      ThemeSettings.headerColor := Some (headerColor st);
      ThemeSettings.avatarColor := Some (avatarColor st);
      ThemeSettings.textColor := Some (textColor st);
      ThemeSettings.mainColor := Some (mainColor st);
      ThemeSettings.buttonColor := Some (buttonColor st);
      ThemeSettings.caseStatusColors := Some newColors;
      ThemeSettings.taskStatusColors := Some (taskStatusColors st);
      ThemeSettings.caseStatusTextColors := Some (caseStatusTextColors st) |} w
  else w.

Definition setTaskStatusColor (status color : string) (w : World) : World :=
  let st := state w in
  let newColors := <[status := color]> (taskStatusColors st) in
  let w := setTaskStatusColorsState newColors w in
  let w := setItem "praxis-task-status-colors" (Json.stringify newColors) w in
  if initialized st then
    saveThemeToDatabase {|
      ThemeSettings.headerColor := Some (headerColor st);
      ThemeSettings.avatarColor := Some (avatarColor st);
      ThemeSettings.textColor := Some (textColor st);
      ThemeSettings.mainColor := Some (mainColor st);
      ThemeSettings.buttonColor := Some (buttonColor st);
      ThemeSettings.caseStatusColors := Some (caseStatusColors st);
      ThemeSettings.taskStatusColors := Some newColors;
      ThemeSettings.caseStatusTextColors := Some (caseStatusTextColors st) |} w
  else w.

Definition setCaseStatusTextColor (status color : string) (w : World) : World :=
  let st := state w in
  let newColors := <[status := color]> (caseStatusTextColors st) in
  let w := setCaseStatusTextColorsState newColors w in
  let w := setItem "praxis-case-status-text-colors" (Json.stringify newColors) w in
  if initialized st then
    saveThemeToDatabase {|
      ThemeSettings.headerColor := Some (headerColor st);
      ThemeSettings.avatarColor := Some (avatarColor st);
      ThemeSettings.textColor := Some (textColor st);
      ThemeSettings.mainColor := Some (mainColor st);
      ThemeSettings.buttonColor := Some (buttonColor st);
      ThemeSettings.caseStatusColors := Some (caseStatusColors st);
      ThemeSettings.taskStatusColors := Some (taskStatusColors st);
      ThemeSettings.caseStatusTextColors := Some newColors |} w
  else w.

Definition setCurrentStatusView (view : StatusView) (w : World) : World :=
  let w := setCurrentStatusViewState (view_name view) w in
  setItem "praxis-status-view" (view_name view) w.

(** ** The initial load (source lines 136-201) *)

(** How a piece of the load ends: it returns, a JavaScript exception
    propagates out of it, or [JSON.parse] handed the state a value that
    is no object of strings, about which this model says nothing. State
    updates and events made before the end are kept in all three cases. *)
Inductive outcome (A : Type) : Type :=
  | Returns (a : A)
  | Throws
  | Untyped.
Arguments Returns {A} a.
Arguments Throws {A}.
Arguments Untyped {A}.

Definition M (A : Type) : Type := World → World * outcome A.

#[local] Instance M_ret : MRet M := λ A a w, (w, Returns a).

#[local] Instance M_bind : MBind M := λ A B f m w,
  match m w with
  | (w', Returns a) => f a w'
  | (w', Throws) => (w', Throws)
  | (w', Untyped) => (w', Untyped)
  end.

Definition lift (f : World → World) : M unit := λ w, (f w, Returns tt).

Definition throw {A : Type} : M A := λ w, (w, Throws).

(** [try { body } catch { handler }] *)
Definition try_catch {A : Type} (body handler : M A) : M A := λ w,
  match body w with
  | (w', Throws) => handler w'
  | r => r
  end.

(** [await p]: a rejected promise throws at the await. *)
Definition await {A : Type} (p : Promise A) : M A :=
  match p with
  | Resolved a => mret a
  | Rejected => throw
  end.

(** [localStorage.getItem(key)]. *)
Definition getItem (key : string) : M (option string) :=
  λ w, (w, Returns (localStorage w !! key)).

(** What [JSON.parse(text)] gives the load. *)
Definition parse_outcome (text : string) : outcome StatusColorsType :=
  match Json.parse text with
  | Json.SyntaxError => Throws
  | Json.Colors m => Returns m
  | Json.OtherValue _ => Untyped
  end.

Definition JSON_parse (text : string) : M StatusColorsType :=
  λ w, (w, parse_outcome text).

(** [stored ? JSON.parse(stored) : fallback]: an absent entry and the
    empty string are falsy. *)
Definition parse_or (stored : option string) (fallback : StatusColorsType)
  : M StatusColorsType :=
  match stored with
  | Some (String a rest) => JSON_parse (String a rest)
  | _ => mret fallback
  end.

Definition loadFromLocalStorage : M unit :=
  lift (emit LoadFromLocalStorage);;
  h ← getItem "praxis-header-color";
  lift (setHeaderColorState (JS.or_default h "#8B9474"));;
  a ← getItem "praxis-avatar-color";
  lift (setAvatarColorState (JS.or_default a "#F5A65B"));;
  h' ← getItem "praxis-header-color";
  let storedHeaderColor := JS.or_default h' "#8B9474" in
  lift (setTextColorState
          (if isLightColor storedHeaderColor then "text-gray-800" else "text-white"));;
  m ← getItem "praxis-main-color";
  lift (setMainColorState (JS.or_default m "#F3F4F6"));;
  b ← getItem "praxis-button-color";
  lift (setButtonColorState (JS.or_default b "#8B9474"));;
  storedCaseColors ← getItem "praxis-case-status-colors";
  cc ← parse_or storedCaseColors DEFAULT_STATUS_COLORS;
  lift (setCaseStatusColorsState cc);;
  storedTaskColors ← getItem "praxis-task-status-colors";
  tc ← parse_or storedTaskColors DEFAULT_STATUS_COLORS;
  lift (setTaskStatusColorsState tc);;
  storedTextColors ← getItem "praxis-case-status-text-colors";
  xc ← parse_or storedTextColors DEFAULT_TEXT_COLORS;
  lift (setCaseStatusTextColorsState xc);;
  v ← getItem "praxis-status-view";
  lift (setCurrentStatusViewState (JS.or_default v "cases")).

(** The answer of [.select('theme_settings').eq('user_id', id).single()]. *)
Record Profile : Type := { theme_settings : option ThemeSettings.t }.
Record SelectResult : Type := { data : option Profile; error : option PostgrestError }.

(** [profile?.theme_settings] *)
Definition optional_theme_settings (profile : option Profile) : option ThemeSettings.t :=
  match profile with
  | Some p => theme_settings p
  | None => None
  end.

(** The branch for a present payload (source lines 161-169). *)
Definition adopt (settings : ThemeSettings.t) : M unit :=
  lift (emit AdoptRemote);;
  lift (setHeaderColorState (JS.or_default (ThemeSettings.headerColor settings) "#8B9474"));;
  lift (setAvatarColorState (JS.or_default (ThemeSettings.avatarColor settings) "#F5A65B"));;
  lift (setTextColorState (JS.or_default (ThemeSettings.textColor settings) "text-white"));;
  lift (setMainColorState (JS.or_default (ThemeSettings.mainColor settings) "#F3F4F6"));;
  lift (setButtonColorState (JS.or_default (ThemeSettings.buttonColor settings) "#8B9474"));;
  lift (setCaseStatusColorsState
          (default DEFAULT_STATUS_COLORS (ThemeSettings.caseStatusColors settings)));;
  lift (setTaskStatusColorsState
          (default DEFAULT_STATUS_COLORS (ThemeSettings.taskStatusColors settings)));;
  lift (setCaseStatusTextColorsState
          (default DEFAULT_TEXT_COLORS (ThemeSettings.caseStatusTextColors settings))).

(** Whether the [try] block left the function by a [return]. *)
Inductive flow : Type := Returned | FellThrough.

(** [error && error.code !== 'PGRST116'] *)
Definition is_load_error (error : option PostgrestError) : bool :=
  match error with
  | Some e => negb (String.eqb (code e) "PGRST116")
  | None => false
  end.

(** [loadThemeSettings]: [getUser] is the session lookup and [select]
    the answer to the profile query of a user. A result [Throws] is the
    rejection of the promise the async function returns. *)
Definition loadThemeSettings
    (getUser : Promise (option string))
    (select : string → Promise SelectResult) : M unit :=
  f ← try_catch
        (user ← await getUser;
         match user with
         | None =>
             loadFromLocalStorage;;
             lift (setInitialized true);;
             mret Returned
         | Some id =>
             r ← await (select id);
             if is_load_error (error r) then
               lift (emit ConsoleError);;
               loadFromLocalStorage;;
               lift (setInitialized true);;
               mret Returned
             else
               match optional_theme_settings (data r) with
               | Some settings => adopt settings;; mret FellThrough
               | None => loadFromLocalStorage;; mret FellThrough
               end
         end)
        (lift (emit ConsoleError);;
         loadFromLocalStorage;;
         mret FellThrough);
  match f with
  | Returned => mret tt
  | FellThrough => lift (setInitialized true)
  end.

(** ** Sequences of operations *)

Inductive setter_call : Type :=
  | SetHeaderColor (color : string)
  | SetAvatarColor (color : string)
  | SetTextColor (color : string)
  | SetMainColor (color : string)
  | SetButtonColor (color : string)
  | SetCaseStatusColor (status color : string)
  | SetTaskStatusColor (status color : string)
  | SetCaseStatusTextColor (status color : string)
  | SetCurrentStatusView (view : StatusView).

Definition call (c : setter_call) : World → World :=
  match c with
  | SetHeaderColor color => setHeaderColor color
  | SetAvatarColor color => setAvatarColor color
  | SetTextColor color => setTextColor color
  | SetMainColor color => setMainColor color
  | SetButtonColor color => setButtonColor color
  | SetCaseStatusColor status color => setCaseStatusColor status color
  | SetTaskStatusColor status color => setTaskStatusColor status color
  | SetCaseStatusTextColor status color => setCaseStatusTextColor status color
  | SetCurrentStatusView view => setCurrentStatusView view
  end.

Definition calls (cs : list setter_call) (w : World) : World :=
  foldl (λ w c, call c w) w cs.

(** ** The contrast rule as the specification words it *)

(** Follows the specification: a colour is six hexadecimal digits. *)
Definition is_hex6 (s : string) : bool :=
  match s with
  | String c1 (String c2 (String c3 (String c4 (String c5 (String c6 EmptyString))))) =>
      forallb (λ c, bool_decide (is_Some (JS.hex_digit c))) [c1; c2; c3; c4; c5; c6]
  | _ => false
  end.

(** Follows the specification: the component two digits denote. *)
Definition spec_byte (hi lo : ascii) : Z :=
  Z.of_N (16 * default 0%N (JS.hex_digit hi) + default 0%N (JS.hex_digit lo)).

(** Follows the specification: red, green and blue of a colour. *)
Definition spec_components (s : string) : Z * Z * Z :=
  match s with
  | String c1 (String c2 (String c3 (String c4 (String c5 (String c6 _))))) =>
      (spec_byte c1 c2, spec_byte c3 c4, spec_byte c5 c6)
  | _ => (0, 0, 0)%Z
  end.

(** Follows the specification: [(0.299 R + 0.587 G + 0.114 B) / 255] over
    the rationals. *)
Definition spec_luminance (rgb : Z * Z * Z) : Q :=
  let '(r, g, b) := rgb in
  ((299 # 1000) * inject_Z r + (587 # 1000) * inject_Z g + (114 # 1000) * inject_Z b)
  / inject_Z 255.

(** ** Exhaustive comparison of the binary64 rule with the exact one *)

Module Exhaustive.

(** The components at which rounding decides: 0xDA, 0x3A, 0xF8. *)
Definition is_rounding_case (r g b : int) : bool :=
  (Uint63.eqb r 218 && Uint63.eqb g 58 && Uint63.eqb b 248)%uint63.

Definition agrees (r g b : int) : bool :=
  is_rounding_case r g b ||
  Bool.eqb
    (PrimFloat.ltb 0.5%float
       (luminance (PrimFloat.of_uint63 r) (PrimFloat.of_uint63 g) (PrimFloat.of_uint63 b)))
    (Uint63.ltb 127500 (299 * r + 587 * g + 114 * b))%uint63.

(** [P i && P (i+1) && ... && P (i+n-1)] *)
Fixpoint all_from (n : nat) (i : int) (P : int → bool) : bool :=
  match n with
  | O => true
  | S n' => P i && all_from n' (i + 1)%uint63 P
  end.

(** [P r g b] for all components from 0 to 255. *)
Definition all_components (P : int → int → int → bool) : bool :=
  all_from 256 (Uint63.of_Z 0) (λ r,
  all_from 256 (Uint63.of_Z 0) (λ g,
  all_from 256 (Uint63.of_Z 0) (λ b, P r g b))).

End Exhaustive.

(** ** Vocabulary of the properties *)

(** [s] has no occurrence of [c]. *)
Definition lacks (c : ascii) (s : string) : Prop :=
  ∀ a, In a (list_ascii_of_string s) → Ascii.eqb a c = false.

(** The code units of a string. *)
Definition units (s : string) : list N := map N_of_ascii (list_ascii_of_string s).

(** The members as [parse_members] returns them. *)
Definition parsed_members (kvs : list (string * string)) : list (list N * Json.value) :=
  map (λ kv, (units (fst kv), Json.Str (units (snd kv)))) kvs.

(** The outcome of [stored ? JSON.parse(stored) : fallback]. *)
Definition stored_colors (stored : option string) (fallback : StatusColorsType)
  : outcome StatusColorsType :=
  match stored with
  | Some (String a rest) => parse_outcome (String a rest)
  | _ => Returns fallback
  end.

(** The state a completed [loadFromLocalStorage] leaves. *)
Definition loaded_state (ls : gmap string string) (cc tc xc : StatusColorsType)
    (init : bool) : ThemeState := {|
  headerColor := JS.or_default (ls !! "praxis-header-color") "#8B9474";
  avatarColor := JS.or_default (ls !! "praxis-avatar-color") "#F5A65B";
  textColor := contrast (JS.or_default (ls !! "praxis-header-color") "#8B9474");
  mainColor := JS.or_default (ls !! "praxis-main-color") "#F3F4F6";
  buttonColor := JS.or_default (ls !! "praxis-button-color") "#8B9474";
  caseStatusColors := cc;
  taskStatusColors := tc;
  caseStatusTextColors := xc;
  currentStatusView := JS.or_default (ls !! "praxis-status-view") "cases";
  initialized := init;
|}.

(** How [loadFromLocalStorage] ends on a cache: the three parses in
    source order, the first that does not return deciding. *)
Definition load_outcome (ls : gmap string string) : outcome unit :=
  match stored_colors (ls !! "praxis-case-status-colors") DEFAULT_STATUS_COLORS with
  | Returns _ =>
      match stored_colors (ls !! "praxis-task-status-colors") DEFAULT_STATUS_COLORS with
      | Returns _ =>
          match stored_colors (ls !! "praxis-case-status-text-colors") DEFAULT_TEXT_COLORS with
          | Returns _ => Returns tt
          | Throws => Throws
          | Untyped => Untyped
          end
      | Throws => Throws
      | Untyped => Untyped
      end
  | Throws => Throws
  | Untyped => Untyped
  end.

(** The load attempts and the calls [setInitialized(true)] among events. *)
Definition is_attempt (e : event) : bool :=
  match e with LoadFromLocalStorage | AdoptRemote => true | _ => false end.

Definition is_initialization (e : event) : bool :=
  match e with SetInitialized true => true | _ => false end.

Definition attempts (es : list event) : nat := length (filter is_attempt es).
Definition initializations (es : list event) : nat := length (filter is_initialization es).

(** How a top-level string field of the payload reaches the state: a
    present, non-empty value is adopted; an absent or empty one selects
    the default. *)
Definition adopts_string (payload : option string) (fallback actual : string) : Prop :=
  (∀ v, payload = Some v → v ≠ "" → actual = v)
  ∧ (payload = None ∨ payload = Some "" → actual = fallback).

(** A status-colour map of the payload is adopted whole. *)
Definition adopts_map (payload : option StatusColorsType)
    (fallback actual : StatusColorsType) : Prop :=
  (∀ m, payload = Some m → actual = m) ∧ (payload = None → actual = fallback).

(** The payloads of the row updates among requests. *)
Definition updates (rs : list request) : list ThemeSettings.t :=
  omap (λ r, match r with Update _ p => Some p | _ => None end) rs.

(** What a setter call leaves in memory and in the cache. *)
Definition written (c : setter_call) (w w' : World) : Prop :=
  match c with
  | SetHeaderColor color =>
      headerColor (state w') = color
      ∧ localStorage w' !! "praxis-header-color" = Some color
  | SetAvatarColor color =>
      avatarColor (state w') = color
      ∧ localStorage w' !! "praxis-avatar-color" = Some color
  | SetTextColor color =>
      textColor (state w') = color
      ∧ localStorage w' !! "praxis-text-color" = Some color
  | SetMainColor color =>
      mainColor (state w') = color
      ∧ localStorage w' !! "praxis-main-color" = Some color
  | SetButtonColor color =>
      buttonColor (state w') = color
      ∧ localStorage w' !! "praxis-button-color" = Some color
  | SetCaseStatusColor status color =>
      caseStatusColors (state w') = <[status := color]> (caseStatusColors (state w))
      ∧ localStorage w' !! "praxis-case-status-colors"
        = Some (Json.stringify (<[status := color]> (caseStatusColors (state w))))
  | SetTaskStatusColor status color =>
      taskStatusColors (state w') = <[status := color]> (taskStatusColors (state w))
      ∧ localStorage w' !! "praxis-task-status-colors"
        = Some (Json.stringify (<[status := color]> (taskStatusColors (state w))))
  | SetCaseStatusTextColor status color =>
      caseStatusTextColors (state w') = <[status := color]> (caseStatusTextColors (state w))
      ∧ localStorage w' !! "praxis-case-status-text-colors"
        = Some (Json.stringify (<[status := color]> (caseStatusTextColors (state w))))
  | SetCurrentStatusView view =>
      currentStatusView (state w') = view_name view
      ∧ localStorage w' !! "praxis-status-view" = Some (view_name view)
  end.

(** The cache holds, for every field the load reads, the value the state
    has (or nothing, and the state has the default). *)
Definition cache_mirrors (w : World) : Prop :=
  let ls := localStorage w in
  let st := state w in
  JS.or_default (ls !! "praxis-header-color") "#8B9474" = headerColor st
  ∧ JS.or_default (ls !! "praxis-avatar-color") "#F5A65B" = avatarColor st
  ∧ JS.or_default (ls !! "praxis-main-color") "#F3F4F6" = mainColor st
  ∧ JS.or_default (ls !! "praxis-button-color") "#8B9474" = buttonColor st
  ∧ stored_colors (ls !! "praxis-case-status-colors") DEFAULT_STATUS_COLORS
    = Returns (caseStatusColors st)
  ∧ stored_colors (ls !! "praxis-task-status-colors") DEFAULT_STATUS_COLORS
    = Returns (taskStatusColors st)
  ∧ stored_colors (ls !! "praxis-case-status-text-colors") DEFAULT_TEXT_COLORS
    = Returns (caseStatusTextColors st)
  ∧ JS.or_default (ls !! "praxis-status-view") "cases" = currentStatusView st.

(** The colour given to one of the four plain colour setters is not the
    empty string. *)
Definition nonempty_color (c : setter_call) : Prop :=
  match c with
  | SetHeaderColor color | SetAvatarColor color
  | SetMainColor color | SetButtonColor color => color ≠ ""
  | _ => True
  end.

(** The payload the load adopts, if it adopts one. *)
Definition remote_payload (getUser : Promise (option string))
    (select : string → Promise SelectResult) : option ThemeSettings.t :=
  match getUser with
  | Resolved (Some id) =>
      match select id with
      | Resolved r =>
          if is_load_error (error r) then None else optional_theme_settings (data r)
      | Rejected => None
      end
  | _ => None
  end.

(** Follows the specification: a map has exactly the four fixed keys. *)
Definition four_keyed (m : StatusColorsType) : Prop := dom m = STATUS_KEYS.

(** A cache entry for a status-colour map is absent or empty, or is the
    JSON text of an object of strings with exactly the four keys. *)
Definition entry_four_keyed (stored : option string) : Prop :=
  ∀ fallback, four_keyed fallback →
    ∃ m, stored_colors stored fallback = Returns m ∧ four_keyed m.

Definition cache_four_keyed (ls : gmap string string) : Prop :=
  entry_four_keyed (ls !! "praxis-case-status-colors")
  ∧ entry_four_keyed (ls !! "praxis-task-status-colors")
  ∧ entry_four_keyed (ls !! "praxis-case-status-text-colors").

Definition payload_four_keyed (settings : ThemeSettings.t) : Prop :=
  (∀ m, ThemeSettings.caseStatusColors settings = Some m → four_keyed m)
  ∧ (∀ m, ThemeSettings.taskStatusColors settings = Some m → four_keyed m)
  ∧ (∀ m, ThemeSettings.caseStatusTextColors settings = Some m → four_keyed m).

(** The operations of the provider: the initial load, with what the
    backend answers, and the setter calls. *)
Inductive operation : Type :=
  | Initialize (getUser : Promise (option string)) (select : string → Promise SelectResult)
  | Setter (c : setter_call).

Definition perform (op : operation) (w : World) : World :=
  match op with
  | Initialize getUser select => fst (loadThemeSettings getUser select w)
  | Setter c => call c w
  end.

Definition run (ops : list operation) (w : World) : World :=
  foldl (λ w op, perform op w) w ops.

(** The operation brings no foreign key: a status setter is called with
    one of the four keys, and a payload the load adopts has four-keyed
    maps. *)
Definition keeps_keys (op : operation) : Prop :=
  match op with
  | Initialize getUser select =>
      ∀ settings, remote_payload getUser select = Some settings → payload_four_keyed settings
  | Setter (SetCaseStatusColor status _)
  | Setter (SetTaskStatusColor status _)
  | Setter (SetCaseStatusTextColor status _) => status ∈ STATUS_KEYS
  | Setter _ => True
  end.

Definition status_maps_four_keyed (w : World) : Prop :=
  four_keyed (caseStatusColors (state w))
  ∧ four_keyed (taskStatusColors (state w))
  ∧ four_keyed (caseStatusTextColors (state w)).

(** ** The base colour classes (source lines 72-80) *)

(** [str.match(/bg-([a-z]+-\d+)/)] *)
Module BgClass.

Definition is_lower (c : ascii) : bool :=
  let n := N_of_ascii c in N.leb 97 n && N.leb n 122.

Definition is_decimal (c : ascii) : bool :=
  let n := N_of_ascii c in N.leb 48 n && N.leb n 57.

(** The longest prefix of [s] whose characters satisfy [p], and what
    follows it: a greedy quantifier over a character class. *)
Fixpoint span (p : ascii → bool) (s : string) : string * string :=
  match s with
  | EmptyString => (EmptyString, EmptyString)
  | String a rest =>
      if p a then let (taken, left) := span p rest in (String a taken, left)
      else (EmptyString, s)
  end.

(** The match of the pattern that starts at the first character of [s],
    if there is one. Both quantifiers are greedy and giving a character
    back never helps: a hyphen must follow the letters, which is no
    letter, and nothing has to follow the digits. *)
Definition match_here (s : string) : option string :=
  match s with
  | String c1 (String c2 (String c3 rest)) =>
      if Ascii.eqb c1 "b" && Ascii.eqb c2 "g" && Ascii.eqb c3 "-" then
        match span is_lower rest with
        | (String l letters, String c4 rest') =>
            if Ascii.eqb c4 "-" then
              match span is_decimal rest' with
              | (String d digits, _) =>
                  Some ("bg-" ++ String l letters ++ "-" ++ String d digits)
              | (EmptyString, _) => None
              end
            else None
        | _ => None
        end
      else None
  | _ => None
  end.

(** [match(...)?.[0]]: the text of the leftmost match, found by trying
    each start position in turn. *)
Fixpoint match0 (s : string) : option string :=
  match match_here s with
  | Some m => Some m
  | None =>
      match s with
      | EmptyString => None
      | String _ rest => match0 rest
      end
  end.

End BgClass.

(** [extractBaseColors]. The constant [STATUS_COLORS] of [@/constants]
    is an input: the class text it holds for each status. *)
Definition extractBaseColors (STATUS_COLORS : string → string) : StatusColorsType :=
  <["completed" :=
      JS.or_default (BgClass.match0 (STATUS_COLORS "completed")) "bg-green-500"]>
  (<["in-progress" :=
       JS.or_default (BgClass.match0 (STATUS_COLORS "in-progress")) "bg-blue-500"]>
  (<["delayed" :=
       JS.or_default (BgClass.match0 (STATUS_COLORS "delayed")) "bg-red-500"]>
  (<["analysis" :=
       JS.or_default (BgClass.match0 (STATUS_COLORS "analysis")) "bg-amber-400"]> ∅))).

(** ** The payment simulation ([simulatePayment] of the component
    PaymentTestButton, its lines 11-64) *)

Module Payment.

(** A row of [pagamentos]; the code reads its [id] only. *)
Record Pagamento : Type := { id : string }.

(** The answer of the [.single()] query for the latest pending payment. *)
Record SingleResult : Type := {
  data : option Pagamento;
  error : option PostgrestError;
}.

(** What a run of [simulatePayment] does, in order: the state setter of
    the button, the requests to the backend, the notifications, the log
    and the reload of the page. *)
Inductive effect : Type :=
  | SetIsLoading (b : bool)
  | SelectPending (user_id : string)
  | ConfirmPayment (payment_id : string)
  | ActivateSubscription (user_id data_aprovacao proximo_pagamento : string)
  | ToastError (message : string)
  | ToastSuccess (message : string)
  | LogFailure
  | Reload.

(** How the [try] block ends. *)
Inductive completion : Type :=
  | Completed
  | ReturnedEarly
  | Threw.

(** The [try] block (lines 17-57). [select], [confirm] and [activate]
    are the settled answers of the backend to the three requests. The
    two timestamps of the activation (the current time, and the current
    time moved one month ahead by [Date.setMonth]) are inputs: the
    calendar arithmetic of [Date] is not modelled and no property depends
    on their values. A rejected promise throws at its [await]. *)
Definition try_block (user_id : string)
    (select : string → Promise SingleResult)
    (confirm : string → Promise (option PostgrestError))
    (activate : string → string → string → Promise (option PostgrestError))
    (data_aprovacao proximo_pagamento : string) : list effect * completion :=
  match select user_id with
  | Rejected => ([SelectPending user_id], Threw)
  | Resolved r =>
      match error r, data r with
      | None, Some payment =>
          match confirm (id payment) with
          | Resolved None =>
              match activate user_id data_aprovacao proximo_pagamento with
              | Resolved None =>
                  ([SelectPending user_id; ConfirmPayment (id payment);
                    ActivateSubscription user_id data_aprovacao proximo_pagamento;
                    ToastSuccess "Pagamento confirmado e assinatura ativada!";
                    Reload], Completed)
              | _ =>
                  ([SelectPending user_id; ConfirmPayment (id payment);
                    ActivateSubscription user_id data_aprovacao proximo_pagamento], Threw)
              end
          | _ => ([SelectPending user_id; ConfirmPayment (id payment)], Threw)
          end
      | _, _ =>
          ([SelectPending user_id; ToastError "Nenhum pagamento pendente encontrado"],
           ReturnedEarly)
      end
  end.

(** [simulatePayment]: [user] is the id of the signed-in user, if any. *)
Definition simulatePayment (user : option string)
    (select : string → Promise SingleResult)
    (confirm : string → Promise (option PostgrestError))
    (activate : string → string → string → Promise (option PostgrestError))
    (data_aprovacao proximo_pagamento : string) : list effect :=
  match user with
  | None => []
  | Some user_id =>
      let (body, how) :=
        try_block user_id select confirm activate data_aprovacao proximo_pagamento in
      [SetIsLoading true]
      ++ body
      ++ match how with
         | Threw => [LogFailure; ToastError "Erro ao confirmar pagamento"]
         | _ => []
         end
      ++ [SetIsLoading false]
  end.

(** The value of [isLoading] once the effects have run. *)
Definition isLoading (before : bool) (effects : list effect) : bool :=
  foldl (λ loading e, match e with SetIsLoading b => b | _ => loading end) before effects.

Definition is_request (e : effect) : bool :=
  match e with
  | SelectPending _ | ConfirmPayment _ | ActivateSubscription _ _ _ => true
  | _ => false
  end.

Definition is_toast (e : effect) : bool :=
  match e with ToastError _ | ToastSuccess _ => true | _ => false end.

Definition is_loading_change (e : effect) : bool :=
  match e with SetIsLoading _ => true | _ => false end.

(** The three requests all succeed: a pending payment is found, its
    confirmation and the activation of the profile are accepted. *)
Definition all_accepted (user_id : string)
    (select : string → Promise SingleResult)
    (confirm : string → Promise (option PostgrestError))
    (activate : string → string → string → Promise (option PostgrestError))
    (data_aprovacao proximo_pagamento : string) : Prop :=
  ∃ payment,
    select user_id = Resolved {| data := Some payment; error := None |}
    ∧ confirm (id payment) = Resolved None
    ∧ activate user_id data_aprovacao proximo_pagamento = Resolved None.

End Payment.

(** ** Vocabulary of the further properties *)

(** Every character of [s] satisfies [p]. *)
Definition all_chars (p : ascii → bool) (s : string) : Prop :=
  ∀ a, In a (list_ascii_of_string s) → p a = true.

(** A class [bg-<letters>-<digits>]. *)
Definition is_bg_class (v : string) : Prop :=
  ∃ letters digits,
    v = "bg-" ++ letters ++ "-" ++ digits
    ∧ letters ≠ "" ∧ all_chars BgClass.is_lower letters
    ∧ digits ≠ "" ∧ all_chars BgClass.is_decimal digits.

Definition component_le (x y : Z * Z * Z) : Prop :=
  let '(r1, g1, b1) := x in
  let '(r2, g2, b2) := y in
  (r1 ≤ r2 ∧ g1 ≤ g2 ∧ b1 ≤ b2)%Z.

(** The fields of the state a remote write carries. *)
Definition settings_of (st : ThemeState) : ThemeSettings.t := {|
  ThemeSettings.headerColor := Some (headerColor st);
  ThemeSettings.avatarColor := Some (avatarColor st);
  ThemeSettings.textColor := Some (textColor st);
  ThemeSettings.mainColor := Some (mainColor st);
  ThemeSettings.buttonColor := Some (buttonColor st);
  ThemeSettings.caseStatusColors := Some (caseStatusColors st);
  ThemeSettings.taskStatusColors := Some (taskStatusColors st);
  ThemeSettings.caseStatusTextColors := Some (caseStatusTextColors st);
|}.

Definition is_view_setter (c : setter_call) : bool :=
  match c with SetCurrentStatusView _ => true | _ => false end.

Definition is_write (e : event) : bool :=
  match e with SaveThemeToDatabase _ => true | _ => false end.

(** None of the five plain colours of the state is the empty string. *)
Definition plain_colors_nonempty (st : ThemeState) : Prop :=
  headerColor st ≠ "" ∧ avatarColor st ≠ "" ∧ textColor st ≠ ""
  ∧ mainColor st ≠ "" ∧ buttonColor st ≠ "".

(** A backend that answers the profile query with [settings]. *)
Definition serves (settings : ThemeSettings.t) : string → Promise SelectResult :=
  λ _, Resolved {| data := Some {| theme_settings := Some settings |}; error := None |}.

(** The cache entry a setter writes and, for a status setter, the key of
    the map it sets. *)
Definition cache_key (c : setter_call) : string :=
  match c with
  | SetHeaderColor _ => "praxis-header-color"
  | SetAvatarColor _ => "praxis-avatar-color"
  | SetTextColor _ => "praxis-text-color"
  | SetMainColor _ => "praxis-main-color"
  | SetButtonColor _ => "praxis-button-color"
  | SetCaseStatusColor _ _ => "praxis-case-status-colors"
  | SetTaskStatusColor _ _ => "praxis-task-status-colors"
  | SetCaseStatusTextColor _ _ => "praxis-case-status-text-colors"
  | SetCurrentStatusView _ => "praxis-status-view"
  end.

Definition status_key (c : setter_call) : option string :=
  match c with
  | SetCaseStatusColor status _ | SetTaskStatusColor status _
  | SetCaseStatusTextColor status _ => Some status
  | _ => None
  end.

(** The setters that assign the text colour. *)
Definition sets_text (c : setter_call) : bool :=
  match c with SetHeaderColor _ | SetTextColor _ => true | _ => false end.

(** Two calls write the same place: the same plain field, or the same
    key of the same status map. *)
Definition same_slot (c1 c2 : setter_call) : Prop :=
  cache_key c1 = cache_key c2 ∧ status_key c1 = status_key c2.




(** The text colour is the one the contrast rule gives for the header. *)
Definition contrast_consistent (w : World) : Prop :=
  textColor (state w) = contrast (headerColor (state w)).

(** Operations after which the text colour contrasts with the header,
    whatever the world before: [setHeaderColor], and a load that adopts
    no remote payload. *)
Definition establishes_contrast (op : operation) : Prop :=
  match op with
  | Setter (SetHeaderColor _) => True
  | Setter _ => False
  | Initialize getUser select => remote_payload getUser select = None
  end.

(** Operations that leave the header and the text colour alone, or set
    both by the contrast rule: all but [setTextColor] and a load that
    adopts a remote payload. *)
Definition keeps_contrast (op : operation) : Prop :=
  match op with
  | Setter (SetTextColor _) => False
  | Setter _ => True
  | Initialize getUser select => remote_payload getUser select = None
  end.

(** Every remote write among the events comes after a call
    [setInitialized(true)]. *)
Definition writes_follow_initialization (es : list event) : Prop :=
  ∀ before newSettings after,
    es = (before ++ SaveThemeToDatabase newSettings :: after)%list →
    In (SetInitialized true) before.

(** [part] occurs in [s] at position [n]. *)
Definition occurs_at (part s : string) (n : nat) : Prop :=
  ∃ pre post, s = pre ++ part ++ post ∧ String.length pre = n.

(** The class [extractBaseColors] falls back to for a status. *)
Definition fallback_class (status : string) : string :=
  if String.eqb status "completed" then "bg-green-500"
  else if String.eqb status "in-progress" then "bg-blue-500"
  else if String.eqb status "delayed" then "bg-red-500"
  else "bg-amber-400".

(** The five plain colours are those a load from the cache [ls] sets:
    the cached value or the default, and for the text colour the
    contrast of the header colour so obtained. *)
Definition plain_colors_loaded (ls : gmap string string) (st : ThemeState) : Prop :=
  headerColor st = JS.or_default (ls !! "praxis-header-color") "#8B9474"
  ∧ avatarColor st = JS.or_default (ls !! "praxis-avatar-color") "#F5A65B"
  ∧ textColor st = contrast (JS.or_default (ls !! "praxis-header-color") "#8B9474")
  ∧ mainColor st = JS.or_default (ls !! "praxis-main-color") "#F3F4F6"
  ∧ buttonColor st = JS.or_default (ls !! "praxis-button-color") "#8B9474".

(** * Properties *)

(** ** Characters and [parseInt] *)

Lemma hex_digit_Some c d :
  JS.hex_digit c = Some d →
  JS.is_ws c = false ∧ Ascii.eqb c "-" = false ∧ Ascii.eqb c "+" = false
  ∧ Ascii.eqb c "x" = false ∧ Ascii.eqb c "X" = false ∧ Ascii.eqb c "#" = false
  ∧ (d < 16)%N.
Proof.
  destruct c as [[] [] [] [] [] [] [] []]; vm_compute; intros H;
    try discriminate H; injection H as <-; repeat split; reflexivity.
Qed.

Lemma parseInt16_two_digits c1 c2 d1 d2 :
  JS.hex_digit c1 = Some d1 → JS.hex_digit c2 = Some d2 →
  JS.parseInt16 (String c1 (String c2 EmptyString)) = JS.Int false (16 * d1 + d2).
Proof.
  intros H1 H2.
  destruct (hex_digit_Some _ _ H1) as (Hws & Hm & Hp & _).
  destruct (hex_digit_Some _ _ H2) as (_ & _ & _ & Hx & HX & _).
  unfold JS.parseInt16. cbn [JS.trim_start]. rewrite Hws.
  cbn [JS.strip_sign]. rewrite Hm, Hp.
  cbn [JS.strip_0x]. rewrite Hx, HX, andb_false_r.
  cbn [JS.digits16]. rewrite H1, H2. cbn [default]. reflexivity.
Qed.

(** ** The binary64 rule against the exact rule *)

Lemma of_Z_succ z : (Uint63.of_Z z + 1)%uint63 = Uint63.of_Z (z + 1).
Proof.
  apply Uint63.to_Z_inj.
  rewrite Uint63.add_spec, !Uint63.of_Z_spec.
  change (Uint63.to_Z 1) with 1%Z.
  apply Z.add_mod_idemp_l. discriminate.
Qed.

Lemma all_from_spec n z P :
  Exhaustive.all_from n (Uint63.of_Z z) P = true →
  ∀ k : Z, (z ≤ k < z + Z.of_nat n)%Z → P (Uint63.of_Z k) = true.
Proof.
  revert z. induction n as [|n IH]; intros z H k Hk; [lia|].
  cbn [Exhaustive.all_from] in H. apply andb_true_iff in H as [H0 H1].
  destruct (decide (k = z)) as [->|Hne]; [exact H0|].
  rewrite of_Z_succ in H1. apply (IH _ H1). lia.
Qed.

Lemma all_components_spec P :
  Exhaustive.all_components P = true →
  ∀ r g b : Z, (0 ≤ r < 256)%Z → (0 ≤ g < 256)%Z → (0 ≤ b < 256)%Z →
  P (Uint63.of_Z r) (Uint63.of_Z g) (Uint63.of_Z b) = true.
Proof.
  intros H r g b Hr Hg Hb. unfold Exhaustive.all_components in H.
  assert (Hg' := all_from_spec 256 0 _ H r ltac:(lia)). cbv beta in Hg'.
  assert (Hb' := all_from_spec 256 0 _ Hg' g ltac:(lia)). cbv beta in Hb'.
  exact (all_from_spec 256 0 _ Hb' b ltac:(lia)).
Qed.

Lemma all_agree_true : Exhaustive.all_components Exhaustive.agrees = true.
Proof. vm_compute. reflexivity. Qed.

Lemma to_Z_of_Z_small z : (0 ≤ z < 2 ^ 62)%Z → Uint63.to_Z (Uint63.of_Z z) = z.
Proof.
  intros H. rewrite Uint63.of_Z_spec. apply Z.mod_small.
  change Uint63.wB with (2 ^ 63)%Z. lia.
Qed.

Lemma luminance_exact (r g b : Z) :
  (0 ≤ r < 256)%Z → (0 ≤ g < 256)%Z → (0 ≤ b < 256)%Z →
  (r, g, b) ≠ (218, 58, 248)%Z →
  PrimFloat.ltb 0.5%float
    (luminance (PrimFloat.of_uint63 (Uint63.of_Z r)) (PrimFloat.of_uint63 (Uint63.of_Z g))
               (PrimFloat.of_uint63 (Uint63.of_Z b)))
  = (127500 <? 299 * r + 587 * g + 114 * b)%Z.
Proof.
  intros Hr Hg Hb Hne.
  pose proof (all_components_spec _ all_agree_true r g b Hr Hg Hb) as H.
  unfold Exhaustive.agrees in H. apply orb_true_iff in H as [H|H].
  - exfalso. apply Hne. unfold Exhaustive.is_rounding_case in H.
    apply andb_true_iff in H as [H Hb']. apply andb_true_iff in H as [Hr' Hg'].
    apply Uint63.eqb_spec in Hr', Hg', Hb'.
    apply (f_equal Uint63.to_Z) in Hr', Hg', Hb'.
    rewrite to_Z_of_Z_small in Hr', Hg', Hb' by lia.
    change (Uint63.to_Z 218) with 218%Z in Hr'.
    change (Uint63.to_Z 58) with 58%Z in Hg'.
    change (Uint63.to_Z 248) with 248%Z in Hb'.
    congruence.
  - apply Bool.eqb_prop in H. rewrite H. clear H.
    apply eq_true_iff_eq. rewrite Uint63.ltb_spec, Z.ltb_lt.
    rewrite !Uint63.add_spec, !Uint63.mul_spec, !to_Z_of_Z_small by lia.
    change (Uint63.to_Z 127500) with 127500%Z.
    change (Uint63.to_Z 299) with 299%Z.
    change (Uint63.to_Z 587) with 587%Z.
    change (Uint63.to_Z 114) with 114%Z.
    change Uint63.wB with (2 ^ 63)%Z.
    rewrite (Z.mod_small (299 * r)), (Z.mod_small (587 * g)), (Z.mod_small (114 * b)) by lia.
    rewrite (Z.mod_small (299 * r + 587 * g)) by lia.
    rewrite (Z.mod_small (299 * r + 587 * g + 114 * b)) by lia.
    reflexivity.
Qed.

Lemma spec_luminance_gt r g b :
  (1 # 2 < spec_luminance (r, g, b))%Q ↔ (127500 < 299 * r + 587 * g + 114 * b)%Z.
Proof.
  unfold spec_luminance, Qlt, Qdiv, Qmult, Qplus, Qinv, inject_Z. cbn. lia.
Qed.

Lemma spec_luminance_eq r g b :
  (spec_luminance (r, g, b) == 1 # 2)%Q ↔ (299 * r + 587 * g + 114 * b = 127500)%Z.
Proof.
  unfold spec_luminance, Qeq, Qdiv, Qmult, Qplus, Qinv, inject_Z. cbn. lia.
Qed.

(** ** NaN in the luminance *)

Lemma mul_nan x y : Prim2SF y = S754_nan → Prim2SF (x * y)%float = S754_nan.
Proof. intros H. rewrite FloatAxioms.mul_spec, H. destruct (Prim2SF x); reflexivity. Qed.

Lemma add_nan_l x y : Prim2SF x = S754_nan → Prim2SF (x + y)%float = S754_nan.
Proof. intros H. rewrite FloatAxioms.add_spec, H. reflexivity. Qed.

Lemma add_nan_r x y : Prim2SF y = S754_nan → Prim2SF (x + y)%float = S754_nan.
Proof. intros H. rewrite FloatAxioms.add_spec, H. destruct (Prim2SF x); reflexivity. Qed.

Lemma div_nan_l x y : Prim2SF x = S754_nan → Prim2SF (x / y)%float = S754_nan.
Proof. intros H. rewrite FloatAxioms.div_spec, H. reflexivity. Qed.

Lemma ltb_nan_r x y : Prim2SF y = S754_nan → PrimFloat.ltb x y = false.
Proof.
  intros H. rewrite FloatAxioms.ltb_spec, H. unfold SFltb, SFcompare.
  destruct (Prim2SF x); reflexivity.
Qed.

Lemma luminance_nan r g b :
  Prim2SF r = S754_nan ∨ Prim2SF g = S754_nan ∨ Prim2SF b = S754_nan →
  PrimFloat.ltb 0.5%float (luminance r g b) = false.
Proof.
  intros H. apply ltb_nan_r. unfold luminance. apply div_nan_l.
  destruct H as [H|[H|H]].
  - apply add_nan_l, add_nan_l, mul_nan, H.
  - apply add_nan_l, add_nan_r, mul_nan, H.
  - apply add_nan_r, mul_nan, H.
Qed.

(** ** [isLightColor] on well-formed colours *)

Lemma is_hex6_inv s :
  is_hex6 s = true →
  ∃ c1 c2 c3 c4 c5 c6 d1 d2 d3 d4 d5 d6,
    s = String c1 (String c2 (String c3 (String c4 (String c5 (String c6 EmptyString)))))
    ∧ JS.hex_digit c1 = Some d1 ∧ JS.hex_digit c2 = Some d2 ∧ JS.hex_digit c3 = Some d3
    ∧ JS.hex_digit c4 = Some d4 ∧ JS.hex_digit c5 = Some d5 ∧ JS.hex_digit c6 = Some d6.
Proof.
  destruct s as [|c1 [|c2 [|c3 [|c4 [|c5 [|c6 [|]]]]]]]; try discriminate.
  cbn [is_hex6 forallb]. rewrite !andb_true_iff, !bool_decide_eq_true.
  intros ([d1 H1] & [d2 H2] & [d3 H3] & [d4 H4] & [d5 H5] & [d6 H6] & _).
  exists c1, c2, c3, c4, c5, c6, d1, d2, d3, d4, d5, d6. repeat split; assumption.
Qed.

Lemma replace_first_absent c s :
  (∀ a, In a (list_ascii_of_string s) → Ascii.eqb a c = false) →
  JS.replace_first c s = s.
Proof.
  induction s as [|a s IH]; intros H; [reflexivity|].
  cbn [JS.replace_first]. rewrite (H a) by (left; reflexivity).
  f_equal. apply IH. intros b Hb. apply H. right. exact Hb.
Qed.

Lemma replace_first_hex6 s p :
  is_hex6 s = true → p = "" ∨ p = "#" → JS.replace_first "#" (p ++ s) = s.
Proof.
  intros Hs [-> | ->]; [|cbn; reflexivity].
  cbn [String.append]. apply replace_first_absent.
  destruct (is_hex6_inv s Hs)
    as (c1 & c2 & c3 & c4 & c5 & c6 & d1 & d2 & d3 & d4 & d5 & d6 & -> & H).
  destruct H as (H1 & H2 & H3 & H4 & H5 & H6).
  cbn [list_ascii_of_string In].
  intros a [<-|[<-|[<-|[<-|[<-|[<-|[]]]]]]];
    eapply hex_digit_Some; eassumption.
Qed.

Lemma spec_byte_range hi lo dh dl :
  JS.hex_digit hi = Some dh → JS.hex_digit lo = Some dl →
  spec_byte hi lo = Z.of_N (16 * dh + dl) ∧ (0 ≤ spec_byte hi lo < 256)%Z.
Proof.
  intros Hh Hl. unfold spec_byte. rewrite Hh, Hl. cbn [default from_option id].
  destruct (hex_digit_Some _ _ Hh) as (_ & _ & _ & _ & _ & _ & Bh).
  destruct (hex_digit_Some _ _ Hl) as (_ & _ & _ & _ & _ & _ & Bl).
  split; [reflexivity|lia].
Qed.

Lemma isLightColor_hex6 s p :
  is_hex6 s = true → p = "" ∨ p = "#" →
  let '(r, g, b) := spec_components s in
  (0 ≤ r < 256)%Z ∧ (0 ≤ g < 256)%Z ∧ (0 ≤ b < 256)%Z ∧
  isLightColor (p ++ s) =
    PrimFloat.ltb 0.5%float
      (luminance (PrimFloat.of_uint63 (Uint63.of_Z r)) (PrimFloat.of_uint63 (Uint63.of_Z g))
                 (PrimFloat.of_uint63 (Uint63.of_Z b))).
Proof.
  intros Hs Hp. unfold isLightColor. rewrite (replace_first_hex6 s p Hs Hp).
  destruct (is_hex6_inv s Hs)
    as (c1 & c2 & c3 & c4 & c5 & c6 & d1 & d2 & d3 & d4 & d5 & d6 & -> & H).
  destruct H as (H1 & H2 & H3 & H4 & H5 & H6).
  cbn [spec_components].
  destruct (spec_byte_range _ _ _ _ H1 H2) as [Er Hr].
  destruct (spec_byte_range _ _ _ _ H3 H4) as [Eg Hg].
  destruct (spec_byte_range _ _ _ _ H5 H6) as [Eb Hb].
  repeat split; try lia.
  change (JS.substring ?s 0 2) with (String.substring 0 2 s).
  change (JS.substring ?s 2 4) with (String.substring 2 2 s).
  change (JS.substring ?s 4 6) with (String.substring 4 2 s).
  cbn [String.substring].
  rewrite (parseInt16_two_digits _ _ _ _ H1 H2), (parseInt16_two_digits _ _ _ _ H3 H4),
    (parseInt16_two_digits _ _ _ _ H5 H6).
  cbn [JS.to_Number]. rewrite Er, Eg, Eb. reflexivity.
Qed.

Lemma substring_prefix s : ∀ i n m,
  (i + n ≤ m)%nat → String.substring i n (String.substring 0 m s) = String.substring i n s.
Proof.
  induction s as [|c s IH]; intros i n m H.
  - destruct m; destruct i, n; reflexivity.
  - destruct m as [|m].
    + assert (i = 0) as -> by lia. assert (n = 0) as -> by lia. reflexivity.
    + cbn [String.substring]. destruct i as [|i].
      * destruct n as [|n]; [reflexivity|].
        cbn [String.substring]. f_equal. apply IH. lia.
      * cbn [String.substring]. apply IH. lia.
Qed.

Lemma append_cons c h t : String c h ++ t = String c (h ++ t).
Proof. reflexivity. Qed.

Lemma append_nil_l t : "" ++ t = t.
Proof. reflexivity. Qed.

Lemma substring_append_exact h t :
  String.substring 0 (String.length h) (h ++ t) = h.
Proof.
  induction h as [|c h IH].
  - rewrite append_nil_l. destruct t; reflexivity.
  - rewrite append_cons. cbn [String.length String.substring]. f_equal. exact IH.
Qed.

Lemma substring_all h : String.substring 0 (String.length h) h = h.
Proof.
  induction h as [|c h IH]; cbn [String.length String.substring]; [reflexivity|].
  f_equal. exact IH.
Qed.

Lemma replace_first_append c h t :
  lacks c h → JS.replace_first c (h ++ t) = h ++ JS.replace_first c t.
Proof.
  induction h as [|a h IH]; intros H; [reflexivity|].
  rewrite !append_cons. cbn [JS.replace_first]. rewrite (H a) by (left; reflexivity).
  f_equal. apply IH. intros b Hb. apply H. right. exact Hb.
Qed.

Lemma isLightColor_depends_on_six s :
  isLightColor s =
  let hex := JS.substring (JS.replace_first "#" s) 0 6 in
  PrimFloat.ltb 0.5%float
    (luminance (JS.to_Number (JS.parseInt16 (JS.substring hex 0 2)))
               (JS.to_Number (JS.parseInt16 (JS.substring hex 2 4)))
               (JS.to_Number (JS.parseInt16 (JS.substring hex 4 6)))).
Proof.
  unfold isLightColor, JS.substring. cbv zeta.
  rewrite !substring_prefix by (cbn; lia). reflexivity.
Qed.

(** C3, amended. For a colour of six hexadecimal digits, with or without
    the leading [#], other than DA3AF8, [isLightColor] holds exactly when
    the exact luminance [(0.299 R + 0.587 G + 0.114 B) / 255] exceeds one
    half; white is light, black is dark, and such a colour of luminance
    exactly one half is not light. Whenever one of the three slices does
    not decode ([parseInt] gives NaN) the result is false. Nothing is
    said of DA3AF8, nor of malformed input whose three slices all decode. *)
Theorem isLightColor_contrast_rule :
  (∀ s p, is_hex6 s = true → p = "" ∨ p = "#" → spec_components s ≠ (218, 58, 248)%Z →
     (isLightColor (p ++ s) = true ↔ (1 # 2 < spec_luminance (spec_components s))%Q))
  ∧ isLightColor "#FFFFFF" = true
  ∧ isLightColor "#000000" = false
  ∧ (∀ s p, is_hex6 s = true → p = "" ∨ p = "#" → spec_components s ≠ (218, 58, 248)%Z →
     (spec_luminance (spec_components s) == 1 # 2)%Q → isLightColor (p ++ s) = false)
  ∧ (∀ s, let hex := JS.replace_first "#" s in
     JS.parseInt16 (JS.substring hex 0 2) = JS.NaN
     ∨ JS.parseInt16 (JS.substring hex 2 4) = JS.NaN
     ∨ JS.parseInt16 (JS.substring hex 4 6) = JS.NaN →
     isLightColor s = false).
Proof.
  assert (Hmain : ∀ s p, is_hex6 s = true → p = "" ∨ p = "#" →
            spec_components s ≠ (218, 58, 248)%Z →
            isLightColor (p ++ s) =
            let '(r, g, b) := spec_components s in
            (127500 <? 299 * r + 587 * g + 114 * b)%Z).
  { intros s p Hs Hp Hne. pose proof (isLightColor_hex6 s p Hs Hp) as H.
    destruct (spec_components s) as [[r g] b]. destruct H as (Hr & Hg & Hb & ->).
    apply luminance_exact; assumption. }
  split; [|split; [reflexivity|split; [reflexivity|split]]].
  - intros s p Hs Hp Hne. rewrite (Hmain s p Hs Hp Hne).
    destruct (spec_components s) as [[r g] b].
    rewrite spec_luminance_gt. apply Z.ltb_lt.
  - intros s p Hs Hp Hne Hhalf. rewrite (Hmain s p Hs Hp Hne).
    destruct (spec_components s) as [[r g] b].
    apply spec_luminance_eq in Hhalf. apply Z.ltb_ge. lia.
  - intros s hex H. unfold isLightColor. fold hex. apply luminance_nan.
    destruct H as [H|[H|H]]; rewrite H; auto.
Qed.

Lemma isLightColor_contrast_rule_witness :
  is_hex6 "8B9474" = true ∧ isLightColor ("#" ++ "8B9474") = true
  ∧ JS.parseInt16 (JS.substring (JS.replace_first "#" "#ZZFFFF") 0 2) = JS.NaN
  ∧ isLightColor "#ZZFFFF" = false.
Proof.
  split; [reflexivity|]. split.
  - apply (proj1 isLightColor_contrast_rule "8B9474" "#").
    + reflexivity.
    + right; reflexivity.
    + vm_compute. discriminate.
    + vm_compute. reflexivity.
  - split; [reflexivity|].
    apply (proj2 (proj2 (proj2 (proj2 isLightColor_contrast_rule))) "#ZZFFFF").
    left. reflexivity.
Defined.

(** C3 as worded fails twice. A string of the wrong length can be light:
    FFFFF decodes to 255, 255, 15. And the colour DA3AF8 has luminance
    exactly one half, yet binary64 rounding makes it light. *)
Lemma isLightColor_claim_counterexample :
  (String.length "FFFFF" ≠ 6 ∧ isLightColor "FFFFF" = true)
  ∧ (is_hex6 "DA3AF8" = true
     ∧ (spec_luminance (spec_components "DA3AF8") == 1 # 2)%Q
     ∧ isLightColor "#DA3AF8" = true).
Proof.
  split; [split; [discriminate|reflexivity]|].
  split; [reflexivity|]. split; [|reflexivity].
  vm_compute. reflexivity.
Qed.

(** C10. [isLightColor] depends only on the first six characters left
    after the first [#] is removed: two inputs that agree there get the
    same answer. So characters after a six-character colour without [#]
    are ignored, whether or not the colour is written with its [#]. *)
Theorem isLightColor_first_six :
  (∀ s1 s2,
     JS.substring (JS.replace_first "#" s1) 0 6 = JS.substring (JS.replace_first "#" s2) 0 6 →
     isLightColor s1 = isLightColor s2)
  ∧ (∀ h t, String.length h = 6 → lacks "#" h → lacks "#" t →
       isLightColor (h ++ t) = isLightColor h
       ∧ isLightColor ("#" ++ h ++ t) = isLightColor h).
Proof.
  assert (H1 : ∀ s1 s2,
     JS.substring (JS.replace_first "#" s1) 0 6 = JS.substring (JS.replace_first "#" s2) 0 6 →
     isLightColor s1 = isLightColor s2).
  { intros s1 s2 H. rewrite (isLightColor_depends_on_six s1), (isLightColor_depends_on_six s2).
    rewrite H. reflexivity. }
  split; [exact H1|].
  intros h t Hlen Hh _.
  assert (Hsix : ∀ x, JS.substring (h ++ x) 0 6 = h).
  { intros x. unfold JS.substring. change (6 - 0) with 6. rewrite <- Hlen.
    apply substring_append_exact. }
  assert (Hh6 : JS.substring (JS.replace_first "#" h) 0 6 = h).
  { rewrite (replace_first_absent _ _ Hh). unfold JS.substring. change (6 - 0) with 6.
    rewrite <- Hlen. apply substring_all. }
  split; apply H1; rewrite Hh6.
  - rewrite (replace_first_append _ _ _ Hh). apply Hsix.
  - rewrite append_cons, append_nil_l. cbn [JS.replace_first Ascii.eqb Bool.eqb]. apply Hsix.
Qed.

Lemma isLightColor_first_six_witness :
  isLightColor ("FFFFFF" ++ "80") = isLightColor "FFFFFF"
  ∧ isLightColor "#00000080" = isLightColor "#000000ff".
Proof.
  split.
  - apply (proj2 isLightColor_first_six "FFFFFF" "80").
    + reflexivity.
    + intros a H. cbn in H. intuition (subst; reflexivity).
    + intros a H. cbn in H. intuition (subst; reflexivity).
  - apply (proj1 isLightColor_first_six). reflexivity.
Defined.

(** A [#] inside the six characters is removed too, so the next character
    enters the blue slice: 8080F is dark and 8080FF is light. *)
Example isLightColor_hash_inside_colour :
  String.length "#8080F" = 6
  ∧ isLightColor "#8080F" = false
  ∧ isLightColor ("#8080F" ++ "F") = true.
Proof. repeat split; reflexivity. Qed.

(** ** [JSON.parse] undoes [JSON.stringify] *)

Lemma append_assoc (a b c : string) : (a ++ b) ++ c = a ++ (b ++ c).
Proof.
  induction a as [|x a IH]; [reflexivity|].
  rewrite !append_cons. f_equal. exact IH.
Qed.

Lemma string_body_escape_char c rest :
  Json.string_body (Json.escape_char c ++ rest) =
  match Json.string_body rest with
  | Some (us, r) => Some (N_of_ascii c :: us, r)
  | None => None
  end.
Proof. destruct c as [[] [] [] [] [] [] [] []]; reflexivity. Qed.

Lemma string_body_escape s rest :
  Json.string_body (Json.escape s ++ String Json.dquote rest) = Some (units s, rest).
Proof.
  induction s as [|c s IH]; [reflexivity|].
  cbn [Json.escape]. rewrite append_assoc, string_body_escape_char, IH. reflexivity.
Qed.

Lemma quote_append s rest :
  Json.quote s ++ rest = String Json.dquote (Json.escape s ++ String Json.dquote rest).
Proof.
  unfold Json.quote. rewrite append_cons, append_assoc. reflexivity.
Qed.

Lemma of_units_units s : Json.of_units (units s) = Some s.
Proof.
  induction s as [|c s IH]; [reflexivity|].
  unfold units in *. cbn [list_ascii_of_string map Json.of_units].
  rewrite IH. pose proof (N_ascii_bounded c) as Hc.
  apply N.ltb_lt in Hc. rewrite Hc, ascii_N_embedding. reflexivity.
Qed.

Lemma parse_value_quote fuel s rest :
  Json.parse_value (S fuel) (Json.quote s ++ rest) = Some (Json.Str (units s), rest).
Proof.
  rewrite quote_append. cbn [Json.parse_value Json.skip_ws].
  change (Json.is_ws Json.dquote) with false. cbv iota.
  change (Ascii.eqb Json.dquote "{") with false.
  change (Ascii.eqb Json.dquote "[") with false.
  change (Ascii.eqb Json.dquote Json.dquote) with true. cbv iota.
  rewrite string_body_escape. reflexivity.
Qed.

Lemma parse_members_members kvs : ∀ fuel rest,
  kvs ≠ [] → (length kvs < fuel)%nat →
  Json.parse_members fuel (Json.members kvs ++ String "}" rest)
  = Some (parsed_members kvs, rest).
Proof.
  induction kvs as [|[k v] kvs IH]; intros fuel rest Hne Hfuel; [congruence|].
  destruct fuel as [|fuel]; [cbn in Hfuel; lia|].
  destruct fuel as [|fuel]; [cbn in Hfuel; lia|].
  assert (Hhead : ∀ tail,
    Json.parse_members (S (S fuel)) (Json.member (k, v) ++ tail) =
    match Json.skip_ws tail with
    | String d s4 =>
        if Ascii.eqb d "," then
          match Json.parse_members (S fuel) s4 with
          | Some (ms, r) => Some ((units k, Json.Str (units v)) :: ms, r)
          | None => None
          end
        else if Ascii.eqb d "}" then Some ([(units k, Json.Str (units v))], s4)
        else None
    | EmptyString => None
    end).
  { intros tail. unfold Json.member. cbn [fst snd].
    rewrite !append_assoc, quote_append.
    cbn [Json.parse_members Json.skip_ws].
    change (Json.is_ws Json.dquote) with false. cbv iota.
    cbn [Json.string_literal].
    change (Ascii.eqb Json.dquote Json.dquote) with true. cbv iota.
    rewrite string_body_escape. rewrite append_cons, append_nil_l.
    cbn [Json.skip_ws]. change (Json.is_ws ":") with false. cbv iota.
    change (Ascii.eqb ":" ":") with true. cbv iota.
    rewrite parse_value_quote. reflexivity. }
  destruct kvs as [|kv' kvs].
  - cbn [Json.members]. rewrite Hhead. reflexivity.
  - change (Json.members ((k, v) :: kv' :: kvs))
      with (Json.member (k, v) ++ "," ++ Json.members (kv' :: kvs)).
    rewrite !append_assoc, Hhead.
    rewrite append_cons, append_nil_l. cbn [Json.skip_ws].
    change (Json.is_ws ",") with false. cbv iota.
    change (Ascii.eqb "," ",") with true. cbv iota.
    rewrite IH; [reflexivity|discriminate|cbn in *; lia].
Qed.

Lemma parse_text_stringify m :
  Json.parse_text (Json.stringify m) = Some (Json.Obj (parsed_members (map_to_list m))).
Proof.
  unfold Json.parse_text, Json.stringify.
  generalize (map_to_list m). clear m. intros l. set (n := String.length _).
  destruct l as [|kv kvs].
  - subst n. reflexivity.
  - rewrite append_cons, append_nil_l.
    replace (2 * n + 2)%nat with (S (S (n + n))) by lia.
    cbn [Json.parse_value Json.skip_ws].
    change (Json.is_ws "{") with false. cbv iota.
    change (Ascii.eqb "{" "{") with true. cbv iota.
    destruct kv as [k v].
    assert (∃ tail, Json.members ((k, v) :: kvs) ++ "}"
                    = String Json.dquote tail) as [tail Htail].
    { destruct kvs; cbn [Json.members]; unfold Json.member; cbn [fst snd];
        rewrite !append_assoc, quote_append; eauto. }
    rewrite Htail. cbn [Json.skip_ws].
    change (Json.is_ws Json.dquote) with false. cbv iota.
    change (Ascii.eqb Json.dquote "}") with false. cbv iota.
    rewrite <- Htail.
    assert (Hlen : (length ((k, v) :: kvs) ≤ n)%nat).
    { subst n. rewrite append_cons, append_nil_l. cbn [String.length].
      generalize ((k, v) :: kvs). clear. intros l.
      assert (∀ s t, String.length (s ++ t) = (String.length s + String.length t)%nat) as Happ.
      { induction s; intros; [reflexivity|]. rewrite append_cons. cbn [String.length].
        rewrite IHs. reflexivity. }
      rewrite Happ. cbn [String.length].
      assert (length l ≤ String.length (Json.members l))%nat; [|lia].
      induction l as [|[a b] l IHl]; [cbn; lia|].
      assert (1 ≤ String.length (Json.member (a, b)))%nat as Hm.
      { unfold Json.member, Json.quote. rewrite append_cons. cbn [String.length]. lia. }
      destruct l as [|kv' l]; [cbn [Json.members length]; lia|].
      change (Json.members ((a, b) :: kv' :: l))
        with (Json.member (a, b) ++ "," ++ Json.members (kv' :: l)).
      rewrite !Happ. cbn [String.length length] in *. lia. }
    rewrite parse_members_members; [|discriminate|lia].
    reflexivity.
Qed.

Lemma string_members_parsed kvs : ∀ acc,
  Json.string_members (parsed_members kvs) acc
  = Some (foldl (λ acc kv, <[fst kv := snd kv]> acc) acc kvs).
Proof.
  induction kvs as [|[k v] kvs IH]; intros acc; [reflexivity|].
  cbn [parsed_members map Json.string_members fst snd foldl].
  rewrite !of_units_units. apply IH.
Qed.

Lemma foldl_insert_distinct (kvs : list (string * string)) : ∀ acc : gmap string string,
  NoDup kvs.*1 →
  foldl (λ acc kv, <[fst kv := snd kv]> acc) acc kvs = list_to_map kvs ∪ acc.
Proof.
  induction kvs as [|[k v] kvs IH]; intros acc Hnd.
  - cbn. by rewrite (left_id_L ∅ (∪)).
  - cbn [fmap list_fmap fst] in Hnd. apply NoDup_cons in Hnd as [Hk Hnd].
    cbn [foldl fst snd list_to_map foldr]. rewrite IH by exact Hnd.
    rewrite <- insert_union_l.
    symmetry. apply insert_union_r. by apply not_elem_of_list_to_map_1.
Qed.

(** [JSON.parse(JSON.stringify(m))] is [m] again, for every object of
    strings. *)
Lemma parse_stringify (m : gmap string string) :
  Json.parse (Json.stringify m) = Json.Colors m.
Proof.
  unfold Json.parse. rewrite parse_text_stringify, string_members_parsed.
  rewrite foldl_insert_distinct by apply NoDup_fst_map_to_list.
  rewrite list_to_map_to_list, (right_id_L ∅ (∪)). reflexivity.
Qed.

Lemma stringify_nonempty m : ∃ a rest, Json.stringify m = String a rest.
Proof. unfold Json.stringify. rewrite append_cons. eauto. Qed.

(** ** The fuel of the JSON parser *)

Lemma skip_ws_length s : (String.length (Json.skip_ws s) ≤ String.length s)%nat.
Proof.
  induction s as [|c s IH]; cbn [Json.skip_ws]; [lia|].
  destruct (Json.is_ws c); cbn [String.length] in *; lia.
Qed.

Lemma skip_digits_length s : (String.length (Json.skip_digits s) ≤ String.length s)%nat.
Proof.
  induction s as [|c s IH]; cbn [Json.skip_digits]; [lia|].
  destruct (Json.is_digit c); cbn [String.length] in *; lia.
Qed.

Lemma digits1_length s rest :
  Json.digits1 s = Some rest → (String.length rest < String.length s)%nat.
Proof.
  destruct s as [|c s]; cbn [Json.digits1]; [discriminate|].
  destruct (Json.is_digit c); [|discriminate]. intros [= <-].
  pose proof (skip_digits_length s). cbn [String.length]. lia.
Qed.

Lemma minus_sign_length s : (String.length (Json.minus_sign s) ≤ String.length s)%nat.
Proof.
  destruct s as [|c s]; cbn [Json.minus_sign]; [lia|].
  destruct (Ascii.eqb c "-"); cbn [String.length]; lia.
Qed.

Lemma int_part_length s rest :
  Json.int_part s = Some rest → (String.length rest < String.length s)%nat.
Proof.
  destruct s as [|c s]; cbn [Json.int_part]; [discriminate|].
  destruct (Ascii.eqb c "0"); [intros [= <-]; cbn [String.length]; lia|].
  destruct (Json.is_digit c); [|discriminate]. intros [= <-].
  pose proof (skip_digits_length s). cbn [String.length]. lia.
Qed.

Lemma fraction_length s rest :
  Json.fraction s = Some rest → (String.length rest ≤ String.length s)%nat.
Proof.
  destruct s as [|c s]; cbn [Json.fraction]; [intros [= <-]; lia|].
  destruct (Ascii.eqb c "."); [|intros [= <-]; lia].
  intros H%digits1_length. cbn [String.length]. lia.
Qed.

Lemma exponent_length s rest :
  Json.exponent s = Some rest → (String.length rest ≤ String.length s)%nat.
Proof.
  destruct s as [|c s]; cbn [Json.exponent]; [intros [= <-]; lia|].
  destruct (_ || _); [|intros [= <-]; lia].
  destruct s as [|d s]; [discriminate|].
  destruct (_ || _); intros H%digits1_length; cbn [String.length] in *; lia.
Qed.

Lemma number_length s rest :
  Json.number s = Some rest → (String.length rest < String.length s)%nat.
Proof.
  unfold Json.number. pose proof (minus_sign_length s).
  destruct (Json.int_part _) as [s2|] eqn:E2; [|discriminate].
  destruct (Json.fraction s2) as [s3|] eqn:E3; [|discriminate].
  intros E4. apply int_part_length in E2. apply fraction_length in E3.
  apply exponent_length in E4. lia.
Qed.

Lemma string_body_length_bounded n : ∀ s us rest,
  (String.length s ≤ n)%nat →
  Json.string_body s = Some (us, rest) → (String.length rest < String.length s)%nat.
Proof.
  induction n as [|n IH]; intros s us rest Hn.
  { destruct s; [discriminate|cbn [String.length] in Hn; lia]. }
  destruct s as [|c r]; cbn [Json.string_body]; [discriminate|].
  cbn [String.length] in Hn.
  destruct (Ascii.eqb c Json.dquote); [intros [= <- <-]; cbn [String.length]; lia|].
  destruct (Ascii.eqb c Json.backslash).
  - destruct r as [|e r1]; [discriminate|].
    destruct (Ascii.eqb e "u").
    + destruct r1 as [|h1 [|h2 [|h3 [|h4 r2]]]]; try discriminate.
      destruct (Json.hex4 h1 h2 h3 h4); [|discriminate].
      destruct (Json.string_body r2) as [[us' rest']|] eqn:E; [|discriminate].
      intros [= <- <-]. apply IH in E; cbn [String.length] in *; lia.
    + destruct (Json.simple_escape e); [|discriminate].
      destruct (Json.string_body r1) as [[us' rest']|] eqn:E; [|discriminate].
      intros [= <- <-]. apply IH in E; cbn [String.length] in *; lia.
  - destruct (N.ltb _ 32); [discriminate|].
    destruct (Json.string_body r) as [[us' rest']|] eqn:E; [|discriminate].
    intros [= <- <-]. apply IH in E; cbn [String.length] in *; lia.
Qed.

Lemma string_body_length s us rest :
  Json.string_body s = Some (us, rest) → (String.length rest < String.length s)%nat.
Proof. apply (string_body_length_bounded (String.length s)). lia. Qed.

Lemma string_literal_length s us rest :
  Json.string_literal s = Some (us, rest) → (String.length rest < String.length s)%nat.
Proof.
  destruct s as [|c r]; cbn [Json.string_literal]; [discriminate|].
  destruct (Ascii.eqb c Json.dquote); [|discriminate].
  intros H%string_body_length. cbn [String.length]. lia.
Qed.

Lemma expect_length lit : ∀ s rest,
  Json.expect lit s = Some rest → (String.length rest ≤ String.length s)%nat.
Proof.
  induction lit as [|a lit IH]; intros s rest; cbn [Json.expect].
  - intros [= <-]. lia.
  - destruct s as [|c s]; [discriminate|].
    destruct (Ascii.eqb a c); [|discriminate].
    intros H%IH. cbn [String.length]. lia.
Qed.

(** Fuel is not what decides: a parse that succeeds with some fuel
    consumed part of the text, and succeeds alike with any fuel of at
    least twice the length consumed. *)
Lemma parse_fuel fuel :
  (∀ s v rest, Json.parse_value fuel s = Some (v, rest) →
     (String.length rest < String.length s)%nat
     ∧ ∀ fuel', (2 * (String.length s - String.length rest) ≤ fuel')%nat →
         Json.parse_value fuel' s = Some (v, rest))
  ∧ (∀ s ms rest, Json.parse_members fuel s = Some (ms, rest) →
     (String.length rest < String.length s)%nat
     ∧ ∀ fuel', (2 * (String.length s - String.length rest) ≤ fuel')%nat →
         Json.parse_members fuel' s = Some (ms, rest))
  ∧ (∀ s vs rest, Json.parse_elements fuel s = Some (vs, rest) →
     (String.length rest < String.length s)%nat
     ∧ ∀ fuel', (2 * (String.length s - String.length rest) ≤ fuel')%nat →
         Json.parse_elements fuel' s = Some (vs, rest)).
Proof.
  induction fuel as [|fuel (IHv & IHm & IHe)]; [repeat split; discriminate|].
  split; [|split].
  - intros s v rest. cbn [Json.parse_value].
    pose proof (skip_ws_length s) as Hws.
    destruct (Json.skip_ws s) as [|c r] eqn:Es; [discriminate|].
    cbn [String.length] in Hws.
    assert (Hatom : ∀ fuel', Json.parse_value (S fuel') s =
              match Json.skip_ws s with
              | EmptyString => None
              | String c r => _
              end) by reflexivity.
    rewrite Es in Hatom. cbv beta iota in Hatom.
    destruct (Ascii.eqb c "{") eqn:Ec1.
    { pose proof (skip_ws_length r) as Hwr.
      destruct (Json.skip_ws r) as [|d r'] eqn:Er; [discriminate|].
      cbn [String.length] in Hwr.
      destruct (Ascii.eqb d "}") eqn:Ed.
      - intros [= <- <-]. split; [lia|]. intros [|fuel'] Hf; [lia|].
        rewrite Hatom. try rewrite Hsuff by lia. reflexivity.
      - destruct (Json.parse_members fuel r) as [[ms rest']|] eqn:Em; [|discriminate].
        intros [= <- <-]. destruct (IHm _ _ _ Em) as [Hlt Hsuff].
        split; [lia|]. intros [|fuel'] Hf; [lia|].
        rewrite Hatom. try rewrite Hsuff by lia. reflexivity. }
    destruct (Ascii.eqb c "[") eqn:Ec2.
    { pose proof (skip_ws_length r) as Hwr.
      destruct (Json.skip_ws r) as [|d r'] eqn:Er; [discriminate|].
      cbn [String.length] in Hwr.
      destruct (Ascii.eqb d "]") eqn:Ed.
      - intros [= <- <-]. split; [lia|]. intros [|fuel'] Hf; [lia|].
        rewrite Hatom. try rewrite Hsuff by lia. reflexivity.
      - destruct (Json.parse_elements fuel r) as [[vs rest']|] eqn:Ee; [|discriminate].
        intros [= <- <-]. destruct (IHe _ _ _ Ee) as [Hlt Hsuff].
        split; [lia|]. intros [|fuel'] Hf; [lia|].
        rewrite Hatom. try rewrite Hsuff by lia. reflexivity. }
    destruct (Ascii.eqb c Json.dquote) eqn:Ec3.
    { destruct (Json.string_body r) as [[us rest']|] eqn:Eb; [|discriminate].
      intros [= <- <-]. apply string_body_length in Eb as Hlt.
      split; [lia|]. intros [|fuel'] Hf; [lia|].
      rewrite Hatom. try rewrite Hsuff by lia. reflexivity. }
    destruct (Ascii.eqb c "t") eqn:Ec4.
    { destruct (Json.expect "rue" r) as [rest'|] eqn:Ex; [|discriminate].
      intros [= <- <-]. apply expect_length in Ex as Hlt.
      split; [lia|]. intros [|fuel'] Hf; [lia|].
      rewrite Hatom. try rewrite Hsuff by lia. reflexivity. }
    destruct (Ascii.eqb c "f") eqn:Ec5.
    { destruct (Json.expect "alse" r) as [rest'|] eqn:Ex; [|discriminate].
      intros [= <- <-]. apply expect_length in Ex as Hlt.
      split; [lia|]. intros [|fuel'] Hf; [lia|].
      rewrite Hatom. try rewrite Hsuff by lia. reflexivity. }
    destruct (Ascii.eqb c "n") eqn:Ec6.
    { destruct (Json.expect "ull" r) as [rest'|] eqn:Ex; [|discriminate].
      intros [= <- <-]. apply expect_length in Ex as Hlt.
      split; [lia|]. intros [|fuel'] Hf; [lia|].
      rewrite Hatom. try rewrite Hsuff by lia. reflexivity. }
    destruct (Json.number (String c r)) as [rest'|] eqn:En; [|discriminate].
    intros [= <- <-]. apply number_length in En as Hlt. cbn [String.length] in Hlt.
    split; [lia|]. intros [|fuel'] Hf; [lia|].
    rewrite Hatom. try rewrite Hsuff by lia. reflexivity.
  - intros s ms rest. cbn [Json.parse_members].
    pose proof (skip_ws_length s) as Hws.
    destruct (Json.string_literal (Json.skip_ws s)) as [[k s1]|] eqn:Ek; [|discriminate].
    apply string_literal_length in Ek as Hk.
    pose proof (skip_ws_length s1) as Hw1.
    destruct (Json.skip_ws s1) as [|c s2] eqn:E1; [discriminate|].
    cbn [String.length] in Hw1.
    destruct (Ascii.eqb c ":") eqn:Ec; [|discriminate].
    destruct (Json.parse_value fuel s2) as [[v s3]|] eqn:Ev; [|discriminate].
    destruct (IHv _ _ _ Ev) as [Hv Hvs].
    pose proof (skip_ws_length s3) as Hw3.
    destruct (Json.skip_ws s3) as [|d s4] eqn:E3; [discriminate|].
    cbn [String.length] in Hw3.
    destruct (Ascii.eqb d ",") eqn:Ed1.
    + destruct (Json.parse_members fuel s4) as [[ms' rest']|] eqn:Em; [|discriminate].
      intros [= <- <-]. destruct (IHm _ _ _ Em) as [Hm Hms].
      split; [lia|]. intros [|fuel'] Hf; [lia|].
      cbn [Json.parse_members]. rewrite Ek, E1, Ec, Hvs by lia.
      rewrite E3, Ed1, Hms by lia. reflexivity.
    + destruct (Ascii.eqb d "}") eqn:Ed2; [|discriminate].
      intros [= <- <-]. split; [lia|]. intros [|fuel'] Hf; [lia|].
      cbn [Json.parse_members]. rewrite Ek, E1, Ec, Hvs by lia.
      rewrite E3, Ed1, Ed2. reflexivity.
  - intros s vs rest. cbn [Json.parse_elements].
    destruct (Json.parse_value fuel s) as [[v s1]|] eqn:Ev; [|discriminate].
    destruct (IHv _ _ _ Ev) as [Hv Hvs].
    pose proof (skip_ws_length s1) as Hw1.
    destruct (Json.skip_ws s1) as [|d s2] eqn:E1; [discriminate|].
    cbn [String.length] in Hw1.
    destruct (Ascii.eqb d ",") eqn:Ed1.
    + destruct (Json.parse_elements fuel s2) as [[vs' rest']|] eqn:Ee; [|discriminate].
      intros [= <- <-]. destruct (IHe _ _ _ Ee) as [He Hes].
      split; [lia|]. intros [|fuel'] Hf; [lia|].
      cbn [Json.parse_elements]. rewrite Hvs by lia.
      rewrite E1, Ed1, Hes by lia. reflexivity.
    + destruct (Ascii.eqb d "]") eqn:Ed2; [|discriminate].
      intros [= <- <-]. split; [lia|]. intros [|fuel'] Hf; [lia|].
      cbn [Json.parse_elements]. rewrite Hvs by lia.
      rewrite E1, Ed1, Ed2. reflexivity.
Qed.

(** [parse_text] gives the text fuel enough: whatever any fuel can parse,
    its fuel parses, so [None] is a syntax error of the text. *)
Lemma parse_text_fuel_enough text fuel v rest :
  Json.parse_value fuel text = Some (v, rest) →
  Json.parse_value (2 * String.length text + 2) text = Some (v, rest).
Proof.
  intros H. destruct (proj1 (parse_fuel fuel) _ _ _ H) as [_ Hs]. apply Hs. lia.
Qed.

Lemma parse_text_syntax_error text :
  Json.parse_text text = None →
  ∀ fuel, match Json.parse_value fuel text with
          | Some (v, rest) => Json.skip_ws rest ≠ EmptyString
          | None => True
          end.
Proof.
  unfold Json.parse_text. intros H fuel.
  destruct (Json.parse_value fuel text) as [[v rest]|] eqn:E; [|exact I].
  rewrite (parse_text_fuel_enough _ _ _ _ E) in H.
  destruct (Json.skip_ws rest); [discriminate|discriminate].
Qed.

Local Close Scope string_scope.

(** ** The initial load *)

Lemma parse_or_stored stored fallback w :
  parse_or stored fallback w = (w, stored_colors stored fallback).
Proof. destruct stored as [[|a rest]|]; reflexivity. Qed.

Lemma stored_colors_stringify m fallback :
  stored_colors (Some (Json.stringify m)) fallback = Returns m.
Proof.
  destruct (stringify_nonempty m) as (a & rest & E). unfold stored_colors.
  rewrite E, <- E. unfold parse_outcome. rewrite parse_stringify. reflexivity.
Qed.

Lemma loadFromLocalStorage_returns w cc tc xc :
  stored_colors (localStorage w !! "praxis-case-status-colors") DEFAULT_STATUS_COLORS
    = Returns cc →
  stored_colors (localStorage w !! "praxis-task-status-colors") DEFAULT_STATUS_COLORS
    = Returns tc →
  stored_colors (localStorage w !! "praxis-case-status-text-colors") DEFAULT_TEXT_COLORS
    = Returns xc →
  loadFromLocalStorage w =
    ({| state := loaded_state (localStorage w) cc tc xc (initialized (state w));
        localStorage := localStorage w;
        events := events w ++ [LoadFromLocalStorage] |}, Returns tt).
Proof.
  destruct w as [[h a t m b cc0 tc0 xc0 v i] ls ev]. cbn [localStorage state initialized events].
  intros Hc Ht Hx. unfold loadFromLocalStorage, mbind, M_bind, lift, getItem.
  cbn -[isLightColor lookup parse_or]. rewrite parse_or_stored, Hc.
  cbn -[isLightColor lookup parse_or]. rewrite parse_or_stored, Ht.
  cbn -[isLightColor lookup parse_or]. rewrite parse_or_stored, Hx.
  reflexivity.
Qed.

Lemma loadFromLocalStorage_outcome w :
  ∃ w', loadFromLocalStorage w = (w', load_outcome (localStorage w))
        ∧ localStorage w' = localStorage w
        ∧ events w' = events w ++ [LoadFromLocalStorage]
        ∧ initialized (state w') = initialized (state w).
Proof.
  destruct w as [[h a t m b cc0 tc0 xc0 v i] ls ev]. cbn [localStorage state initialized events].
  unfold loadFromLocalStorage, load_outcome, mbind, M_bind, lift, getItem.
  cbn -[isLightColor lookup parse_or stored_colors]. rewrite parse_or_stored.
  destruct (stored_colors (ls !! "praxis-case-status-colors") _) as [cc| |];
    [|eexists; repeat split; reflexivity..].
  cbn -[isLightColor lookup parse_or stored_colors]. rewrite parse_or_stored.
  destruct (stored_colors (ls !! "praxis-task-status-colors") _) as [tc| |];
    [|eexists; repeat split; reflexivity..].
  cbn -[isLightColor lookup parse_or stored_colors]. rewrite parse_or_stored.
  destruct (stored_colors (ls !! "praxis-case-status-text-colors") _) as [xc| |];
    eexists; repeat split; reflexivity.
Qed.

Lemma load_outcome_returns ls :
  load_outcome ls = Returns tt →
  ∃ cc tc xc,
    stored_colors (ls !! "praxis-case-status-colors") DEFAULT_STATUS_COLORS = Returns cc
    ∧ stored_colors (ls !! "praxis-task-status-colors") DEFAULT_STATUS_COLORS = Returns tc
    ∧ stored_colors (ls !! "praxis-case-status-text-colors") DEFAULT_TEXT_COLORS = Returns xc.
Proof.
  unfold load_outcome.
  destruct (stored_colors (ls !! "praxis-case-status-colors") _) as [cc| |]; try discriminate.
  destruct (stored_colors (ls !! "praxis-task-status-colors") _) as [tc| |]; try discriminate.
  destruct (stored_colors (ls !! "praxis-case-status-text-colors") _) as [xc| |];
    try discriminate.
  intros _. by exists cc, tc, xc.
Qed.

Lemma adopt_returns settings w :
  ∃ w', adopt settings w = (w', Returns tt)
        ∧ localStorage w' = localStorage w
        ∧ events w' = events w ++ [AdoptRemote]
        ∧ initialized (state w') = initialized (state w).
Proof.
  destruct w as [[h a t m b cc0 tc0 xc0 v i] ls ev].
  unfold adopt, mbind, M_bind, lift. cbn. eexists. repeat split; reflexivity.
Qed.

Lemma setInitialized_true w :
  initialized (state (setInitialized true w)) = true
  ∧ events (setInitialized true w) = events w ++ [SetInitialized true]
  ∧ localStorage (setInitialized true w) = localStorage w.
Proof. destruct w as [[] ? ?]. repeat split; reflexivity. Qed.

(** Whenever the cached status colours parse, or the remote payload is
    adopted, the load returns having attempted once and having called
    [setInitialized(true)] once, as its last act. *)
Lemma loadThemeSettings_initializes_once getUser select w :
  load_outcome (localStorage w) = Returns tt →
  ∃ w' new,
    loadThemeSettings getUser select w = (w', Returns tt)
    ∧ initialized (state w') = true
    ∧ events w' = events w ++ new
    ∧ attempts new = 1 ∧ initializations new = 1
    ∧ last new = Some (SetInitialized true).
Proof.
  intros Hok.
  assert (Hlocal : ∀ w0, localStorage w0 = localStorage w →
            ∃ w1, loadFromLocalStorage w0 = (w1, Returns tt)
                  ∧ events w1 = events w0 ++ [LoadFromLocalStorage]).
  { intros w0 E. destruct (loadFromLocalStorage_outcome w0) as (w1 & H & _ & He & _).
    rewrite E, Hok in H. eauto. }
  unfold loadThemeSettings, try_catch, mbind, M_bind, await, throw, mret, M_ret, lift.
  destruct getUser as [[id|]|];
    [destruct (select id) as [r|];
       [destruct (is_load_error (error r));
          [|destruct (optional_theme_settings (data r)) as [settings|]]|]| |].
  - destruct (Hlocal (emit ConsoleError w) eq_refl) as (w1 & -> & He).
    destruct (setInitialized_true w1) as (Hi & Hev & _).
    eexists _, [ConsoleError; LoadFromLocalStorage; SetInitialized true].
    split; [reflexivity|]. rewrite Hi, Hev, He. cbn [events emit].
    rewrite <- !app_assoc. repeat split; reflexivity.
  - destruct (adopt_returns settings w) as (w1 & -> & _ & He & _).
    destruct (setInitialized_true w1) as (Hi & Hev & _).
    eexists _, [AdoptRemote; SetInitialized true].
    split; [reflexivity|]. rewrite Hi, Hev, He.
    rewrite <- !app_assoc. repeat split; reflexivity.
  - destruct (Hlocal w eq_refl) as (w1 & -> & He).
    destruct (setInitialized_true w1) as (Hi & Hev & _).
    eexists _, [LoadFromLocalStorage; SetInitialized true].
    split; [reflexivity|]. rewrite Hi, Hev, He.
    rewrite <- !app_assoc. repeat split; reflexivity.
  - destruct (Hlocal (emit ConsoleError w) eq_refl) as (w1 & -> & He).
    destruct (setInitialized_true w1) as (Hi & Hev & _).
    eexists _, [ConsoleError; LoadFromLocalStorage; SetInitialized true].
    split; [reflexivity|]. rewrite Hi, Hev, He. cbn [events emit].
    rewrite <- !app_assoc. repeat split; reflexivity.
  - destruct (Hlocal w eq_refl) as (w1 & -> & He).
    destruct (setInitialized_true w1) as (Hi & Hev & _).
    eexists _, [LoadFromLocalStorage; SetInitialized true].
    split; [reflexivity|]. rewrite Hi, Hev, He.
    rewrite <- !app_assoc. repeat split; reflexivity.
  - destruct (Hlocal (emit ConsoleError w) eq_refl) as (w1 & -> & He).
    destruct (setInitialized_true w1) as (Hi & Hev & _).
    eexists _, [ConsoleError; LoadFromLocalStorage; SetInitialized true].
    split; [reflexivity|]. rewrite Hi, Hev, He. cbn [events emit].
    rewrite <- !app_assoc. repeat split; reflexivity.
Qed.

Lemma parse_value_open_brace fuel : Json.parse_value fuel "{" = None.
Proof. destruct fuel; reflexivity. Qed.

(** C1. With no session, when a cached status-colour entry is not JSON
    (its parse throws), [loadThemeSettings] runs [loadFromLocalStorage]
    twice, the second time inside the [catch] block, where the same
    SyntaxError escapes: the promise is rejected and [setInitialized] is
    never called. The guarantee of C1 fails on this input. *)
Theorem loadThemeSettings_parse_failure select w :
  load_outcome (localStorage w) = Throws →
  let result := loadThemeSettings (Resolved None) select w in
  snd result = Throws
  ∧ initialized (state (fst result)) = initialized (state w)
  ∧ events (fst result)
    = events w ++ [LoadFromLocalStorage; ConsoleError; LoadFromLocalStorage].
Proof.
  intros Hbad.
  unfold loadThemeSettings, try_catch, mbind, M_bind, await, throw, mret, M_ret, lift.
  destruct (loadFromLocalStorage_outcome w) as (w1 & -> & Hls1 & Hev1 & Hi1).
  rewrite Hbad.
  destruct (loadFromLocalStorage_outcome (emit ConsoleError w1)) as (w2 & -> & Hls2 & Hev2 & Hi2).
  cbn [localStorage emit] in *. rewrite Hls1, Hbad. cbn [fst snd].
  rewrite Hi2. cbn [state emit]. rewrite Hi1, Hev2. cbn [events emit]. rewrite Hev1.
  rewrite <- !app_assoc. repeat split; reflexivity.
Qed.

(** The same on every path that falls back to the cache, whatever the
    session lookup and the profile query answer: unless a remote payload
    is adopted, a cached status-colour entry that is not JSON rejects the
    load and leaves [initialized] as it was. *)
Lemma loadThemeSettings_never_initializes getUser select w :
  remote_payload getUser select = None →
  load_outcome (localStorage w) = Throws →
  ∃ w' new,
    loadThemeSettings getUser select w = (w', Throws)
    ∧ initialized (state w') = initialized (state w)
    ∧ events w' = events w ++ new
    ∧ initializations new = 0
    ∧ (attempts new = 1 ∨ attempts new = 2).
Proof.
  intros Hremote Hbad.
  assert (Hlocal : ∀ w0, localStorage w0 = localStorage w →
            ∃ w1, loadFromLocalStorage w0 = (w1, Throws)
                  ∧ localStorage w1 = localStorage w
                  ∧ events w1 = events w0 ++ [LoadFromLocalStorage]
                  ∧ initialized (state w1) = initialized (state w0)).
  { intros w0 E. destruct (loadFromLocalStorage_outcome w0) as (w1 & H & Hls & He & Hi).
    rewrite E, Hbad in H. rewrite E in Hls. eauto. }
  unfold remote_payload in Hremote.
  unfold loadThemeSettings, try_catch, mbind, M_bind, await, throw, mret, M_ret, lift.
  destruct getUser as [[id|]|];
    [destruct (select id) as [r|];
       [destruct (is_load_error (error r));
          [|destruct (optional_theme_settings (data r)) as [settings|];
            [discriminate Hremote|]]|]| |].
  - destruct (Hlocal (emit ConsoleError w) eq_refl) as (w1 & -> & Hls1 & He1 & Hi1).
    destruct (Hlocal (emit ConsoleError w1) Hls1) as (w2 & -> & _ & He2 & Hi2).
    eexists _, [ConsoleError; LoadFromLocalStorage; ConsoleError; LoadFromLocalStorage].
    split; [reflexivity|]. rewrite Hi2, He2. cbn [state events emit]. rewrite Hi1, He1.
    cbn [state events emit]. rewrite <- !app_assoc. repeat split; auto.
  - destruct (Hlocal w eq_refl) as (w1 & -> & Hls1 & He1 & Hi1).
    destruct (Hlocal (emit ConsoleError w1) Hls1) as (w2 & -> & _ & He2 & Hi2).
    eexists _, [LoadFromLocalStorage; ConsoleError; LoadFromLocalStorage].
    split; [reflexivity|]. rewrite Hi2, He2. cbn [state events emit]. rewrite Hi1, He1.
    rewrite <- !app_assoc. repeat split; auto.
  - destruct (Hlocal (emit ConsoleError w) eq_refl) as (w1 & -> & Hls1 & He1 & Hi1).
    eexists _, [ConsoleError; LoadFromLocalStorage].
    split; [reflexivity|]. rewrite Hi1, He1. cbn [state events emit].
    rewrite <- !app_assoc. repeat split; auto.
  - destruct (Hlocal w eq_refl) as (w1 & -> & Hls1 & He1 & Hi1).
    destruct (Hlocal (emit ConsoleError w1) Hls1) as (w2 & -> & _ & He2 & Hi2).
    eexists _, [LoadFromLocalStorage; ConsoleError; LoadFromLocalStorage].
    split; [reflexivity|]. rewrite Hi2, He2. cbn [state events emit]. rewrite Hi1, He1.
    rewrite <- !app_assoc. repeat split; auto.
  - destruct (Hlocal (emit ConsoleError w) eq_refl) as (w1 & -> & Hls1 & He1 & Hi1).
    eexists _, [ConsoleError; LoadFromLocalStorage].
    split; [reflexivity|]. rewrite Hi1, He1. cbn [state events emit].
    rewrite <- !app_assoc. repeat split; auto.
Qed.

Lemma loadThemeSettings_parse_failure_witness :
  let cache : gmap string string := {["praxis-case-status-colors" := "{"]} in
  let result := loadThemeSettings (Resolved None) (λ _, Rejected) (initial_world cache) in
  (∀ fuel, Json.parse_value fuel "{" = None)
  ∧ snd result = Throws
  ∧ initialized (state (fst result)) = false
  ∧ events (fst result) = [LoadFromLocalStorage; ConsoleError; LoadFromLocalStorage].
Proof.
  split; [exact parse_value_open_brace|].
  apply (loadThemeSettings_parse_failure (λ _, Rejected)
           (initial_world {["praxis-case-status-colors" := "{"]})).
  reflexivity.
Defined.

(** ** The remote payload *)

Lemma or_default_adopts x d : adopts_string x d (JS.or_default x d).
Proof.
  split.
  - intros v -> Hv. destruct v; [congruence|reflexivity].
  - intros [-> | ->]; reflexivity.
Qed.

Lemma default_adopts (x : option StatusColorsType) d : adopts_map x d (default d x).
Proof. split; [intros m ->|intros ->]; reflexivity. Qed.

(** C7, amended. When the session has a user and the profile row holds a
    payload, the load returns and every top-level field is defined: a
    string field present and not empty is adopted, an absent or empty one
    gets its hardcoded default; a status-colour map that is present is
    adopted whole and an absent one gets its default; the view is left as
    it was, the cache is not read, and [initialized] is set. *)
Theorem loadThemeSettings_adopts_payload id select r settings w :
  select id = Resolved r →
  is_load_error (error r) = false →
  optional_theme_settings (data r) = Some settings →
  ∃ w', loadThemeSettings (Resolved (Some id)) select w = (w', Returns tt)
    ∧ adopts_string (ThemeSettings.headerColor settings) "#8B9474" (headerColor (state w'))
    ∧ adopts_string (ThemeSettings.avatarColor settings) "#F5A65B" (avatarColor (state w'))
    ∧ adopts_string (ThemeSettings.textColor settings) "text-white" (textColor (state w'))
    ∧ adopts_string (ThemeSettings.mainColor settings) "#F3F4F6" (mainColor (state w'))
    ∧ adopts_string (ThemeSettings.buttonColor settings) "#8B9474" (buttonColor (state w'))
    ∧ adopts_map (ThemeSettings.caseStatusColors settings) DEFAULT_STATUS_COLORS
        (caseStatusColors (state w'))
    ∧ adopts_map (ThemeSettings.taskStatusColors settings) DEFAULT_STATUS_COLORS
        (taskStatusColors (state w'))
    ∧ adopts_map (ThemeSettings.caseStatusTextColors settings) DEFAULT_TEXT_COLORS
        (caseStatusTextColors (state w'))
    ∧ currentStatusView (state w') = currentStatusView (state w)
    ∧ initialized (state w') = true
    ∧ localStorage w' = localStorage w
    ∧ events w' = events w ++ [AdoptRemote; SetInitialized true].
Proof.
  intros Hsel Herr Hpayload.
  destruct w as [[h a t m b cc0 tc0 xc0 v i] ls ev].
  unfold loadThemeSettings, try_catch, mbind, M_bind, await, throw, mret, M_ret, lift.
  rewrite Hsel, Herr, Hpayload. unfold adopt, mbind, M_bind, lift.
  cbn -[JS.or_default default DEFAULT_STATUS_COLORS DEFAULT_TEXT_COLORS].
  eexists. split; [reflexivity|].
  cbn -[JS.or_default default DEFAULT_STATUS_COLORS DEFAULT_TEXT_COLORS].
  rewrite <- app_assoc.
  repeat split; try reflexivity;
    try apply or_default_adopts; apply default_adopts.
Qed.

Lemma loadThemeSettings_adopts_payload_witness :
  let settings := ThemeSettings.Build (Some "#112233") None None None None None None None in
  let select := λ _ : string,
    Resolved {| data := Some {| theme_settings := Some settings |}; error := None |} in
  let w' := fst (loadThemeSettings (Resolved (Some "user-1")) select (initial_world ∅)) in
  headerColor (state w') = "#112233" ∧ avatarColor (state w') = "#F5A65B".
Proof.
  intros settings select w'.
  destruct (loadThemeSettings_adopts_payload "user-1" select
              {| data := Some {| theme_settings := Some settings |}; error := None |}
              settings (initial_world ∅) eq_refl eq_refl eq_refl)
    as (w1 & E & Hh & Ha & _).
  subst w'. rewrite E. cbn [fst]. split.
  - apply (proj1 Hh "#112233"); [reflexivity|discriminate].
  - apply (proj2 Ha). left. reflexivity.
Defined.

(** C7 as worded fails twice. A header colour that is present but empty
    is not adopted: the default replaces it. And a present status-colour
    map with a single key is adopted as it is, so the other three keys
    stay undefined instead of getting their defaults. *)
Lemma loadThemeSettings_payload_counterexample :
  let partial : StatusColorsType := {["completed" := "#000000"]} in
  let settings := ThemeSettings.Build (Some "") None None None None (Some partial) None None in
  let select := λ _ : string,
    Resolved {| data := Some {| theme_settings := Some settings |}; error := None |} in
  let w' := fst (loadThemeSettings (Resolved (Some "user-1")) select (initial_world ∅)) in
  ThemeSettings.headerColor settings = Some ""
  ∧ headerColor (state w') = "#8B9474"
  ∧ caseStatusColors (state w') !! "delayed" = None
  ∧ DEFAULT_STATUS_COLORS !! "delayed" = Some "#FFCCCB".
Proof. repeat split; reflexivity. Qed.

(** ** The setters *)

(** C4. [setHeaderColor c] sets the header colour to [c] and the text
    colour to the contrast of [c]: text-gray-800 when [c] is light,
    text-white otherwise; so black gives text-white and white gives
    text-gray-800. When [initialized] holds it dispatches exactly one
    remote write, whose payload carries both new values; run with a
    session, that write is one row update with this payload. *)
Theorem setHeaderColor_contrast color w :
  let w' := setHeaderColor color w in
  headerColor (state w') = color
  ∧ textColor (state w') = (if isLightColor color then "text-gray-800" else "text-white")
  ∧ textColor (state (setHeaderColor "#000000" w)) = "text-white"
  ∧ textColor (state (setHeaderColor "#FFFFFF" w)) = "text-gray-800"
  ∧ (initialized (state w) = true →
     ∃ newSettings,
       events w' = events w ++ [SaveThemeToDatabase newSettings]
       ∧ ThemeSettings.headerColor newSettings = Some color
       ∧ ThemeSettings.textColor newSettings = Some (textColor (state w'))
       ∧ ∀ id update,
           updates (saveThemeToDatabase_body (Resolved (Some id)) update newSettings)
           = [newSettings]).
Proof.
  destruct w as [[h a t m b cc0 tc0 xc0 v i] ls ev].
  unfold setHeaderColor. cbn -[isLightColor].
  split; [destruct i; reflexivity|]. split; [destruct i; reflexivity|].
  split; [destruct i; reflexivity|]. split; [destruct i; reflexivity|].
  intros ->. cbn -[isLightColor]. eexists. split; [reflexivity|].
  split; [reflexivity|]. split; [reflexivity|].
  intros id update. unfold saveThemeToDatabase_body.
  destruct (update id _) as [[e|]|]; reflexivity.
Qed.

Lemma setHeaderColor_contrast_witness :
  let w := setInitialized true (initial_world ∅) in
  let w' := setHeaderColor "#000000" w in
  ∃ newSettings,
    events w' = events w ++ [SaveThemeToDatabase newSettings]
    ∧ ThemeSettings.headerColor newSettings = Some "#000000"
    ∧ ThemeSettings.textColor newSettings = Some "text-white".
Proof.
  intros w w'.
  destruct (proj2 (proj2 (proj2 (proj2 (setHeaderColor_contrast "#000000" w)))) eq_refl)
    as (p & E & Hh & Ht & _).
  exists p. split; [exact E|]. split; [exact Hh|]. exact Ht.
Defined.

(** C5. A setter called while [initialized] is false dispatches no
    remote write (it adds no event at all), and still updates the state
    in memory and the entry of the local cache. *)
Theorem setter_before_initialized c w :
  initialized (state w) = false →
  events (call c w) = events w ∧ written c w (call c w).
Proof.
  destruct w as [[h a t m b cc0 tc0 xc0 v i] ls ev]. cbn [state initialized].
  intros ->.
  destruct c; (split; [reflexivity|]); split; try reflexivity;
    apply lookup_insert_eq.
Qed.

Lemma setter_before_initialized_witness :
  let w := initial_world ∅ in
  events (setCaseStatusColor "delayed" "#FF0000" w) = []
  ∧ caseStatusColors (state (setCaseStatusColor "delayed" "#FF0000" w)) !! "delayed"
    = Some "#FF0000".
Proof.
  intros w.
  destruct (setter_before_initialized (SetCaseStatusColor "delayed" "#FF0000") w eq_refl)
    as [He [Hs _]].
  split; [exact He|]. cbn [call] in Hs. rewrite Hs. reflexivity.
Defined.

(** C6. [setCaseStatusColor k c] sets the entry [k] of [caseStatusColors]
    to [c]; every other entry of that map, the other two maps and every
    other field of the state are as before. This holds for every key,
    the four fixed ones included. *)
Theorem setCaseStatusColor_frame status color w :
  let st := state w in
  let st' := state (setCaseStatusColor status color w) in
  caseStatusColors st' !! status = Some color
  ∧ (∀ k, k ≠ status → caseStatusColors st' !! k = caseStatusColors st !! k)
  ∧ taskStatusColors st' = taskStatusColors st
  ∧ caseStatusTextColors st' = caseStatusTextColors st
  ∧ headerColor st' = headerColor st
  ∧ avatarColor st' = avatarColor st
  ∧ textColor st' = textColor st
  ∧ mainColor st' = mainColor st
  ∧ buttonColor st' = buttonColor st
  ∧ currentStatusView st' = currentStatusView st
  ∧ initialized st' = initialized st.
Proof.
  destruct w as [[h a t m b cc0 tc0 xc0 v i] ls ev].
  assert (E : state (setCaseStatusColor status color
                {| state := Build_ThemeState h a t m b cc0 tc0 xc0 v i;
                   localStorage := ls; events := ev |})
              = Build_ThemeState h a t m b (<[status := color]> cc0) tc0 xc0 v i).
  { destruct i; reflexivity. }
  cbv zeta. rewrite E. cbn [state caseStatusColors taskStatusColors caseStatusTextColors
    headerColor avatarColor textColor mainColor buttonColor currentStatusView initialized].
  split; [apply lookup_insert_eq|].
  split; [intros k Hk; apply lookup_insert_ne; congruence|].
  repeat split; reflexivity.
Qed.

Lemma setCaseStatusColor_frame_witness :
  let w := setCaseStatusColor "delayed" "#FF0000" (initial_world ∅) in
  caseStatusColors (state w) !! "completed" = Some "#F2FCE2"
  ∧ caseStatusColors (state w) !! "delayed" = Some "#FF0000".
Proof.
  intros w.
  destruct (setCaseStatusColor_frame "delayed" "#FF0000" (initial_world ∅))
    as (Hk & Hother & _).
  split; [|exact Hk].
  unfold w. rewrite (Hother "completed"); [reflexivity|discriminate].
Defined.

(** ** A fresh load from the cache *)

Lemma loadThemeSettings_no_session select w cc tc xc :
  stored_colors (localStorage w !! "praxis-case-status-colors") DEFAULT_STATUS_COLORS
    = Returns cc →
  stored_colors (localStorage w !! "praxis-task-status-colors") DEFAULT_STATUS_COLORS
    = Returns tc →
  stored_colors (localStorage w !! "praxis-case-status-text-colors") DEFAULT_TEXT_COLORS
    = Returns xc →
  loadThemeSettings (Resolved None) select w =
    ({| state := loaded_state (localStorage w) cc tc xc true;
        localStorage := localStorage w;
        events := events w ++ [LoadFromLocalStorage; SetInitialized true] |}, Returns tt).
Proof.
  intros Hc Ht Hx.
  unfold loadThemeSettings, try_catch, mbind, M_bind, await, throw, mret, M_ret, lift.
  rewrite (loadFromLocalStorage_returns w cc tc xc Hc Ht Hx).
  unfold setInitialized, emit, with_state. cbn. rewrite <- app_assoc. reflexivity.
Qed.

Lemma loadThemeSettings_status_colors getUser select w cc tc xc :
  stored_colors (localStorage w !! "praxis-case-status-colors") DEFAULT_STATUS_COLORS
    = Returns cc →
  stored_colors (localStorage w !! "praxis-task-status-colors") DEFAULT_STATUS_COLORS
    = Returns tc →
  stored_colors (localStorage w !! "praxis-case-status-text-colors") DEFAULT_TEXT_COLORS
    = Returns xc →
  let w' := fst (loadThemeSettings getUser select w) in
  localStorage w' = localStorage w
  ∧ match remote_payload getUser select with
    | Some settings =>
        caseStatusColors (state w')
          = default DEFAULT_STATUS_COLORS (ThemeSettings.caseStatusColors settings)
        ∧ taskStatusColors (state w')
          = default DEFAULT_STATUS_COLORS (ThemeSettings.taskStatusColors settings)
        ∧ caseStatusTextColors (state w')
          = default DEFAULT_TEXT_COLORS (ThemeSettings.caseStatusTextColors settings)
    | None =>
        caseStatusColors (state w') = cc
        ∧ taskStatusColors (state w') = tc
        ∧ caseStatusTextColors (state w') = xc
    end.
Proof.
  intros Hc Ht Hx.
  unfold remote_payload, loadThemeSettings, try_catch, mbind, M_bind, await, throw, mret,
    M_ret, lift.
  destruct getUser as [[id|]|];
    [destruct (select id) as [r|];
       [destruct (is_load_error (error r));
          [|destruct (optional_theme_settings (data r)) as [settings|]]|]| |];
    try rewrite (loadFromLocalStorage_returns w cc tc xc Hc Ht Hx);
    try rewrite (loadFromLocalStorage_returns (emit ConsoleError w) cc tc xc Hc Ht Hx);
    repeat split; reflexivity.
Qed.

Lemma load_outcome_insert key value ls :
  key ≠ "praxis-case-status-colors" → key ≠ "praxis-task-status-colors" →
  key ≠ "praxis-case-status-text-colors" →
  load_outcome (<[key := value]> ls) = load_outcome ls.
Proof.
  intros H1 H2 H3. unfold load_outcome. rewrite !lookup_insert_ne by done. reflexivity.
Qed.

Lemma load_outcome_stringify key m ls :
  key = "praxis-case-status-colors" ∨ key = "praxis-task-status-colors"
  ∨ key = "praxis-case-status-text-colors" →
  load_outcome ls = Returns tt →
  load_outcome (<[key := Json.stringify m]> ls) = Returns tt.
Proof.
  intros Hkey Hok.
  destruct (load_outcome_returns ls Hok) as (cc & tc & xc & Hc & Ht & Hx).
  unfold load_outcome.
  destruct Hkey as [-> | [-> | ->]];
    rewrite ?lookup_insert_eq, ?lookup_insert_ne by done;
    rewrite ?stored_colors_stringify, ?Hc, ?Ht, ?Hx; reflexivity.
Qed.

Lemma load_outcome_call c w :
  load_outcome (localStorage w) = Returns tt →
  load_outcome (localStorage (call c w)) = Returns tt.
Proof.
  destruct w as [[h a t m b cc0 tc0 xc0 v i] ls ev]. cbn [localStorage]. intros Hok.
  destruct c, i; cbn -[isLightColor lookup insert Json.stringify load_outcome];
    first [ rewrite load_outcome_insert by done; exact Hok
          | apply load_outcome_stringify; [auto|exact Hok] ].
Qed.

Lemma load_outcome_perform op w :
  load_outcome (localStorage w) = Returns tt →
  load_outcome (localStorage (perform op w)) = Returns tt.
Proof.
  intros Hok. destruct op as [getUser select|c]; [|apply load_outcome_call, Hok].
  destruct (load_outcome_returns _ Hok) as (cc & tc & xc & Hc & Ht & Hx).
  destruct (loadThemeSettings_status_colors getUser select w cc tc xc Hc Ht Hx) as [Hls _].
  cbn [perform]. rewrite Hls. exact Hok.
Qed.

(** Every cache the operations produce from an empty one parses. *)
Lemma load_outcome_run ops : ∀ w,
  load_outcome (localStorage w) = Returns tt →
  load_outcome (localStorage (run ops w)) = Returns tt.
Proof.
  induction ops as [|op ops IH]; intros w Hok; [exact Hok|].
  cbn [run foldl]. apply IH, load_outcome_perform, Hok.
Qed.

(** C8. [setCurrentStatusView v] writes the view to the state and to the
    cache and adds no event: it dispatches no remote write, whether
    [initialized] holds or not. No remote write depends on the view: each
    setter call dispatches the same events after it as before it, and the
    payload type has no field for it. A fresh load with no session from
    the cache it leaves returns with the view restored, whenever the
    cached status-colour entries parse; they do in every world the
    operations reach from the defaults with an empty cache. *)
Theorem setCurrentStatusView_local_only view :
  (∀ w, let w' := setCurrentStatusView view w in
     currentStatusView (state w') = view_name view
     ∧ localStorage w' !! "praxis-status-view" = Some (view_name view)
     ∧ events w' = events w
     ∧ (∀ c, events (call c w') = events (call c w))
     ∧ (load_outcome (localStorage w) = Returns tt →
        ∀ select, ∃ w'',
          loadThemeSettings (Resolved None) select (initial_world (localStorage w'))
            = (w'', Returns tt)
          ∧ currentStatusView (state w'') = view_name view))
  ∧ (∀ ops select,
       let w' := setCurrentStatusView view (run ops (initial_world ∅)) in
       ∃ w'',
         loadThemeSettings (Resolved None) select (initial_world (localStorage w'))
           = (w'', Returns tt)
         ∧ currentStatusView (state w'') = view_name view).
Proof.
  assert (Hrestore : ∀ w, load_outcome (localStorage w) = Returns tt →
     ∀ select, ∃ w'',
       loadThemeSettings (Resolved None) select
         (initial_world (localStorage (setCurrentStatusView view w)))
         = (w'', Returns tt)
       ∧ currentStatusView (state w'') = view_name view).
  { intros [st ls ev]. unfold setCurrentStatusView.
    cbn [localStorage setItem setCurrentStatusViewState with_state initial_world].
    intros Hok select.
    rewrite <- (load_outcome_insert "praxis-status-view" (view_name view)) in Hok by done.
    destruct (load_outcome_returns _ Hok) as (cc & tc & xc & Hc & Ht & Hx).
    eexists. split.
    - apply (loadThemeSettings_no_session select
               {| state := initial_state;
                  localStorage := <["praxis-status-view" := view_name view]> ls;
                  events := [] |} cc tc xc Hc Ht Hx).
    - cbn [state loaded_state currentStatusView localStorage].
      rewrite lookup_insert_eq. destruct view; reflexivity. }
  split.
  - intros w. cbv zeta.
    split; [destruct w as [[] ? ?]; reflexivity|].
    split; [destruct w as [[] ? ?]; apply lookup_insert_eq|].
    split; [destruct w as [[] ? ?]; reflexivity|].
    split; [|apply Hrestore].
    intros c. destruct w as [[h a t m b cc0 tc0 xc0 v i] ls ev]. destruct c, i; reflexivity.
  - intros ops select. cbv zeta. apply Hrestore, load_outcome_run. reflexivity.
Qed.

Lemma setCurrentStatusView_local_only_witness :
  let w := setCurrentStatusView tasks (setInitialized true (initial_world ∅)) in
  events w = [SetInitialized true]
  ∧ ∃ w'', loadThemeSettings (Resolved None) (λ _, Rejected) (initial_world (localStorage w))
             = (w'', Returns tt)
           ∧ currentStatusView (state w'') = "tasks".
Proof.
  intros w.
  destruct (proj1 (setCurrentStatusView_local_only tasks) (setInitialized true (initial_world ∅)))
    as (_ & _ & He & _ & Hload).
  split; [exact He|].
  exact (Hload eq_refl (λ _, Rejected)).
Defined.

(** ** The cache as a mirror of the state *)

Lemma cache_mirrors_initial : cache_mirrors (initial_world ∅).
Proof. repeat split. Qed.

Lemma or_default_Some v d : v ≠ "" → JS.or_default (Some v) d = v.
Proof. destruct v; [congruence|reflexivity]. Qed.

Lemma cache_mirrors_call c w :
  nonempty_color c → cache_mirrors w → cache_mirrors (call c w).
Proof.
  destruct w as [[h a t m b cc0 tc0 xc0 v i] ls ev].
  unfold cache_mirrors. cbn [state localStorage headerColor avatarColor mainColor buttonColor
    caseStatusColors taskStatusColors caseStatusTextColors currentStatusView].
  intros Hne (Hh & Ha & Hm & Hb & Hcc & Htc & Hxc & Hv).
  destruct c, i; cbn [nonempty_color] in Hne;
    cbn -[isLightColor lookup insert Json.stringify JS.or_default stored_colors];
    rewrite ?lookup_insert_eq, ?lookup_insert_ne by done;
    rewrite ?stored_colors_stringify;
    repeat split; try assumption; try (apply or_default_Some; assumption);
    destruct view; reflexivity.
Qed.

Lemma cache_mirrors_calls cs : ∀ w,
  Forall nonempty_color cs → cache_mirrors w → cache_mirrors (calls cs w).
Proof.
  induction cs as [|c cs IH]; intros w Hne Hw; [exact Hw|].
  apply Forall_cons in Hne as [Hc Hcs].
  cbn [calls foldl]. apply IH; [exact Hcs|]. apply cache_mirrors_call; assumption.
Qed.

(** C2, amended. Start from a world whose cache mirrors its state, such
    as the defaults with an empty cache, and let any setters run, the
    four plain colour setters with colours that are not the empty string.
    A fresh load with no session from the cache then left returns, and
    reproduces the header, avatar, main and button colour, the three
    status-colour maps and the view. The text colour is no part of this
    statement. *)
Theorem local_cache_round_trip w0 cs select :
  cache_mirrors w0 → Forall nonempty_color cs →
  let w := calls cs w0 in
  ∃ w', loadThemeSettings (Resolved None) select (initial_world (localStorage w))
          = (w', Returns tt)
    ∧ headerColor (state w') = headerColor (state w)
    ∧ avatarColor (state w') = avatarColor (state w)
    ∧ mainColor (state w') = mainColor (state w)
    ∧ buttonColor (state w') = buttonColor (state w)
    ∧ caseStatusColors (state w') = caseStatusColors (state w)
    ∧ taskStatusColors (state w') = taskStatusColors (state w)
    ∧ caseStatusTextColors (state w') = caseStatusTextColors (state w)
    ∧ currentStatusView (state w') = currentStatusView (state w).
Proof.
  intros Hw0 Hne w.
  pose proof (cache_mirrors_calls cs w0 Hne Hw0) as Hw. fold w in Hw.
  destruct Hw as (Hh & Ha & Hm & Hb & Hcc & Htc & Hxc & Hv).
  eexists. split.
  - apply (loadThemeSettings_no_session select (initial_world (localStorage w))
             _ _ _ Hcc Htc Hxc).
  - cbn [state loaded_state headerColor avatarColor mainColor buttonColor textColor
         caseStatusColors taskStatusColors caseStatusTextColors currentStatusView
         initial_world localStorage].
    rewrite Hh, Ha, Hm, Hb, Hv. repeat split; reflexivity.
Qed.

Lemma local_cache_round_trip_witness :
  let w := calls [SetHeaderColor "#000000"; SetCaseStatusColor "delayed" "#FF0000";
                  SetCurrentStatusView tasks; SetTextColor "text-black"]
                 (initial_world ∅) in
  ∃ w', loadThemeSettings (Resolved None) (λ _, Rejected) (initial_world (localStorage w))
          = (w', Returns tt)
    ∧ headerColor (state w') = "#000000"
    ∧ caseStatusColors (state w') = caseStatusColors (state w)
    ∧ currentStatusView (state w') = "tasks".
Proof.
  intros w.
  destruct (local_cache_round_trip (initial_world ∅)
              [SetHeaderColor "#000000"; SetCaseStatusColor "delayed" "#FF0000";
               SetCurrentStatusView tasks; SetTextColor "text-black"]
              (λ _, Rejected) cache_mirrors_initial)
    as (w' & E & Hh & _ & _ & _ & Hcc & _ & _ & Hv).
  { repeat constructor; discriminate. }
  exists w'. split; [exact E|]. split; [exact Hh|]. split; [exact Hcc|exact Hv].
Defined.

(** C2 as worded fails by the design of the cache. A colour set to the
    empty string comes back as the default: the load reads every entry
    through [||]. And setters write only the entry of their own field,
    so an entry the cache held before, which the state never had, comes
    back in place of the state's value. *)
Lemma local_cache_round_trip_counterexample :
  let reload (w : World) :=
    fst (loadThemeSettings (Resolved None) (λ _, Rejected) (initial_world (localStorage w))) in
  let w2 := calls [SetHeaderColor ""] (initial_world ∅) in
  let w3 := calls [SetHeaderColor "#000000"]
              (initial_world {["praxis-avatar-color" := "#123456"]}) in
  (headerColor (state w2) = "" ∧ headerColor (state (reload w2)) = "#8B9474")
  ∧ (avatarColor (state w3) = "#F5A65B" ∧ avatarColor (state (reload w3)) = "#123456").
Proof. repeat split; reflexivity. Qed.

(** The text colour on the same round trip. [setTextColor] writes the
    entry praxis-text-color, which [loadFromLocalStorage] never reads,
    whereas the load of a remote payload restores [settings.textColor]:
    a text colour set by [setTextColor] is not what a fresh load from the
    cache gives. *)
Example setTextColor_override_not_reloaded :
  let reload (w : World) :=
    fst (loadThemeSettings (Resolved None) (λ _, Rejected) (initial_world (localStorage w))) in
  let w := calls [SetTextColor "text-black"] (initial_world ∅) in
  textColor (state w) = "text-black"
  ∧ localStorage w !! "praxis-text-color" = Some "text-black"
  ∧ textColor (state (reload w)) = "text-gray-800".
Proof. repeat split; reflexivity. Qed.

(** ** The keys of the status-colour maps *)


Lemma four_keyed_defaults :
  four_keyed DEFAULT_STATUS_COLORS ∧ four_keyed DEFAULT_TEXT_COLORS.
Proof.
  unfold four_keyed, DEFAULT_STATUS_COLORS, DEFAULT_TEXT_COLORS, STATUS_KEYS.
  rewrite !dom_insert_L, !dom_empty_L. split; set_solver.
Qed.

Lemma four_keyed_insert status color m :
  status ∈ STATUS_KEYS → four_keyed m → four_keyed (<[status := color]> m).
Proof.
  unfold four_keyed. intros Hin Hdom. rewrite dom_insert_L, Hdom.
  apply subseteq_union_1_L, singleton_subseteq_l, Hin.
Qed.

Lemma entry_four_keyed_stringify m : four_keyed m → entry_four_keyed (Some (Json.stringify m)).
Proof. intros Hm fb _. exists m. split; [apply stored_colors_stringify|exact Hm]. Qed.

Lemma entry_four_keyed_absent : entry_four_keyed None.
Proof. intros fb Hfb. exists fb. split; [reflexivity|exact Hfb]. Qed.

Lemma cache_four_keyed_empty : cache_four_keyed ∅.
Proof. repeat split; rewrite lookup_empty; apply entry_four_keyed_absent. Qed.

Lemma keys_invariant_call c w :
  keeps_keys (Setter c) →
  status_maps_four_keyed w ∧ cache_four_keyed (localStorage w) →
  status_maps_four_keyed (call c w) ∧ cache_four_keyed (localStorage (call c w)).
Proof.
  destruct w as [[h a t m b cc0 tc0 xc0 v i] ls ev].
  unfold status_maps_four_keyed, cache_four_keyed.
  cbn [state localStorage caseStatusColors taskStatusColors caseStatusTextColors].
  intros Hk ((Hcc & Htc & Hxc) & (Ec & Et & Ex)).
  destruct c, i; cbn [keeps_keys] in Hk;
    cbn -[isLightColor lookup insert Json.stringify];
    rewrite ?lookup_insert_eq, ?lookup_insert_ne by done;
    refine (conj (conj _ (conj _ _)) (conj _ (conj _ _)));
    first [ assumption
          | apply four_keyed_insert; assumption
          | apply entry_four_keyed_stringify, four_keyed_insert; assumption ].
Qed.

Lemma keys_invariant_initialize getUser select w :
  keeps_keys (Initialize getUser select) →
  status_maps_four_keyed w ∧ cache_four_keyed (localStorage w) →
  status_maps_four_keyed (perform (Initialize getUser select) w)
  ∧ cache_four_keyed (localStorage (perform (Initialize getUser select) w)).
Proof.
  intros Hk (_ & Hcache).
  destruct four_keyed_defaults as [Hd Hdt].
  pose proof Hcache as (Ec & Et & Ex).
  destruct (Ec _ Hd) as (cc & Hc & Kc).
  destruct (Et _ Hd) as (tc & Ht & Kt).
  destruct (Ex _ Hdt) as (xc & Hx & Kx).
  destruct (loadThemeSettings_status_colors getUser select w cc tc xc Hc Ht Hx) as [Hls Hst].
  cbn [perform]. rewrite Hls. split; [|exact Hcache].
  cbn [keeps_keys] in Hk. unfold status_maps_four_keyed.
  destruct (remote_payload getUser select) as [settings|].
  - destruct (Hk settings eq_refl) as (Pc & Pt & Px).
    destruct Hst as (-> & -> & ->).
    destruct settings as [? ? ? ? ? [mc|] [mt|] [mx|]];
      cbn [default from_option id ThemeSettings.caseStatusColors
           ThemeSettings.taskStatusColors ThemeSettings.caseStatusTextColors] in *;
      repeat split; auto.
  - destruct Hst as (-> & -> & ->). repeat split; assumption.
Qed.

(** C9, amended. Start from the defaults with a cache whose status-colour
    entries are absent, empty or four-keyed objects of strings. After any
    sequence of loads and setter calls in which every status setter gets
    one of the four fixed keys and every adopted remote payload has
    four-keyed maps, each of the three status-colour maps has exactly the
    four fixed keys. *)
Theorem status_keys_invariant cache ops :
  cache_four_keyed cache → Forall keeps_keys ops →
  let w := run ops (initial_world cache) in
  dom (caseStatusColors (state w)) = STATUS_KEYS
  ∧ dom (taskStatusColors (state w)) = STATUS_KEYS
  ∧ dom (caseStatusTextColors (state w)) = STATUS_KEYS.
Proof.
  intros Hcache Hops.
  assert (Hinit : status_maps_four_keyed (initial_world cache)
                  ∧ cache_four_keyed (localStorage (initial_world cache))).
  { destruct four_keyed_defaults as [Hd Hdt].
    split; [exact (conj Hd (conj Hd Hdt))|exact Hcache]. }
  revert Hinit. generalize (initial_world cache). clear Hcache.
  induction Hops as [|op ops Hop Hops IH]; intros w0 Hinv.
  - exact (proj1 Hinv).
  - cbn [run foldl]. apply IH. destruct op as [g s|c].
    + apply keys_invariant_initialize; assumption.
    + apply keys_invariant_call; assumption.
Qed.

Lemma status_keys_invariant_witness :
  let w := run [Initialize (Resolved None) (λ _, Rejected);
                Setter (SetCaseStatusColor "delayed" "#FF0000");
                Setter (SetHeaderColor "#000000")] (initial_world ∅) in
  dom (caseStatusColors (state w)) = STATUS_KEYS.
Proof.
  intros w.
  refine (proj1 (status_keys_invariant ∅
           [Initialize (Resolved None) (λ _, Rejected);
            Setter (SetCaseStatusColor "delayed" "#FF0000");
            Setter (SetHeaderColor "#000000")] _ _)).
  - exact cache_four_keyed_empty.
  - repeat apply Forall_cons_2; try apply Forall_nil_2.
    + intros payload H. discriminate H.
    + cbn. unfold STATUS_KEYS. set_solver.
    + exact I.
Defined.

(** C9 as worded fails: no operation checks keys. A status setter called
    with another key adds a fifth entry; a load adopts a remote map with
    a single key as it is; and so does a load from a cache that holds the
    JSON text of such a map. *)
Lemma status_keys_counterexample :
  let w1 := run [Setter (SetCaseStatusColor "archived" "#CCCCCC")] (initial_world ∅) in
  let partial : StatusColorsType := {["completed" := "#000000"]} in
  let settings := ThemeSettings.Build None None None None None (Some partial) None None in
  let select := λ _ : string,
    Resolved {| data := Some {| theme_settings := Some settings |}; error := None |} in
  let w2 := run [Initialize (Resolved (Some "user-1")) select] (initial_world ∅) in
  let cache : gmap string string :=
    {["praxis-case-status-colors" := Json.stringify partial]} in
  let w3 := run [Initialize (Resolved None) select] (initial_world cache) in
  dom (caseStatusColors (state w1)) ≠ STATUS_KEYS
  ∧ caseStatusColors (state w1) !! "archived" = Some "#CCCCCC"
  ∧ dom (caseStatusColors (state w2)) ≠ STATUS_KEYS
  ∧ caseStatusColors (state w2) !! "delayed" = None
  ∧ dom (caseStatusColors (state w3)) ≠ STATUS_KEYS
  ∧ caseStatusColors (state w3) !! "delayed" = None.
Proof.
  assert (Hmissing : ∀ m : StatusColorsType, m !! "delayed" = None → dom m ≠ STATUS_KEYS).
  { intros m Hm H. assert (Hin : "delayed" ∈ STATUS_KEYS) by (unfold STATUS_KEYS; set_solver).
    rewrite <- H in Hin. apply elem_of_dom in Hin as [x Hx]. congruence. }
  cbv zeta. split; [|split; [reflexivity|]].
  - intros H. assert (Hin : "archived" ∈ STATUS_KEYS).
    { rewrite <- H. apply elem_of_dom. eexists. reflexivity. }
    unfold STATUS_KEYS in Hin. set_solver.
  - split; [apply Hmissing; reflexivity|]. split; [reflexivity|].
    split; [apply Hmissing; vm_compute; reflexivity|vm_compute; reflexivity].
Qed.

(** * Further properties *)

(** ** The base colour classes *)

(** Appends of strings, brought to the form [String c (... +:+ t)]. *)
Ltac append_normal :=
  repeat first [rewrite append_cons | rewrite append_nil_l | rewrite append_assoc].

Lemma span_spec p s : ∀ taken left,
  BgClass.span p s = (taken, left) → s = taken +:+ left ∧ all_chars p taken.
Proof.
  induction s as [|a rest IH]; intros taken left; cbn [BgClass.span].
  - intros [= <- <-]. split; [reflexivity|]. intros a [].
  - destruct (p a) eqn:Ha.
    + destruct (BgClass.span p rest) as [t l]. intros [= <- <-].
      destruct (IH t l eq_refl) as [-> Hall]. split; [reflexivity|].
      intros c [<- | Hin]; [exact Ha|exact (Hall c Hin)].
    + intros [= <- <-]. split; [reflexivity|]. intros c [].
Qed.

Lemma span_append p taken rest :
  all_chars p taken →
  BgClass.span p (taken +:+ rest)
  = (taken +:+ fst (BgClass.span p rest), snd (BgClass.span p rest)).
Proof.
  induction taken as [|a taken IH]; intros Hall.
  - rewrite !append_nil_l. destruct (BgClass.span p rest); reflexivity.
  - rewrite !append_cons. cbn [BgClass.span]. rewrite (Hall a) by (left; reflexivity).
    rewrite IH by (intros c Hc; apply Hall; right; exact Hc). reflexivity.
Qed.

Lemma match_here_class s m : BgClass.match_here s = Some m → is_bg_class m.
Proof.
  unfold BgClass.match_here.
  destruct s as [|c1 [|c2 [|c3 rest]]]; try discriminate.
  destruct (Ascii.eqb c1 "b" && Ascii.eqb c2 "g" && Ascii.eqb c3 "-"); [|discriminate].
  destruct (BgClass.span BgClass.is_lower rest) as [[|l letters] [|c4 rest']] eqn:E1;
    try discriminate.
  destruct (Ascii.eqb c4 "-"); [|discriminate].
  destruct (BgClass.span BgClass.is_decimal rest') as [[|d digits] left] eqn:E2;
    [discriminate|].
  intros [= <-]. exists (String l letters), (String d digits).
  split; [reflexivity|]. split; [discriminate|].
  split; [exact (proj2 (span_spec _ _ _ _ E1))|].
  split; [discriminate|exact (proj2 (span_spec _ _ _ _ E2))].
Qed.

(** The match is a part of the text, and its digits are all the digits
    there are. *)
Lemma match_here_prefix s m :
  BgClass.match_here s = Some m →
  ∃ post, s = m +:+ post ∧ ∀ c rest, post = String c rest → BgClass.is_decimal c = false.
Proof.
  unfold BgClass.match_here.
  destruct s as [|c1 [|c2 [|c3 rest]]]; try discriminate.
  destruct (Ascii.eqb c1 "b") eqn:H1; [|discriminate].
  destruct (Ascii.eqb c2 "g") eqn:H2; [|discriminate].
  destruct (Ascii.eqb c3 "-") eqn:H3; [|discriminate].
  apply Ascii.eqb_eq in H1 as ->, H2 as ->, H3 as ->. cbn [andb].
  destruct (BgClass.span BgClass.is_lower rest) as [[|l letters] [|c4 rest']] eqn:E1;
    try discriminate.
  destruct (Ascii.eqb c4 "-") eqn:H4; [|discriminate].
  apply Ascii.eqb_eq in H4 as ->.
  destruct (BgClass.span BgClass.is_decimal rest') as [[|d digits] left] eqn:E2;
    [discriminate|].
  intros [= <-]. exists left.
  destruct (span_spec _ _ _ _ E1) as [-> _].
  pose proof (span_spec _ _ _ _ E2) as [-> _]. split.
  - append_normal. reflexivity.
  - intros c r ->. clear E1. revert E2. generalize (String d digits). intros ds.
    induction ds as [|x ds IH]; rewrite ?append_nil_l, ?append_cons; cbn [BgClass.span].
    + destruct (BgClass.is_decimal c); [|reflexivity].
      destruct (BgClass.span BgClass.is_decimal r). discriminate.
    + destruct (BgClass.is_decimal x); [|discriminate].
      destruct (BgClass.span BgClass.is_decimal (ds +:+ String c r)) as [t l0] eqn:E.
      intros [= -> ->]. apply IH. reflexivity.
Qed.

Lemma match_here_complete cls post :
  is_bg_class cls → ∃ m, BgClass.match_here (cls +:+ post) = Some m.
Proof.
  intros (letters & digits & -> & Hl & Hlow & Hd & Hdig).
  rewrite !append_assoc, !append_cons, !append_nil_l.
  unfold BgClass.match_here. cbn [Ascii.eqb Bool.eqb andb].
  rewrite (span_append _ letters) by exact Hlow.
  cbn [BgClass.span BgClass.is_lower]. cbn [fst snd].
  replace (BgClass.is_lower "-") with false by reflexivity. cbn [fst snd].
  destruct letters as [|l letters]; [congruence|].
  rewrite append_cons. change (letters +:+ EmptyString) with (letters +:+ "").
  replace (Ascii.eqb "-" "-") with true by reflexivity.
  rewrite (span_append _ digits) by exact Hdig.
  destruct digits as [|d digits]; [congruence|].
  rewrite append_cons. eexists. reflexivity.
Qed.

Lemma append_empty (a b : string) : a +:+ b = EmptyString → a = EmptyString.
Proof. destruct a; [reflexivity|]. rewrite append_cons. discriminate. Qed.

Lemma bg_class_nonempty cls : is_bg_class cls → cls ≠ EmptyString.
Proof. intros (l & d & -> & _). append_normal. discriminate. Qed.

Lemma no_class_at_start a rest cls n :
  BgClass.match_here (String a rest) = None →
  is_bg_class cls → occurs_at cls (String a rest) n →
  ∃ n', n = S n' ∧ occurs_at cls rest n'.
Proof.
  intros Hnone Hcls (pre & post & E & <-). destruct pre as [|a' pre].
  - rewrite append_nil_l in E. destruct (match_here_complete cls post Hcls) as [m Hm].
    rewrite <- E, Hnone in Hm. discriminate.
  - rewrite append_cons in E. injection E as _ E.
    exists (String.length pre). split; [reflexivity|]. by exists pre, post.
Qed.

(** [match0] finds the leftmost class of the text, with all its digits;
    it finds none only when the text holds none. *)
Lemma match0_leftmost s :
  match BgClass.match0 s with
  | Some m =>
      is_bg_class m
      ∧ ∃ pre post,
          s = pre +:+ m +:+ post
          ∧ (∀ c rest, post = String c rest → BgClass.is_decimal c = false)
          ∧ ∀ cls n, is_bg_class cls → occurs_at cls s n → (String.length pre ≤ n)%nat
  | None => ∀ cls n, is_bg_class cls → ¬ occurs_at cls s n
  end.
Proof.
  induction s as [|a rest IH].
  - cbn. intros cls n Hcls (pre & post & E & _). symmetry in E.
    pose proof (append_empty _ _ E) as ->. rewrite append_nil_l in E.
    exact (bg_class_nonempty _ Hcls (append_empty _ _ E)).
  - cbn [BgClass.match0]. destruct (BgClass.match_here (String a rest)) as [m|] eqn:E.
    + split; [exact (match_here_class _ _ E)|].
      destruct (match_here_prefix _ _ E) as (post & Hs & Hpost).
      exists EmptyString, post. rewrite append_nil_l.
      split; [exact Hs|]. split; [exact Hpost|]. intros; cbn; lia.
    + destruct (BgClass.match0 rest) as [m|].
      * destruct IH as (Hm & pre & post & -> & Hpost & Hleft). split; [exact Hm|].
        exists (String a pre), post. rewrite append_cons.
        split; [reflexivity|]. split; [exact Hpost|].
        intros cls n Hcls Hocc.
        destruct (no_class_at_start _ _ _ _ E Hcls Hocc) as (n' & -> & Hocc').
        specialize (Hleft cls n' Hcls Hocc'). cbn [String.length]. lia.
      * intros cls n Hcls Hocc.
        destruct (no_class_at_start _ _ _ _ E Hcls Hocc) as (n' & -> & Hocc').
        exact (IH cls n' Hcls Hocc').
Qed.

Lemma fallback_classes :
  is_bg_class "bg-green-500" ∧ is_bg_class "bg-blue-500"
  ∧ is_bg_class "bg-red-500" ∧ is_bg_class "bg-amber-400".
Proof.
  assert (H : ∀ letters digits,
            letters ≠ EmptyString → digits ≠ EmptyString →
            forallb BgClass.is_lower (list_ascii_of_string letters) = true →
            forallb BgClass.is_decimal (list_ascii_of_string digits) = true →
            is_bg_class ("bg-" +:+ letters +:+ "-" +:+ digits)).
  { intros letters digits Hl Hd Hlow Hdig. exists letters, digits.
    rewrite forallb_forall in Hlow, Hdig. by repeat split. }
  split; [|split; [|split]].
  - by apply (H "green" "500").
  - by apply (H "blue" "500").
  - by apply (H "red" "500").
  - by apply (H "amber" "400").
Qed.

(** X1. Whatever the class texts of [STATUS_COLORS] are, the object
    [extractBaseColors] builds has exactly the four status keys, and each
    of its values is a class of the form bg-<lowercase letters>-<digits>:
    either one found in the text or the hard-coded fallback. *)
Theorem extractBaseColors_classes (STATUS_COLORS : string → string) :
  dom (extractBaseColors STATUS_COLORS) = STATUS_KEYS
  ∧ map_Forall (λ _ v, is_bg_class v) (extractBaseColors STATUS_COLORS).
Proof.
  split.
  - unfold extractBaseColors, STATUS_KEYS. rewrite !dom_insert_L, dom_empty_L. set_solver.
  - assert (Hone : ∀ s d, is_bg_class d → is_bg_class (JS.or_default (BgClass.match0 s) d)).
    { intros s d Hd. pose proof (match0_leftmost s) as H.
      destruct (BgClass.match0 s) as [m|]; [|exact Hd].
      destruct H as [Hm _]. destruct m; [|exact Hm].
      exfalso. exact (bg_class_nonempty _ Hm eq_refl). }
    destruct fallback_classes as (Hg & Hb & Hr & Ha).
    unfold extractBaseColors. repeat apply map_Forall_insert_2; auto.
    apply map_Forall_empty.
Qed.

(** X2. For each status, the value [extractBaseColors] gives is the
    leftmost class bg-<letters>-<digits> of the status's text, taken
    with all its digits; when the text holds no such class at all it is
    the fallback of that status. *)
Theorem extractBaseColors_leftmost (STATUS_COLORS : string → string) status v :
  extractBaseColors STATUS_COLORS !! status = Some v →
  (∃ pre post,
     STATUS_COLORS status = pre +:+ v +:+ post
     ∧ (∀ c rest, post = String c rest → BgClass.is_decimal c = false)
     ∧ ∀ cls n, is_bg_class cls → occurs_at cls (STATUS_COLORS status) n →
         (String.length pre ≤ n)%nat)
  ∨ (v = fallback_class status
     ∧ ∀ cls n, is_bg_class cls → ¬ occurs_at cls (STATUS_COLORS status) n).
Proof.
  assert (Hone : ∀ s d,
    let v := JS.or_default (BgClass.match0 s) d in
    (∃ pre post,
       s = pre +:+ v +:+ post
       ∧ (∀ c rest, post = String c rest → BgClass.is_decimal c = false)
       ∧ ∀ cls n, is_bg_class cls → occurs_at cls s n → (String.length pre ≤ n)%nat)
    ∨ (v = d ∧ ∀ cls n, is_bg_class cls → ¬ occurs_at cls s n)).
  { intros s d. pose proof (match0_leftmost s) as H.
    destruct (BgClass.match0 s) as [m|]; [|right; split; [reflexivity|exact H]].
    destruct H as [Hm H]. left. destruct m; [|exact H].
    exfalso. exact (bg_class_nonempty _ Hm eq_refl). }
  unfold extractBaseColors. intros H.
  repeat (apply lookup_insert_Some in H as [[<- <-]|[? H]]; [apply Hone|]).
  rewrite lookup_empty in H. discriminate.
Qed.

Lemma extractBaseColors_leftmost_witness :
  let STATUS_COLORS := λ _ : string, "text-green-800 bg-green-100 hover:bg-green-200" in
  extractBaseColors STATUS_COLORS !! "completed" = Some "bg-green-100"
  ∧ ((∃ pre post,
        STATUS_COLORS "completed" = pre +:+ "bg-green-100" +:+ post
        ∧ (∀ c rest, post = String c rest → BgClass.is_decimal c = false)
        ∧ ∀ cls n, is_bg_class cls → occurs_at cls (STATUS_COLORS "completed") n →
            (String.length pre ≤ n)%nat)
     ∨ ("bg-green-100" = fallback_class "completed"
        ∧ ∀ cls n, is_bg_class cls → ¬ occurs_at cls (STATUS_COLORS "completed") n)).
Proof.
  split; [reflexivity|].
  apply (extractBaseColors_leftmost
           (λ _, "text-green-800 bg-green-100 hover:bg-green-200") "completed").
  reflexivity.
Defined.

(** ** More on [isLightColor] *)

Lemma substring_beyond s : ∀ n m,
  (String.length s ≤ n)%nat → String.substring n m s = EmptyString.
Proof.
  induction s as [|a s IH]; intros [|n] m H; cbn in *; try reflexivity; try lia.
  - destruct m; reflexivity.
  - apply IH. lia.
Qed.

(** X3. A colour text with fewer than five characters after the first
    '#' is removed, such as the short form '#FFF' or the empty string,
    is never light: its blue slice is empty and decodes to NaN. *)
Theorem isLightColor_short s :
  (String.length (JS.replace_first "#" s) ≤ 4)%nat → isLightColor s = false.
Proof.
  intros H. unfold isLightColor. cbv zeta. apply luminance_nan. right. right.
  unfold JS.substring. rewrite (substring_beyond _ 4) by exact H. reflexivity.
Qed.

Lemma isLightColor_short_witness :
  (String.length (JS.replace_first "#" "#FFF") ≤ 4)%nat ∧ isLightColor "#FFF" = false.
Proof.
  split; [cbn; lia|]. apply (isLightColor_short "#FFF"). cbn. lia.
Defined.

Lemma triple_neq (r g b r0 g0 b0 : Z) :
  (r, g, b) ≠ (r0, g0, b0) → r ≠ r0 ∨ g ≠ g0 ∨ b ≠ b0.
Proof.
  intros H. destruct (decide (r = r0)) as [->|]; [|by left].
  destruct (decide (g = g0)) as [->|]; [|by right; left].
  destruct (decide (b = b0)) as [->|]; [|by right; right]. by destruct H.
Qed.

(** X4. Among well-formed six-digit colours, raising components never
    turns a light colour dark: if each of red, green and blue of the
    second colour is at least that of the first and the first is light,
    so is the second. With equal components (the same colour in another
    letter case, with or without '#') the two answers are the same. *)
Theorem isLightColor_monotone s1 s2 p1 p2 :
  is_hex6 s1 = true → is_hex6 s2 = true →
  p1 = EmptyString ∨ p1 = "#" → p2 = EmptyString ∨ p2 = "#" →
  component_le (spec_components s1) (spec_components s2) →
  (isLightColor (p1 +:+ s1) = true → isLightColor (p2 +:+ s2) = true)
  ∧ (spec_components s1 = spec_components s2 →
     isLightColor (p1 +:+ s1) = isLightColor (p2 +:+ s2)).
Proof.
  intros H1 H2 Hp1 Hp2 Hle.
  pose proof (isLightColor_hex6 s1 p1 H1 Hp1) as L1.
  pose proof (isLightColor_hex6 s2 p2 H2 Hp2) as L2.
  destruct (spec_components s1) as [[r1 g1] b1], (spec_components s2) as [[r2 g2] b2].
  destruct L1 as (Hr1 & Hg1 & Hb1 & ->), L2 as (Hr2 & Hg2 & Hb2 & ->).
  split; [|intros [= -> -> ->]; reflexivity].
  destruct Hle as (Hr & Hg & Hb).
  destruct (decide ((r2, g2, b2) = (218, 58, 248)%Z)) as [[= -> -> ->]|N2];
    [intros _; reflexivity|].
  rewrite (luminance_exact r2 g2 b2) by assumption.
  destruct (decide ((r1, g1, b1) = (218, 58, 248)%Z)) as [[= -> -> ->]|N1].
  - intros _. apply Z.ltb_lt. apply triple_neq in N2. lia.
  - rewrite (luminance_exact r1 g1 b1) by assumption.
    rewrite !Z.ltb_lt. lia.
Qed.

Lemma isLightColor_monotone_witness :
  component_le (spec_components "808080") (spec_components "80ffFF")
  ∧ isLightColor "#808080" = true ∧ isLightColor "80ffFF" = true.
Proof.
  assert (Hle : component_le (spec_components "808080") (spec_components "80ffFF")).
  { vm_compute. repeat split; discriminate. }
  split; [exact Hle|]. split; [reflexivity|].
  refine (proj1 (isLightColor_monotone "808080" "80ffFF" "#" EmptyString _ _ _ _ Hle) _);
    [reflexivity|reflexivity|right; reflexivity|left; reflexivity|reflexivity].
Defined.

(** ** The nine setters *)

(** X5. Each setter writes its own field and nothing else: a plain
    colour setter leaves every other field as it was (and
    [setHeaderColor] the text colour besides the header); a status setter
    changes one key of its own map; none changes [initialized]; and the
    only cache entry that changes is the setter's own. *)
Theorem setter_frame c w :
  let st := state w in
  let st' := state (call c w) in
  (cache_key c ≠ "praxis-header-color" → headerColor st' = headerColor st)
  ∧ (cache_key c ≠ "praxis-avatar-color" → avatarColor st' = avatarColor st)
  ∧ (sets_text c = false → textColor st' = textColor st)
  ∧ (cache_key c ≠ "praxis-main-color" → mainColor st' = mainColor st)
  ∧ (cache_key c ≠ "praxis-button-color" → buttonColor st' = buttonColor st)
  ∧ (∀ k, cache_key c ≠ "praxis-case-status-colors" ∨ status_key c ≠ Some k →
       caseStatusColors st' !! k = caseStatusColors st !! k)
  ∧ (∀ k, cache_key c ≠ "praxis-task-status-colors" ∨ status_key c ≠ Some k →
       taskStatusColors st' !! k = taskStatusColors st !! k)
  ∧ (∀ k, cache_key c ≠ "praxis-case-status-text-colors" ∨ status_key c ≠ Some k →
       caseStatusTextColors st' !! k = caseStatusTextColors st !! k)
  ∧ (cache_key c ≠ "praxis-status-view" → currentStatusView st' = currentStatusView st)
  ∧ initialized st' = initialized st
  ∧ ∀ key, key ≠ cache_key c → localStorage (call c w) !! key = localStorage w !! key.
Proof.
  destruct w as [[h a t m b cc0 tc0 xc0 v i] ls ev].
  destruct c, i; cbn -[isLightColor lookup insert Json.stringify];
    (repeat split; try reflexivity; try congruence;
     try (intros k [Hk|Hk]; [congruence|apply lookup_insert_ne; congruence]);
     try (intros key Hkey; apply lookup_insert_ne; congruence)).
Qed.

(** X6. Once [initialized] holds, each of the eight colour setters
    dispatches exactly one remote write, and its payload is the whole
    state as the call leaves it: the eight persisted fields, all present. *)
Theorem setter_payload_snapshot c w :
  initialized (state w) = true → is_view_setter c = false →
  events (call c w) = events w ++ [SaveThemeToDatabase (settings_of (state (call c w)))].
Proof.
  destruct w as [[h a t m b cc0 tc0 xc0 v i] ls ev]. cbn [state initialized].
  intros -> Hc. destruct c; try discriminate Hc; reflexivity.
Qed.

Lemma setter_payload_snapshot_witness :
  let w := setInitialized true (initial_world ∅) in
  events (setTextColor "text-black" w)
  = events w ++ [SaveThemeToDatabase (settings_of (state (setTextColor "text-black" w)))].
Proof.
  exact (setter_payload_snapshot (SetTextColor "text-black")
           (setInitialized true (initial_world ∅)) eq_refl eq_refl).
Defined.

Lemma World_eq w1 w2 :
  state w1 = state w2 → localStorage w1 = localStorage w2 → events w1 = events w2 →
  w1 = w2.
Proof. destruct w1, w2. cbn. intros -> -> ->. reflexivity. Qed.

Lemma loadThemeSettings_serves id st w0 :
  plain_colors_nonempty st →
  loadThemeSettings (Resolved (Some id)) (serves (settings_of st)) w0
  = ({| state := {|
          headerColor := headerColor st; avatarColor := avatarColor st;
          textColor := textColor st; mainColor := mainColor st;
          buttonColor := buttonColor st; caseStatusColors := caseStatusColors st;
          taskStatusColors := taskStatusColors st;
          caseStatusTextColors := caseStatusTextColors st;
          currentStatusView := currentStatusView (state w0); initialized := true |};
        localStorage := localStorage w0;
        events := events w0 ++ [AdoptRemote; SetInitialized true] |}, Returns tt).
Proof.
  destruct w0 as [[h0 a0 t0 m0 b0 cc0 tc0 xc0 v0 i0] ls0 ev0].
  destruct st as [h a t m b cc tc xc v i].
  intros (Hh & Ha & Ht & Hm & Hb). cbn [headerColor avatarColor textColor mainColor
    buttonColor] in *.
  unfold loadThemeSettings, serves, settings_of, try_catch, adopt, mbind, M_bind, await,
    mret, M_ret, lift.
  cbn -[JS.or_default]. rewrite !or_default_Some by assumption.
  f_equal. apply World_eq; cbn; [reflexivity|reflexivity|].
  rewrite <- app_assoc. reflexivity.
Qed.

(** X7. A remote write round-trips. The payload a colour setter
    dispatches, served back by the profile query to a later load with a
    session, restores all eight persisted fields exactly, the text colour
    included, provided none of the five plain colours is the empty
    string; the view is left as the loading provider had it. *)
Theorem remote_round_trip c w id w0 :
  initialized (state w) = true → is_view_setter c = false →
  plain_colors_nonempty (state (call c w)) →
  ∃ newSettings w',
    events (call c w) = events w ++ [SaveThemeToDatabase newSettings]
    ∧ loadThemeSettings (Resolved (Some id)) (serves newSettings) w0 = (w', Returns tt)
    ∧ headerColor (state w') = headerColor (state (call c w))
    ∧ avatarColor (state w') = avatarColor (state (call c w))
    ∧ textColor (state w') = textColor (state (call c w))
    ∧ mainColor (state w') = mainColor (state (call c w))
    ∧ buttonColor (state w') = buttonColor (state (call c w))
    ∧ caseStatusColors (state w') = caseStatusColors (state (call c w))
    ∧ taskStatusColors (state w') = taskStatusColors (state (call c w))
    ∧ caseStatusTextColors (state w') = caseStatusTextColors (state (call c w))
    ∧ currentStatusView (state w') = currentStatusView (state w0).
Proof.
  intros Hi Hc Hne. exists (settings_of (state (call c w))). eexists.
  split.
  - destruct w as [[h a t m b cc0 tc0 xc0 v i] ls ev]. cbn [state initialized] in Hi.
    subst i. destruct c; try discriminate Hc; reflexivity.
  - split; [exact (loadThemeSettings_serves id _ w0 Hne)|].
    repeat split; reflexivity.
Qed.

Lemma remote_round_trip_witness :
  let w := setInitialized true (initial_world ∅) in
  ∃ newSettings w',
    events (setTextColor "text-black" w) = events w ++ [SaveThemeToDatabase newSettings]
    ∧ loadThemeSettings (Resolved (Some "user-1")) (serves newSettings) (initial_world ∅)
      = (w', Returns tt)
    ∧ textColor (state w') = "text-black".
Proof.
  intros w.
  destruct (remote_round_trip (SetTextColor "text-black") w "user-1" (initial_world ∅))
    as (p & w' & He & Hl & _ & _ & Ht & _); [reflexivity|reflexivity| |].
  { repeat split; discriminate. }
  exists p, w'. split; [exact He|]. split; [exact Hl|exact Ht].
Defined.



(** X9. Of two calls that write the same place (the same plain field,
    the view, or the same key of the same status map) the later one
    wins: state and cache are as if the earlier call had not been made. *)
Theorem last_write_wins c1 c2 w :
  same_slot c1 c2 →
  state (call c2 (call c1 w)) = state (call c2 w)
  ∧ localStorage (call c2 (call c1 w)) = localStorage (call c2 w).
Proof.
  destruct w as [[h a t m b cc0 tc0 xc0 v i] ls ev].
  intros [Hkey Hstatus].
  destruct c1, c2; cbn [cache_key status_key] in Hkey, Hstatus; try discriminate Hkey;
    try (injection Hstatus as ->);
    destruct i; cbn -[isLightColor insert Json.stringify];
    rewrite ?insert_insert_eq; split; reflexivity.
Qed.

Lemma last_write_wins_witness :
  state (setHeaderColor "#000000" (setHeaderColor "#FFFFFF" (initial_world ∅)))
  = state (setHeaderColor "#000000" (initial_world ∅)).
Proof.
  refine (proj1 (last_write_wins (SetHeaderColor "#FFFFFF") (SetHeaderColor "#000000")
                   (initial_world ∅) _)).
  split; reflexivity.
Defined.

(** X10. A text colour set by [setTextColor] is an override that
    stays: it is still the text colour after any number of later calls of
    the other setters, the header setter excepted, whether or not it
    contrasts with the header colour. *)
Theorem text_override_persists color cs w :
  Forall (λ c, sets_text c = false) cs →
  textColor (state (calls cs (setTextColor color w))) = color.
Proof.
  intros Hcs.
  assert (H0 : textColor (state (setTextColor color w)) = color).
  { destruct w as [[h a t m b cc0 tc0 xc0 v i] ls ev]. destruct i; reflexivity. }
  revert H0. generalize (setTextColor color w). clear w.
  induction Hcs as [|c cs Hc Hcs IH]; intros w Hw; [exact Hw|].
  cbn [calls foldl]. apply IH. rewrite <- Hw.
  destruct w as [[h a t m b cc0 tc0 xc0 v i] ls ev].
  destruct c, i; try discriminate Hc; reflexivity.
Qed.

Lemma text_override_persists_witness :
  let w := calls [SetAvatarColor "#000000"; SetCaseStatusColor "delayed" "#FF0000"]
             (setTextColor "text-black" (initial_world ∅)) in
  textColor (state w) = "text-black" ∧ headerColor (state w) = "#8B9474".
Proof.
  split; [|reflexivity].
  apply (text_override_persists "text-black"
           [SetAvatarColor "#000000"; SetCaseStatusColor "delayed" "#FF0000"]).
  repeat apply Forall_cons_2; try apply Forall_nil_2; reflexivity.
Defined.

(** ** The load on every path *)

Lemma loadFromLocalStorage_partial w :
  ∃ w', loadFromLocalStorage w = (w', load_outcome (localStorage w))
    ∧ localStorage w' = localStorage w
    ∧ initialized (state w') = initialized (state w)
    ∧ plain_colors_loaded (localStorage w) (state w')
    ∧ (load_outcome (localStorage w) ≠ Returns tt →
       caseStatusTextColors (state w') = caseStatusTextColors (state w)
       ∧ currentStatusView (state w') = currentStatusView (state w)).
Proof.
  destruct w as [[h a t m b cc0 tc0 xc0 v i] ls ev].
  cbn [localStorage state initialized events caseStatusTextColors currentStatusView].
  unfold loadFromLocalStorage, load_outcome, mbind, M_bind, lift, getItem.
  cbn -[isLightColor lookup parse_or stored_colors]. rewrite parse_or_stored.
  destruct (stored_colors (ls !! "praxis-case-status-colors") _) as [cc| |];
    [|eexists; split; [reflexivity|]; repeat split; first [reflexivity|congruence]..].
  cbn -[isLightColor lookup parse_or stored_colors]. rewrite parse_or_stored.
  destruct (stored_colors (ls !! "praxis-task-status-colors") _) as [tc| |];
    [|eexists; split; [reflexivity|]; repeat split; first [reflexivity|congruence]..].
  cbn -[isLightColor lookup parse_or stored_colors]. rewrite parse_or_stored.
  destruct (stored_colors (ls !! "praxis-case-status-text-colors") _) as [xc| |];
    eexists; (split; [reflexivity|]); repeat split; first [reflexivity|congruence].
Qed.

Lemma setInitialized_state b w :
  headerColor (state (setInitialized b w)) = headerColor (state w)
  ∧ avatarColor (state (setInitialized b w)) = avatarColor (state w)
  ∧ textColor (state (setInitialized b w)) = textColor (state w)
  ∧ mainColor (state (setInitialized b w)) = mainColor (state w)
  ∧ buttonColor (state (setInitialized b w)) = buttonColor (state w).
Proof. destruct w as [[] ? ?]. repeat split; reflexivity. Qed.

Lemma plain_colors_loaded_setInitialized ls b w :
  plain_colors_loaded ls (state w) → plain_colors_loaded ls (state (setInitialized b w)).
Proof.
  destruct (setInitialized_state b w) as (Hh & Ha & Ht & Hm & Hb).
  unfold plain_colors_loaded. rewrite Hh, Ha, Ht, Hm, Hb. exact id.
Qed.

(** A load that adopts no remote payload, however it ends: the plain
    colours are those of the cache; unless the three cached maps parsed,
    the text-colour map, the view and [initialized] are as before. *)
Lemma loadThemeSettings_local getUser select w :
  remote_payload getUser select = None →
  plain_colors_loaded (localStorage w) (state (fst (loadThemeSettings getUser select w)))
  ∧ (load_outcome (localStorage w) ≠ Returns tt →
     caseStatusTextColors (state (fst (loadThemeSettings getUser select w)))
       = caseStatusTextColors (state w)
     ∧ currentStatusView (state (fst (loadThemeSettings getUser select w)))
       = currentStatusView (state w)
     ∧ initialized (state (fst (loadThemeSettings getUser select w)))
       = initialized (state w)).
Proof.
  intros Hremote.
  assert (Hlocal : ∀ w0, localStorage w0 = localStorage w →
            ∃ w1, loadFromLocalStorage w0 = (w1, load_outcome (localStorage w))
                  ∧ localStorage w1 = localStorage w
                  ∧ initialized (state w1) = initialized (state w0)
                  ∧ plain_colors_loaded (localStorage w) (state w1)
                  ∧ (load_outcome (localStorage w) ≠ Returns tt →
                     caseStatusTextColors (state w1) = caseStatusTextColors (state w0)
                     ∧ currentStatusView (state w1) = currentStatusView (state w0))).
  { intros w0 E. destruct (loadFromLocalStorage_partial w0) as (w1 & H & Hls & Hi & Hp & Hx).
    rewrite E in H, Hls, Hp, Hx. eauto 10. }
  unfold remote_payload in Hremote.
  unfold loadThemeSettings, try_catch, mbind, M_bind, await, throw, mret, M_ret, lift.
  destruct getUser as [[id|]|];
    [destruct (select id) as [r|];
       [destruct (is_load_error (error r));
          [|destruct (optional_theme_settings (data r)) as [settings|];
            [discriminate Hremote|]]|]| |].
  all: try (destruct (Hlocal (emit ConsoleError w) eq_refl) as (w1 & -> & Hls1 & Hi1 & Hp1 & Hx1)).
  all: try (destruct (Hlocal w eq_refl) as (w1 & -> & Hls1 & Hi1 & Hp1 & Hx1)).
  all: destruct (load_outcome (localStorage w)) as [[]| |] eqn:Ho.
  all: try (destruct (Hlocal (emit ConsoleError w1) Hls1)
              as (w2 & -> & Hls2 & Hi2 & Hp2 & Hx2)).
  all: cbn [fst].
  all: split;
    [ first [ apply plain_colors_loaded_setInitialized; assumption | assumption ]
    | intros Hne; first [ congruence | idtac ] ].
  all: try (destruct (Hx1 Hne) as [Hc1 Hv1]).
  all: try (destruct (Hx2 Hne) as [Hc2 Hv2]).
  all: cbn [state emit] in *.
  all: repeat split; congruence.
Qed.

(** X11. When the load adopts no remote payload and a cached
    status-colour entry is not JSON, the rejected load leaves a torn
    state: header, avatar, main and button colour are already those of
    the cache and the text colour is the contrast of that header, while
    the text-colour map, the view and [initialized] are still what they
    were before the load. *)
Theorem loadThemeSettings_torn_state getUser select w :
  remote_payload getUser select = None →
  load_outcome (localStorage w) = Throws →
  let result := loadThemeSettings getUser select w in
  snd result = Throws
  ∧ plain_colors_loaded (localStorage w) (state (fst result))
  ∧ caseStatusTextColors (state (fst result)) = caseStatusTextColors (state w)
  ∧ currentStatusView (state (fst result)) = currentStatusView (state w)
  ∧ initialized (state (fst result)) = initialized (state w).
Proof.
  intros Hremote Hbad. cbv zeta.
  destruct (loadThemeSettings_never_initializes getUser select w Hremote Hbad)
    as (w' & new & E & _).
  destruct (loadThemeSettings_local getUser select w Hremote) as [Hplain Hold].
  split; [rewrite E; reflexivity|]. split; [exact Hplain|].
  apply Hold. rewrite Hbad. discriminate.
Qed.

Lemma loadThemeSettings_torn_state_witness :
  let cache : gmap string string :=
    {[ "praxis-header-color" := "#000000"; "praxis-status-view" := "tasks";
       "praxis-task-status-colors" := "{" ]} in
  let result := loadThemeSettings (Resolved None) (λ _, Rejected) (initial_world cache) in
  snd result = Throws
  ∧ headerColor (state (fst result)) = "#000000"
  ∧ currentStatusView (state (fst result)) = "cases".
Proof.
  intros cache result.
  destruct (loadThemeSettings_torn_state (Resolved None) (λ _, Rejected) (initial_world cache))
    as (Hthrows & (Hh & _) & _ & Hv & _); [reflexivity|reflexivity|].
  split; [exact Hthrows|]. split; [exact Hh|exact Hv].
Defined.

(** ** The text colour against the header colour *)

Lemma contrast_consistent_call c w :
  keeps_contrast (Setter c) → contrast_consistent w → contrast_consistent (call c w).
Proof.
  destruct w as [[h a t m b cc0 tc0 xc0 v i] ls ev]. unfold contrast_consistent.
  cbn [state headerColor textColor].
  destruct c, i; cbn [keeps_contrast]; intros Hk H; try (destruct Hk);
    cbn -[isLightColor contrast]; first [exact H|reflexivity].
Qed.

Lemma contrast_consistent_local getUser select w :
  remote_payload getUser select = None →
  contrast_consistent (perform (Initialize getUser select) w).
Proof.
  intros Hremote.
  destruct (loadThemeSettings_local getUser select w Hremote) as [(Hh & _ & Ht & _) _].
  unfold contrast_consistent. cbn [perform]. rewrite Ht, Hh. reflexivity.
Qed.

Lemma contrast_consistent_keeps op w :
  keeps_contrast op → contrast_consistent w → contrast_consistent (perform op w).
Proof.
  destruct op as [getUser select|c]; cbn [keeps_contrast]; intros Hk Hw.
  - apply contrast_consistent_local. exact Hk.
  - apply contrast_consistent_call; assumption.
Qed.

(** X12. The text colour contrasts with the header colour after
    [setHeaderColor] and after every load that adopts no remote payload
    (even one that is rejected), from any state; and it stays so through
    every later operation other than [setTextColor] and a load that
    adopts a remote payload. *)
Theorem contrast_invariant op ops w :
  establishes_contrast op → Forall keeps_contrast ops →
  textColor (state (run (op :: ops) w))
  = contrast (headerColor (state (run (op :: ops) w))).
Proof.
  intros Hop Hops. cbn [run foldl].
  assert (H0 : contrast_consistent (perform op w)).
  { destruct op as [getUser select|c].
    - apply contrast_consistent_local. exact Hop.
    - destruct c; try (destruct Hop).
      destruct w as [[h a t m b cc0 tc0 xc0 v i] ls ev]. destruct i; reflexivity. }
  revert H0. generalize (perform op w). clear Hop w.
  induction Hops as [|op' ops Hop' Hops IH]; intros w Hw; [exact Hw|].
  cbn [foldl]. apply IH. apply contrast_consistent_keeps; assumption.
Qed.

Lemma contrast_invariant_witness :
  let w := run [Initialize (Resolved None) (λ _, Rejected);
                Setter (SetAvatarColor "#123456");
                Setter (SetHeaderColor "#000000");
                Setter (SetCaseStatusColor "delayed" "#FF0000")]
               (initial_world {["praxis-task-status-colors" := "{"]}) in
  textColor (state w) = contrast (headerColor (state w)).
Proof.
  apply (contrast_invariant (Initialize (Resolved None) (λ _, Rejected))
           [Setter (SetAvatarColor "#123456"); Setter (SetHeaderColor "#000000");
            Setter (SetCaseStatusColor "delayed" "#FF0000")]).
  - reflexivity.
  - repeat apply Forall_cons_2; try apply Forall_nil_2; exact I.
Defined.

(** ** Remote writes and the [initialized] flag *)

(** What a load can do to the cache, the events and the flag, on every
    path and however it ends. *)
Lemma loadThemeSettings_effects getUser select w :
  localStorage (fst (loadThemeSettings getUser select w)) = localStorage w
  ∧ ∃ new,
      events (fst (loadThemeSettings getUser select w)) = events w ++ new
      ∧ Forall (λ e, is_write e = false) new
      ∧ (initialized (state (fst (loadThemeSettings getUser select w))) = true
         ↔ initialized (state w) = true ∨ In (SetInitialized true) new).
Proof.
  assert (Hlocal : ∀ w0, localStorage w0 = localStorage w →
            ∃ w1, loadFromLocalStorage w0 = (w1, load_outcome (localStorage w))
                  ∧ localStorage w1 = localStorage w
                  ∧ events w1 = events w0 ++ [LoadFromLocalStorage]
                  ∧ initialized (state w1) = initialized (state w0)).
  { intros w0 E. destruct (loadFromLocalStorage_outcome w0) as (w1 & H & Hls & He & Hi).
    rewrite E in H, Hls. eauto 10. }
  assert (Hno : ∀ P : Prop, P ∨ False ↔ P) by tauto.
  unfold loadThemeSettings, try_catch, mbind, M_bind, await, throw, mret, M_ret, lift.
  destruct getUser as [[id|]|];
    [destruct (select id) as [r|];
       [destruct (is_load_error (error r));
          [|destruct (optional_theme_settings (data r)) as [settings|]]|]| |].
  all: try (destruct (adopt_returns settings w) as (w1 & -> & Hls1 & He1 & Hi1)).
  all: try (destruct (Hlocal (emit ConsoleError w) eq_refl) as (w1 & -> & Hls1 & He1 & Hi1)).
  all: try (destruct (Hlocal w eq_refl) as (w1 & -> & Hls1 & He1 & Hi1)).
  all: try (destruct (load_outcome (localStorage w)) as [[]| |] eqn:Ho).
  all: try (destruct (Hlocal (emit ConsoleError w1) Hls1) as (w2 & -> & Hls2 & He2 & Hi2)).
  all: cbn [fst].
  all: try (destruct (setInitialized_true w1) as (Hi & He & Hls)).
  all: cbn [state events localStorage emit] in *.
  all: (split; [congruence|]).
  all: first
    [ rewrite He, He1, <- ?app_assoc; eexists; split; [reflexivity|];
      split; [repeat constructor|]; rewrite Hi; cbn; tauto
    | rewrite He2, He1, <- ?app_assoc; eexists; split; [reflexivity|];
      split; [repeat constructor|]; rewrite Hi2, Hi1; cbn;
      intuition discriminate
    | rewrite He1, <- ?app_assoc; eexists; split; [reflexivity|];
      split; [repeat constructor|]; rewrite Hi1; cbn;
      intuition discriminate ].
Qed.

(** X13. The load never writes: on every path and however it ends,
    the local cache is what it was, no remote write has been dispatched,
    and a flag [initialized] that was true is still true. *)
Theorem loadThemeSettings_read_only getUser select w :
  let w' := fst (loadThemeSettings getUser select w) in
  localStorage w' = localStorage w
  ∧ filter is_write (events w') = filter is_write (events w)
  ∧ (initialized (state w) = true → initialized (state w') = true).
Proof.
  cbv zeta.
  destruct (loadThemeSettings_effects getUser select w) as (Hls & new & He & Hnew & Hi).
  split; [exact Hls|]. split.
  - rewrite He, filter_app.
    assert (Hnone : filter is_write new = []).
    { clear He Hi. induction Hnew as [|e new He _ IH]; [reflexivity|].
      rewrite filter_cons_False by (rewrite He; exact id). exact IH. }
    rewrite Hnone. apply app_nil_r.
  - intros H. apply Hi. left. exact H.
Qed.

Lemma writes_follow_initialization_app es new :
  writes_follow_initialization es →
  (∀ before newSettings after,
     new = before ++ SaveThemeToDatabase newSettings :: after →
     In (SetInitialized true) (es ++ before)) →
  writes_follow_initialization (es ++ new).
Proof.
  intros Hes Hnew before p after E.
  apply app_eq_app in E as [l [[E1 E2]|[E1 E2]]].
  - destruct l as [|e l].
    + rewrite app_nil_r in E1. subst before. cbn in E2.
      specialize (Hnew [] p after (eq_sym E2)). rewrite app_nil_r in Hnew. exact Hnew.
    + injection E2 as <- E2. exact (Hes before p l E1).
  - subst before. exact (Hnew l p after E2).
Qed.

Lemma call_events c w :
  initialized (state (call c w)) = initialized (state w)
  ∧ (events (call c w) = events w
     ∨ initialized (state w) = true
       ∧ ∃ newSettings, events (call c w) = events w ++ [SaveThemeToDatabase newSettings]).
Proof.
  destruct w as [[h a t m b cc0 tc0 xc0 v i] ls ev].
  destruct c, i; (split; [reflexivity|]);
    first [left; reflexivity | right; split; [reflexivity|]; eexists; reflexivity].
Qed.

(** The invariant of the runs: remote writes follow an initialization,
    and the flag is true exactly when [setInitialized(true)] was called. *)
Lemma initialization_invariant op w :
  writes_follow_initialization (events w)
  ∧ (initialized (state w) = true ↔ In (SetInitialized true) (events w)) →
  writes_follow_initialization (events (perform op w))
  ∧ (initialized (state (perform op w)) = true
     ↔ In (SetInitialized true) (events (perform op w))).
Proof.
  intros [Hw Hi]. destruct op as [getUser select|c]; cbn [perform].
  - destruct (loadThemeSettings_effects getUser select w) as (_ & new & -> & Hnew & Hinit).
    split.
    + apply writes_follow_initialization_app; [exact Hw|].
      intros before p after ->. apply Forall_app in Hnew as [_ Hnew].
      apply Forall_cons in Hnew as [Hp _]. discriminate Hp.
    + rewrite in_app_iff, Hinit, Hi. reflexivity.
  - destruct (call_events c w) as [-> [->|[Hinit [p ->]]]].
    + split; assumption.
    + split.
      * apply writes_follow_initialization_app; [exact Hw|].
        intros before q after E. destruct before as [|e before].
        -- rewrite app_nil_r. apply Hi, Hinit.
        -- injection E as _ E. destruct before; discriminate E.
      * rewrite in_app_iff. split; [intros H; left; apply Hi, H|].
        intros [H|[H|[]]]; [apply Hi, H|discriminate H].
Qed.

(** X14. In every run of loads and setter calls from the initial
    state, whatever the cache and the backend hold, each remote write is
    dispatched after a call [setInitialized(true)]; and [initialized] is
    true exactly when such a call has been made, so it is never reset. *)
Theorem no_write_before_initialization cache ops :
  let w := run ops (initial_world cache) in
  writes_follow_initialization (events w)
  ∧ (initialized (state w) = true ↔ In (SetInitialized true) (events w)).
Proof.
  cbv zeta.
  assert (H0 : writes_follow_initialization (events (initial_world cache))
               ∧ (initialized (state (initial_world cache)) = true
                  ↔ In (SetInitialized true) (events (initial_world cache)))).
  { split.
    - intros before p after E. destruct before; discriminate E.
    - cbn. split; [discriminate|intros []]. }
  revert H0. generalize (initial_world cache).
  induction ops as [|op ops IH]; intros w Hw; [exact Hw|].
  cbn [run foldl]. apply IH. apply initialization_invariant. exact Hw.
Qed.

Lemma no_write_before_initialization_witness :
  let w := run [Setter (SetAvatarColor "#000000");
                Initialize (Resolved None) (λ _, Rejected);
                Setter (SetAvatarColor "#FFFFFF")] (initial_world ∅) in
  events w
  = [LoadFromLocalStorage; SetInitialized true; SaveThemeToDatabase (settings_of (state w))]
  ∧ In (SetInitialized true) [LoadFromLocalStorage; SetInitialized true].
Proof.
  intros w.
  assert (E : events w = [LoadFromLocalStorage; SetInitialized true]
                         ++ [SaveThemeToDatabase (settings_of (state w))]).
  { vm_compute. reflexivity. }
  split; [exact E|].
  exact (proj1 (no_write_before_initialization ∅
                  [Setter (SetAvatarColor "#000000");
                   Initialize (Resolved None) (λ _, Rejected);
                   Setter (SetAvatarColor "#FFFFFF")])
           [LoadFromLocalStorage; SetInitialized true] (settings_of (state w)) [] E).
Defined.

(** X15. The error of the profile query decides alone. With the
    code PGRST116 (no row found) the load goes on exactly as without an
    error, so a payload that came with it is adopted; with any other
    code the load behaves exactly as if the query had returned no data:
    a payload that came with it is ignored. *)
Theorem loadThemeSettings_query_error id select r e w :
  select id = Resolved r → error r = Some e →
  if String.eqb (code e) "PGRST116" then
    loadThemeSettings (Resolved (Some id)) select w
    = loadThemeSettings (Resolved (Some id))
        (λ _, Resolved {| data := data r; error := None |}) w
  else
    loadThemeSettings (Resolved (Some id)) select w
    = loadThemeSettings (Resolved (Some id))
        (λ _, Resolved {| data := None; error := Some e |}) w.
Proof.
  intros Hs He.
  unfold loadThemeSettings, try_catch, mbind, M_bind, await, mret, M_ret.
  rewrite Hs. cbn [error data]. rewrite He. unfold is_load_error.
  destruct (String.eqb (code e) "PGRST116"); reflexivity.
Qed.

Lemma loadThemeSettings_query_error_witness :
  let settings := ThemeSettings.Build (Some "#112233") None None None None None None None in
  let r := {| data := Some {| theme_settings := Some settings |};
              error := Some {| code := "42501" |} |} in
  loadThemeSettings (Resolved (Some "user-1")) (λ _, Resolved r) (initial_world ∅)
  = loadThemeSettings (Resolved (Some "user-1"))
      (λ _, Resolved {| data := None; error := Some {| code := "42501" |} |})
      (initial_world ∅).
Proof.
  exact (loadThemeSettings_query_error "user-1"
           (λ _, Resolved {| data := Some {| theme_settings :=
                    Some (ThemeSettings.Build (Some "#112233") None None None None
                            None None None) |};
                  error := Some {| code := "42501" |} |})
           _ {| code := "42501" |} (initial_world ∅) eq_refl eq_refl).
Defined.

(** X16. The body of a remote write asks the backend at most once:
    with no session it does nothing at all; with a session it issues
    exactly one row update, for that user and with the payload it was
    given. The user sees a toast exactly when the backend answers that
    update with an error; a rejected promise is only logged. *)
Theorem saveThemeToDatabase_body_requests getUser update newSettings :
  let requests := saveThemeToDatabase_body getUser update newSettings in
  (∀ id, getUser = Resolved (Some id) → updates requests = [newSettings]
         ∧ In (Update id newSettings) requests)
  ∧ (getUser = Resolved None → requests = [])
  ∧ (getUser = Rejected → requests = [LogError])
  ∧ (In Toast requests
     ↔ ∃ id e, getUser = Resolved (Some id)
               ∧ update id newSettings = Resolved (Some e))
  ∧ (In LogError requests
     ↔ getUser = Rejected
       ∨ ∃ id, getUser = Resolved (Some id) ∧ update id newSettings ≠ Resolved None).
Proof.
  cbv zeta. unfold saveThemeToDatabase_body.
  destruct getUser as [[id|]|]; [destruct (update id newSettings) as [[e|]|] eqn:E| |].
  - split; [intros id' [= <-]; split; [reflexivity|left; reflexivity]|].
    split; [discriminate|]. split; [discriminate|]. split; split.
    + intros _. exists id, e. split; [reflexivity|exact E].
    + intros _. right. right. left. reflexivity.
    + intros _. right. exists id. split; [reflexivity|]. rewrite E. discriminate.
    + intros _. right. left. reflexivity.
  - split; [intros id' [= <-]; split; [reflexivity|left; reflexivity]|].
    split; [discriminate|]. split; [discriminate|]. split; split.
    + intros [H|[]]. discriminate H.
    + intros (id' & e' & [= <-] & He'). rewrite E in He'. discriminate He'.
    + intros [H|[]]. discriminate H.
    + intros [H|(id' & [= <-] & He')]; [discriminate H|]. destruct (He' E).
  - split; [intros id' [= <-]; split; [reflexivity|left; reflexivity]|].
    split; [discriminate|]. split; [discriminate|]. split; split.
    + intros [H|[H|[]]]; discriminate H.
    + intros (id' & e' & [= <-] & He'). rewrite E in He'. discriminate He'.
    + intros _. right. exists id. split; [reflexivity|]. rewrite E. discriminate.
    + intros _. right. left. reflexivity.
  - split; [discriminate|]. split; [reflexivity|]. split; [discriminate|]. split; split.
    + intros [].
    + intros (id' & e' & H & _). discriminate H.
    + intros [].
    + intros [H|(id' & H & _)]; discriminate H.
  - split; [discriminate|]. split; [discriminate|]. split; [reflexivity|]. split; split.
    + intros [H|[]]. discriminate H.
    + intros (id' & e' & H & _). discriminate H.
    + intros _. left. reflexivity.
    + intros _. left. reflexivity.
Qed.

(** ** The payment simulation *)

(** The cases of a run with a signed-in user, by what the backend
    answers. *)
Ltac in_list := cbn; solve [repeat first [left; reflexivity | right]].
Ltac not_in_list H := cbn in H; solve [intuition discriminate].

Ltac payment_cases user_id select confirm activate t1 t2 :=
  unfold Payment.simulatePayment, Payment.try_block;
  destruct (select user_id) as [[[payment|] [e|]]|] eqn:Hselect;
  cbn [Payment.error Payment.data];
  [ | destruct (confirm (Payment.id payment)) as [[e1|]|] eqn:Hconfirm;
      [ | destruct (activate user_id t1 t2) as [[e2|]|] eqn:Hactivate | ] | | | ].

(** X17. Without a signed-in user [simulatePayment] does nothing at
    all. With one, it sets [isLoading] to true first and to false last
    and nowhere in between, whatever the backend answers, also when a
    request is refused or its promise rejected: the button is never left
    disabled. *)
Theorem simulatePayment_loading_flag select confirm activate t1 t2 :
  Payment.simulatePayment None select confirm activate t1 t2 = []
  ∧ ∀ user_id before,
      let effects := Payment.simulatePayment (Some user_id) select confirm activate t1 t2 in
      Payment.isLoading before effects = false
      ∧ head effects = Some (Payment.SetIsLoading true)
      ∧ last effects = Some (Payment.SetIsLoading false)
      ∧ length (filter Payment.is_loading_change effects) = 2.
Proof.
  split; [reflexivity|]. intros user_id before. cbv zeta.
  payment_cases user_id select confirm activate t1 t2; repeat split; reflexivity.
Qed.

(** X18. The requests go out in a fixed order and each only after
    the one before it was accepted: the payment that is confirmed is the
    pending one the query returned without error, and the subscription is
    activated only after that confirmation was accepted. Nothing is
    undone: when the activation is refused the payment stays confirmed,
    and the requests made are the query, the confirmation and the
    activation, once each. *)
Theorem simulatePayment_requests user select confirm activate t1 t2 :
  let effects := Payment.simulatePayment user select confirm activate t1 t2 in
  (∀ payment_id, In (Payment.ConfirmPayment payment_id) effects →
     ∃ user_id payment,
       user = Some user_id
       ∧ select user_id = Resolved {| Payment.data := Some payment; Payment.error := None |}
       ∧ payment_id = Payment.id payment)
  ∧ (∀ user_id a b, In (Payment.ActivateSubscription user_id a b) effects →
     user = Some user_id ∧ a = t1 ∧ b = t2
     ∧ ∃ payment,
         select user_id = Resolved {| Payment.data := Some payment; Payment.error := None |}
         ∧ confirm (Payment.id payment) = Resolved None
         ∧ filter Payment.is_request effects
           = [Payment.SelectPending user_id; Payment.ConfirmPayment (Payment.id payment);
              Payment.ActivateSubscription user_id t1 t2]).
Proof.
  cbv zeta. destruct user as [user_id|]; [|cbn; split; [intros ? []|intros ? ? ? []]].
  payment_cases user_id select confirm activate t1 t2; split.
  all: try solve [intros pid H; cbn in H; exfalso; intuition discriminate].
  all: try solve [intros uid a b H; cbn in H; exfalso; intuition discriminate].
  all: try solve [intros pid H; exists user_id, payment; split; [reflexivity|];
                  split; [exact Hselect|]; cbn in H; intuition congruence].
  all: intros uid a b H;
    assert (E : Payment.ActivateSubscription uid a b
                = Payment.ActivateSubscription user_id t1 t2)
      by (cbn in H; intuition (try discriminate; congruence));
    injection E as -> -> ->;
    (split; [reflexivity|]); (split; [reflexivity|]); (split; [reflexivity|]);
    exists payment; split; [exact Hselect|]; split; [exact Hconfirm|reflexivity].
Qed.

Lemma simulatePayment_requests_witness :
  let select := λ _ : string,
    Resolved {| Payment.data := Some {| Payment.id := "p-1" |}; Payment.error := None |} in
  let confirm := λ _ : string, Resolved (None : option PostgrestError) in
  let activate := λ _ _ _ : string, Resolved (Some {| code := "42501" |}) in
  In (Payment.ActivateSubscription "user-1" "t1" "t2")
     (Payment.simulatePayment (Some "user-1") select confirm activate "t1" "t2")
  ∧ filter Payment.is_request
      (Payment.simulatePayment (Some "user-1") select confirm activate "t1" "t2")
    = [Payment.SelectPending "user-1"; Payment.ConfirmPayment "p-1";
       Payment.ActivateSubscription "user-1" "t1" "t2"].
Proof.
  intros select confirm activate.
  assert (H : In (Payment.ActivateSubscription "user-1" "t1" "t2")
                (Payment.simulatePayment (Some "user-1") select confirm activate "t1" "t2")).
  { right. right. right. left. reflexivity. }
  split; [exact H|].
  destruct (proj2 (simulatePayment_requests (Some "user-1") select confirm activate "t1" "t2")
              "user-1" "t1" "t2" H) as (_ & _ & _ & payment & Hs & _ & Hf).
  injection Hs as <-. exact Hf.
Defined.

(** X19. Every run with a signed-in user ends with exactly one
    toast. It is the success toast, followed by the reload of the page,
    exactly when the query found a pending payment and both updates were
    accepted; in every other case it is an error toast and the page is
    not reloaded. *)
Theorem simulatePayment_one_toast user_id select confirm activate t1 t2 :
  let effects := Payment.simulatePayment (Some user_id) select confirm activate t1 t2 in
  length (filter Payment.is_toast effects) = 1
  ∧ (Payment.all_accepted user_id select confirm activate t1 t2
     ↔ ∃ message, In (Payment.ToastSuccess message) effects)
  ∧ (Payment.all_accepted user_id select confirm activate t1 t2
     ↔ In Payment.Reload effects)
  ∧ (¬ Payment.all_accepted user_id select confirm activate t1 t2
     ↔ ∃ message, In (Payment.ToastError message) effects).
Proof.
  cbv zeta. unfold Payment.all_accepted.
  destruct (select user_id) as [[[payment|] [e|]]|] eqn:Hselect.
  2: destruct (confirm (Payment.id payment)) as [[e1|]|] eqn:Hconfirm.
  3: destruct (activate user_id t1 t2) as [[e2|]|] eqn:Hactivate.
  all: unfold Payment.simulatePayment, Payment.try_block; rewrite Hselect;
    cbn [Payment.error Payment.data]; rewrite ?Hconfirm, ?Hactivate.
  all: (split; [reflexivity|]).
  all: match goal with
       | |- (?A ↔ _) ∧ _ =>
           first
             [ assert (Hacc : A)
                 by (exists payment; split; [reflexivity|];
                     split; [exact Hconfirm|reflexivity]);
               split; [split; [intros _; eexists; in_list|intros _; exact Hacc]|];
               split; [split; [intros _; in_list|intros _; exact Hacc]|];
               split; [intros Hn; destruct (Hn Hacc)|intros [message H]; not_in_list H]
             | assert (Hacc : ¬ A)
                 by (intros (p & Hs & Hc & Ha); first [discriminate Hs | congruence]);
               split; [split; [intros H; destruct (Hacc H)
                              |intros [message H]; not_in_list H]|];
               split; [split; [intros H; destruct (Hacc H)|intros H; not_in_list H]|];
               split; [intros _; eexists; in_list|intros _; exact Hacc] ]
       end.
Qed.

Lemma simulatePayment_one_toast_witness :
  let effects := Payment.simulatePayment (Some "user-1") (λ _, Rejected)
                   (λ _, Rejected) (λ _ _ _, Rejected) "t1" "t2" in
  length (filter Payment.is_toast effects) = 1
  ∧ ¬ In Payment.Reload effects.
Proof.
  intros effects.
  destruct (simulatePayment_one_toast "user-1" (λ _, Rejected)
              (λ _, Rejected) (λ _ _ _, Rejected) "t1" "t2") as (Hone & _ & Hreload & _).
  split; [exact Hone|]. intros H. apply Hreload in H as (p & Hs & _). discriminate Hs.
Defined.
